(** * Camera Streaming Daemon: parameter store, frame-size resolver and
      MAVLink camera-component multiplexer

    A shallow embedding of [src/CameraParameters.cpp] and of the MAVLink
    server ([MavlinkServer]), with the properties of their specification
    stated and settled against the embedded code. *)

From Stdlib Require Import ZArith NArith List String Ascii Bool Lia.
From Stdlib Require Import Sorted Permutation SpecFloat DecimalString.
Import ListNotations.

Set Implicit Arguments.

Local Open Scope Z_scope.

(** ** Ordered keys

    [std::map<K, V>] needs a strict weak order on [K]: [std::less<int>] for
    the component registry, [std::less<std::string>] (byte-wise
    lexicographic) for the parameter maps. *)

Class OrdKey (K : Type) := { kcmp : K -> K -> comparison }.

#[global] Instance OrdKey_Z : OrdKey Z := {| kcmp := Z.compare |}.

#[global] Instance OrdKey_string : OrdKey string := {| kcmp := String.compare |}.

(** The laws of such an order, as far as the proofs below use them. *)
Class OrdKeyLaws (K : Type) `{OrdKey K} := {
  kcmp_eq : forall a b, kcmp a b = Eq -> a = b;
  kcmp_refl : forall a, kcmp a a = Eq;
  kcmp_antisym : forall a b, kcmp a b = CompOpp (kcmp b a);
  kcmp_lt_trans : forall a b c, kcmp a b = Lt -> kcmp b c = Lt -> kcmp a c = Lt
}.
Arguments OrdKeyLaws K {_}.

(** ** [std::map]

    A [std::map] is kept as the list of its entries in ascending key order,
    which is the order its iterators ([begin() .. end()]) visit them in. *)

Module StdMap.
Section Map.
Context {K V : Type} `{OrdKey K}.

Definition t := list (K * V).

Definition empty : t := [].

(** [m.find(k)]: [None] stands for [m.end()]. *)
Fixpoint find (k : K) (m : t) : option V :=
  match m with
  | [] => None
  | (k', v') :: tl =>
      match kcmp k k' with
      | Eq => Some v'
      | Lt => None
      | Gt => find k tl
      end
  end.

(** [m.insert(std::make_pair(k, v))]: the entry is added at its place in
    the key order; when the key is already present the map is left as it
    is (the element is not assigned). *)
Fixpoint insert (k : K) (v : V) (m : t) : t :=
  match m with
  | [] => [(k, v)]
  | (k', v') :: tl =>
      match kcmp k k' with
      | Eq => m
      | Lt => (k, v) :: m
      | Gt => (k', v') :: insert k v tl
      end
  end.

Definition size (m : t) : Z := Z.of_nat (List.length m).

(** Keys in iteration order. *)
Definition keys (m : t) : list K := map fst m.

Definition key_lt (a b : K) : Prop := kcmp a b = Lt.

(** The representation invariant: strictly ascending keys. *)
Definition wf (m : t) : Prop := StronglySorted key_lt (keys m).
End Map.
End StdMap.

(** ** The camera parameter registry ([CameraParameters.cpp]) *)

Module CameraParameters.

Local Open Scope string_scope.

Definition CAMERA_MODE := "camera-mode".
Definition BRIGHTNESS := "brightness".
Definition CONTRAST := "contrast".
Definition SATURATION := "saturation".
Definition HUE := "hue".
Definition WHITE_BALANCE_MODE := "wb-mode".
Definition GAMMA := "gamma".
Definition GAIN := "gain".
Definition POWER_LINE_FREQ_MODE := "power-mode".
Definition WHITE_BALANCE_TEMPERATURE := "wb-temp".
Definition SHARPNESS := "sharpness".
Definition BACKLIGHT_COMPENSATION := "backlight".
Definition EXPOSURE_MODE := "exp-mode".
Definition EXPOSURE_ABSOLUTE := "exp-absolute".
Definition IMAGE_SIZE := "image-size".
Definition IMAGE_FORMAT := "image-format".
Definition PIXEL_FORMAT := "pixel-format".
Definition SCENE_MODE := "scene-mode".
Definition VIDEO_SIZE := "video-size".
Definition VIDEO_FRAME_FORMAT := "video-format".
Definition VIDEO_SNAPSHOT_SUPPORTED := "video-snapshot".

(** Modelled from the spec: the enumerators [PARAM_ID_*] are declared in
    [CameraParameters.h], which is not among the sources; the
    specification gives one numeric identifier per name and no values,
    so they are kept as the constructors of an enumeration. *)
Inductive param_id : Set :=
| PARAM_ID_CAMERA_MODE | PARAM_ID_BRIGHTNESS | PARAM_ID_CONTRAST
| PARAM_ID_SATURATION | PARAM_ID_HUE | PARAM_ID_WHITE_BALANCE_MODE
| PARAM_ID_GAMMA | PARAM_ID_GAIN | PARAM_ID_POWER_LINE_FREQ_MODE
| PARAM_ID_WHITE_BALANCE_TEMPERATURE | PARAM_ID_SHARPNESS
| PARAM_ID_BACKLIGHT_COMPENSATION | PARAM_ID_EXPOSURE_MODE
| PARAM_ID_EXPOSURE_ABSOLUTE | PARAM_ID_IMAGE_SIZE | PARAM_ID_IMAGE_FORMAT
| PARAM_ID_PIXEL_FORMAT | PARAM_ID_SCENE_MODE | PARAM_ID_VIDEO_SIZE
| PARAM_ID_VIDEO_FRAME_FORMAT | PARAM_ID_VIDEO_SNAPSHOT_SUPPORTED.

(** Modelled from the spec: the enumerators [PARAM_TYPE_*] are declared
    in [CameraParameters.h] as well; the specification lists the scalar
    type tags UINT8, INT32, UINT32 and REAL32. *)
Inductive param_type : Set :=
| PARAM_TYPE_UINT8 | PARAM_TYPE_INT32 | PARAM_TYPE_UINT32 | PARAM_TYPE_REAL32.

(** The three maps of the class: current values, supported values, and
    the schema (name to identifier and type). *)
Record t := mk {
  paramValue : StdMap.t (K := string) (V := string);
  paramValuesSupported : StdMap.t (K := string) (V := string);
  paramIdType : StdMap.t (K := string) (V := param_id * param_type)
}.

(** [set(pMap, key, value)], both overloads:
    [pMap.insert(std::make_pair(key, value))]. *)
Definition set {V : Type} (pMap : StdMap.t (K := string) (V := V))
    (key : string) (value : V) : StdMap.t (K := string) (V := V) :=
  StdMap.insert key value pMap.

(** [get(pMap, key)]: the mapped value, or the empty string. *)
Definition get (pMap : StdMap.t (K := string) (V := string))
    (key : string) : string :=
  match StdMap.find key pMap with
  | Some v => v
  | None => ""
  end.

(** The calls of [initParamIdType], in the order of the source text
    ([WHITE_BALANCE_MODE] is set twice there). *)
Definition initParamIdType_calls : list (string * (param_id * param_type)) :=
  [ (CAMERA_MODE, (PARAM_ID_CAMERA_MODE, PARAM_TYPE_UINT32));
    (BRIGHTNESS, (PARAM_ID_BRIGHTNESS, PARAM_TYPE_UINT32));
    (CONTRAST, (PARAM_ID_CONTRAST, PARAM_TYPE_UINT32));
    (SATURATION, (PARAM_ID_SATURATION, PARAM_TYPE_UINT32));
    (HUE, (PARAM_ID_HUE, PARAM_TYPE_INT32));
    (WHITE_BALANCE_MODE, (PARAM_ID_WHITE_BALANCE_MODE, PARAM_TYPE_UINT32));
    (GAMMA, (PARAM_ID_GAMMA, PARAM_TYPE_UINT32));
    (GAIN, (PARAM_ID_GAIN, PARAM_TYPE_UINT32));
    (POWER_LINE_FREQ_MODE, (PARAM_ID_POWER_LINE_FREQ_MODE, PARAM_TYPE_UINT32));
    (WHITE_BALANCE_TEMPERATURE,
      (PARAM_ID_WHITE_BALANCE_TEMPERATURE, PARAM_TYPE_UINT32));
    (SHARPNESS, (PARAM_ID_SHARPNESS, PARAM_TYPE_UINT32));
    (BACKLIGHT_COMPENSATION,
      (PARAM_ID_BACKLIGHT_COMPENSATION, PARAM_TYPE_UINT32));
    (EXPOSURE_MODE, (PARAM_ID_EXPOSURE_MODE, PARAM_TYPE_UINT32));
    (EXPOSURE_ABSOLUTE, (PARAM_ID_EXPOSURE_ABSOLUTE, PARAM_TYPE_UINT32));
    (IMAGE_SIZE, (PARAM_ID_IMAGE_SIZE, PARAM_TYPE_UINT32));
    (IMAGE_FORMAT, (PARAM_ID_IMAGE_FORMAT, PARAM_TYPE_UINT32));
    (PIXEL_FORMAT, (PARAM_ID_PIXEL_FORMAT, PARAM_TYPE_UINT32));
    (WHITE_BALANCE_MODE, (PARAM_ID_WHITE_BALANCE_MODE, PARAM_TYPE_UINT32));
    (SCENE_MODE, (PARAM_ID_SCENE_MODE, PARAM_TYPE_UINT32));
    (VIDEO_SIZE, (PARAM_ID_VIDEO_SIZE, PARAM_TYPE_UINT32));
    (VIDEO_FRAME_FORMAT, (PARAM_ID_VIDEO_FRAME_FORMAT, PARAM_TYPE_UINT32));
    (VIDEO_SNAPSHOT_SUPPORTED,
      (PARAM_ID_VIDEO_SNAPSHOT_SUPPORTED, PARAM_TYPE_UINT32)) ].

Definition initParamIdType (cp : t) : t :=
  mk (paramValue cp) (paramValuesSupported cp)
     (fold_left (fun pMap call => set pMap (fst call) (snd call))
                initParamIdType_calls (paramIdType cp)).

(** The constructor: three empty maps, then [initParamIdType()]. *)
Definition CameraParameters : t :=
  initParamIdType (mk StdMap.empty StdMap.empty StdMap.empty).

(** [setParameterSupported(key, value)]; always returns 1. *)
Definition setParameterSupported (cp : t) (key value : string) : Z * t :=
  (1, mk (paramValue cp) (set (paramValuesSupported cp) key value)
         (paramIdType cp)).

(** [setParameter(key, value)]; always returns 1. *)
Definition setParameter (cp : t) (key value : string) : Z * t :=
  (1, mk (set (paramValue cp) key value) (paramValuesSupported cp)
         (paramIdType cp)).

Definition getParameter (cp : t) (key : string) : string :=
  get (paramValue cp) key.

(** [getParameterID(param)]: [None] stands for the source's [-1]. *)
Definition getParameterID (cp : t) (param : string) : option param_id :=
  match StdMap.find param (paramIdType cp) with
  | Some it => Some (fst it)
  | None => None
  end.

(** [getParameterType(param)]: [None] stands for the source's [-1]. *)
Definition getParameterType (cp : t) (param : string) : option param_type :=
  match StdMap.find param (paramIdType cp) with
  | Some it => Some (snd it)
  | None => None
  end.

(** A run of [setParameter] calls, oldest first. *)
Definition setParameters (cp : t) (calls : list (string * string)) : t :=
  fold_left (fun c kv => snd (setParameter c (fst kv) (snd kv))) calls cp.

End CameraParameters.

(** ** Streams and the frame-size resolver *)

Definition UINT32_MAX : Z := 4294967295.

(** Modelled from the spec: [Stream] and its nested types are declared in
    [stream.h], which is not among the sources.  A frame size is a pair of
    [uint32_t]; a format owns the list of its frame sizes; a stream owns
    the list of its formats and an optional selected frame size (a pointer
    into its own lists in the source, the pointed-to value here). *)
Module Stream.
Record FrameSize := mkFrameSize { width : Z; height : Z }.

Record Format := mkFormat {
  pixel_format : Z;
  frame_sizes : list FrameSize
}.

Record t := mk {
  id : Z;
  is_streaming : bool;
  formats : list Format;
  sel_frame_size : option FrameSize
}.

Definition set_sel_frame_size (s : t) (sel : option FrameSize) : t :=
  mk (id s) (is_streaming s) (formats s) sel.

(** Every (format, frame size) pair in advertisement order. *)
Definition all_frame_sizes (s : t) : list FrameSize :=
  flat_map frame_sizes (formats s).

Definition uint32 (z : Z) : Prop := 0 <= z <= UINT32_MAX.

(** The members of a frame size are [uint32_t]. *)
Definition FrameSize_ok (fs : FrameSize) : Prop :=
  uint32 (width fs) /\ uint32 (height fs).
End Stream.

Module Resolver.
Import Stream.

(** The test of the [else if]: no candidate yet, or the frame size is
    under the ceiling and not below the candidate in either dimension. *)
Definition takes_over (w h : Z) (best : option FrameSize) (fs : FrameSize)
  : bool :=
  match best with
  | None => true
  | Some b =>
      (width fs <=? w) && (width fs >=? width b)
      && (height fs <=? h) && (height fs >=? height b)
  end.

(** The candidate after the loop body has seen one more frame size that
    is no exact match. *)
Definition step (w h : Z) (best : option FrameSize) (fs : FrameSize)
  : option FrameSize :=
  if takes_over w h best fs then Some fs else best.

(** The inner [for] over one format's frame sizes: [inl fs] is the
    [return &fs] of an exact match, [inr best] the candidate when the
    loop runs to its end. *)
Fixpoint scan_frame_sizes (w h : Z) (best : option FrameSize)
    (l : list FrameSize) : FrameSize + option FrameSize :=
  match l with
  | [] => inr best
  | fs :: tl =>
      if (width fs =? w) && (height fs =? h) then inl fs
      else if takes_over w h best fs then scan_frame_sizes w h (Some fs) tl
      else scan_frame_sizes w h best tl
  end.

(** The outer [for] over the formats. *)
Fixpoint scan_formats (w h : Z) (best : option FrameSize)
    (fmts : list Format) : option FrameSize :=
  match fmts with
  | [] => best
  | f :: tl =>
      match scan_frame_sizes w h best (frame_sizes f) with
      | inl fs => Some fs
      | inr best' => scan_formats w h best' tl
      end
  end.

(** [_find_best_frame_size(s, w, h)]; [None] is the null pointer. *)
Definition _find_best_frame_size (s : Stream.t) (w h : Z)
  : option FrameSize :=
  scan_formats w h None (formats s).

(** The orders the statements below speak of. *)
Definition lex_le (a b : FrameSize) : Prop :=
  width a < width b \/ (width a = width b /\ height a <= height b).

Definition dominates (a b : FrameSize) : Prop :=
  width b <= width a /\ height b <= height a.

Definition fits (w h : Z) (fs : FrameSize) : Prop :=
  width fs <= w /\ height fs <= h.

Definition exact (w h : Z) (fs : FrameSize) : Prop :=
  width fs = w /\ height fs = h.
End Resolver.

(** ** MAVLink constants and messages

    The values are those of the MAVLink common message set ([mavlink.h]). *)

Module Mavlink.
Definition MAV_COMP_ID_CAMERA : Z := 100.
Definition MAV_COMP_ID_CAMERA2 : Z := 101.
Definition MAV_COMP_ID_CAMERA3 : Z := 102.
Definition MAV_COMP_ID_CAMERA4 : Z := 103.
Definition MAV_COMP_ID_CAMERA5 : Z := 104.
Definition MAV_COMP_ID_CAMERA6 : Z := 105.

Definition MAV_RESULT_ACCEPTED : Z := 0.
Definition MAV_RESULT_FAILED : Z := 4.

Definition PARAM_ACK_ACCEPTED : Z := 0.
Definition PARAM_ACK_FAILED : Z := 2.

Definition MAV_CMD_REQUEST_CAMERA_INFORMATION : Z := 521.
Definition MAV_CMD_REQUEST_CAMERA_SETTINGS : Z := 522.
Definition MAV_CMD_REQUEST_STORAGE_INFORMATION : Z := 525.
Definition MAV_CMD_REQUEST_VIDEO_STREAM_INFORMATION : Z := 2504.

(** A [float] field: an IEEE 754 binary32 value in canonical form. *)
Definition float := spec_float.

(** [1.0f], [0.0f], [50.0f] and [128.0f]. *)
Definition float_1 : float := S754_finite false 8388608 (-23).
Definition float_0 : float := S754_zero false.
Definition float_50 : float := S754_finite false 13107200 (-18).
Definition float_128 : float := S754_finite false 8388608 (-16).

(** [x != 1] on a [float]; an unordered comparison (NaN) is unequal. *)
Definition float_ne_1 (x : float) : bool := negb (SFeqb x float_1).

(** Conversion of a [float] to [unsigned int]: truncation toward zero.
    [None] where the truncated value is not representable, for which the
    language leaves the conversion undefined. *)
Definition float_to_uint (x : float) : option Z :=
  match x with
  | S754_zero _ => Some 0
  | S754_finite s m e =>
      let mag := if 0 <=? e then Z.pos m * 2 ^ e else Z.pos m / 2 ^ (- e) in
      if mag =? 0 then Some 0
      else if s then None
      else if mag <=? UINT32_MAX then Some mag else None
  | S754_infinity _ | S754_nan => None
  end.

(** [strncpy(dst, src, n)] into a [char dst[n]] field, read back as the
    characters before the padding. *)
Definition strncpy (n : nat) (src : string) : string := substring 0 n src.

Record sockaddr_in := mk_sockaddr_in { sin_addr : Z; sin_port : Z }.

(** *** Decoded inbound messages (the fields the server reads, and the
    addressing fields) *)

Module command_long.
Record t := mk {
  target_system : Z;
  target_component : Z;
  command : Z;
  param1 : float;
  param2 : float
}.
End command_long.

Module set_video_stream_settings.
Record t := mk {
  target_system : Z;
  target_component : Z;
  camera_id : Z;
  resolution_h : Z;
  resolution_v : Z
}.
End set_video_stream_settings.

Module param_ext_request_read.
Record t := mk {
  target_system : Z;
  target_component : Z;
  param_id : string;
  param_index : Z
}.
End param_ext_request_read.

Module param_ext_request_list.
Record t := mk {
  target_system : Z;
  target_component : Z
}.
End param_ext_request_list.

Module param_ext_set.
Record t := mk {
  target_system : Z;
  target_component : Z;
  param_id : string;
  param_value : string;
  param_type : Z
}.
End param_ext_set.

(** [mavlink_message_t] after [mavlink_parse_char] has produced it, by
    [msgid]; [MSG_OTHER] is any message id the server has no case for. *)
Inductive mavlink_message_t :=
| MSG_COMMAND_LONG (cmd : command_long.t)
| MSG_SET_VIDEO_STREAM_SETTINGS (settings : set_video_stream_settings.t)
| MSG_PARAM_EXT_REQUEST_READ (param_ext_read : param_ext_request_read.t)
| MSG_PARAM_EXT_REQUEST_LIST (param_list : param_ext_request_list.t)
| MSG_PARAM_EXT_SET (param_set : param_ext_set.t)
| MSG_OTHER (msgid : Z).

(** The same message with another [target_system] field. *)
Definition with_target_system (target_system : Z) (msg : mavlink_message_t)
  : mavlink_message_t :=
  match msg with
  | MSG_COMMAND_LONG cmd =>
      MSG_COMMAND_LONG
        (command_long.mk target_system
           (command_long.target_component cmd) (command_long.command cmd)
           (command_long.param1 cmd) (command_long.param2 cmd))
  | MSG_SET_VIDEO_STREAM_SETTINGS settings =>
      MSG_SET_VIDEO_STREAM_SETTINGS
        (set_video_stream_settings.mk target_system
           (set_video_stream_settings.target_component settings)
           (set_video_stream_settings.camera_id settings)
           (set_video_stream_settings.resolution_h settings)
           (set_video_stream_settings.resolution_v settings))
  | MSG_PARAM_EXT_REQUEST_READ param_ext_read =>
      MSG_PARAM_EXT_REQUEST_READ
        (param_ext_request_read.mk target_system
           (param_ext_request_read.target_component param_ext_read)
           (param_ext_request_read.param_id param_ext_read)
           (param_ext_request_read.param_index param_ext_read))
  | MSG_PARAM_EXT_REQUEST_LIST param_list =>
      MSG_PARAM_EXT_REQUEST_LIST
        (param_ext_request_list.mk target_system
           (param_ext_request_list.target_component param_list))
  | MSG_PARAM_EXT_SET param_set =>
      MSG_PARAM_EXT_SET
        (param_ext_set.mk target_system
           (param_ext_set.target_component param_set)
           (param_ext_set.param_id param_set)
           (param_ext_set.param_value param_set)
           (param_ext_set.param_type param_set))
  | MSG_OTHER msgid => MSG_OTHER msgid
  end.

Definition is_command_long (msg : mavlink_message_t) : bool :=
  match msg with MSG_COMMAND_LONG _ => true | _ => false end.

(** The [target_component] field of the messages that have one. *)
Definition target_component_of (msg : mavlink_message_t) : option Z :=
  match msg with
  | MSG_COMMAND_LONG cmd => Some (command_long.target_component cmd)
  | MSG_SET_VIDEO_STREAM_SETTINGS settings =>
      Some (set_video_stream_settings.target_component settings)
  | MSG_PARAM_EXT_REQUEST_READ param_ext_read =>
      Some (param_ext_request_read.target_component param_ext_read)
  | MSG_PARAM_EXT_REQUEST_LIST param_list =>
      Some (param_ext_request_list.target_component param_list)
  | MSG_PARAM_EXT_SET param_set =>
      Some (param_ext_set.target_component param_set)
  | MSG_OTHER _ => None
  end.

(** *** Outbound messages *)

Record CameraInfo := mkCameraInfo {
  vendorName : string;
  modelName : string;
  firmware_version : Z;
  focal_length : float;
  sensor_size_h : float;
  sensor_size_v : float;
  resolution_h : Z;
  resolution_v : Z;
  lens_id : Z;
  flags : Z;
  cam_definition_version : Z;
  cam_definition_uri : string
}.

Record param_ext_value_t := mk_param_ext_value {
  pv_param_count : Z;
  pv_param_index : Z;
  pv_param_id : string;
  pv_param_value : string;
  pv_param_type : Z
}.

(** A field left as [None] was never written by the handler: the bytes
    sent for it are whatever the stack held. *)
Record param_ext_ack_t := mk_param_ext_ack {
  pa_param_id : string;
  pa_param_value : option string;
  pa_param_type : option Z;
  pa_param_result : Z
}.

Record storage_information_t := mk_storage_information {
  storage_id : Z;
  storage_count : Z;
  status : Z;
  total_capacity : float;
  used_capacity : float;
  available_capacity : float;
  read_speed : float;
  write_speed : float
}.

Record video_stream_information_t := mk_video_stream_information {
  vs_camera_id : Z;
  vs_status : bool;
  vs_framerate : Z;
  vs_resolution_h : Z;
  vs_resolution_v : Z;
  vs_bitrate : Z;
  vs_rotation : Z;
  vs_uri : string
}.

(** What the [_pack] and [_encode] calls build; the first two arguments
    are the sender's system and component id. *)
Inductive message :=
| COMMAND_ACK (sysid compid : Z) (command result progress : Z)
| CAMERA_INFORMATION (sysid compid : Z) (time_boot_ms : Z) (info : CameraInfo)
| CAMERA_SETTINGS (sysid compid : Z) (time_boot_ms mode_id : Z)
| STORAGE_INFORMATION (sysid compid : Z) (time_boot_ms : Z)
    (info : storage_information_t)
| VIDEO_STREAM_INFORMATION (sysid compid : Z)
    (info : video_stream_information_t)
| PARAM_EXT_VALUE (sysid compid : Z) (value : param_ext_value_t)
| PARAM_EXT_ACK (sysid compid : Z) (ack : param_ext_ack_t).

Definition is_command_ack (m : message) : bool :=
  match m with COMMAND_ACK _ _ _ _ _ => true | _ => false end.

Definition value_param_id (m : message) : option string :=
  match m with
  | PARAM_EXT_VALUE _ _ value => Some (pv_param_id value)
  | _ => None
  end.

Definition value_param_index (m : message) : option Z :=
  match m with
  | PARAM_EXT_VALUE _ _ value => Some (pv_param_index value)
  | _ => None
  end.

Definition is_param_ext_ack_failed (m : message) : bool :=
  match m with
  | PARAM_EXT_ACK _ _ ack => pa_param_result ack =? PARAM_ACK_FAILED
  | _ => false
  end.
End Mavlink.

(** ** The UDP socket wrapper

    An external collaborator.  [write] reports whether the datagram went
    out; the outcomes of the coming writes are part of the socket's state
    ([outcomes], oldest first; a write succeeds once they are used up), and
    every call is recorded in [written], oldest first. *)
Module UDPSocket.
Import Mavlink.

Record write_call := mk_write {
  dest : sockaddr_in;
  payload : message;
  delivered : bool
}.

Record t := mk {
  outcomes : list bool;
  written : list write_call
}.

(** The outcome of the next write. *)
Definition next_outcome (udp : t) : bool :=
  match outcomes udp with
  | [] => true
  | ok :: _ => ok
  end.

(** [_udp.write(buf, addr) > 0]. *)
Definition write (udp : t) (msg : message) (addr : sockaddr_in) : bool * t :=
  match outcomes udp with
  | [] => (true, mk [] (written udp ++ [mk_write addr msg true]))
  | ok :: rest => (ok, mk rest (written udp ++ [mk_write addr msg ok]))
  end.
End UDPSocket.

(** ** Camera components

    [CameraComponent *] values are addresses; [nullptr] is address 0. *)
Definition ptr := N.
Definition nullptr : ptr := 0%N.

(** The interface the server calls on a [CameraComponent *].  The class is
    not among the sources, so its methods are operations over a store [H]
    of device objects, indexed by the address of the object.
    - [getParam] gives the bytes written to the output buffer on success
      and [None] on failure (the buffer is then left as it was);
    - [setParam] returns its result and the store after the call. *)
Class CameraComponent (H : Type) := {
  getCameraInfo : H -> ptr -> Mavlink.CameraInfo;
  getParam : H -> ptr -> string -> option string;
  setParam : H -> ptr -> string -> string -> Z -> bool * H;
  getParamType : H -> ptr -> string -> Z;
  getParamList : H -> ptr -> StdMap.t (K := string) (V := string)
}.

(** ** The MAVLink server ([MavlinkServer]) *)

Module MavlinkServer.
Import Mavlink.

(** What running a handler comes to: it returns, leaving the server in a
    state, or it does something the language leaves undefined. *)
Inductive outcome (Srv : Type) :=
| Done (srv : Srv)
| Undefined.
Arguments Done {Srv} srv.
Arguments Undefined {Srv}.

Section Server.
Context {H : Type} `{CameraComponent H}.

(** [RTSPServer::get_rtsp_uri(addr, stream, query)], a collaborator. *)
Variable get_rtsp_uri : option string -> Stream.t -> string -> string.

(** The members of the class, and [devices], the objects the registered
    pointers point to. *)
Record t := mk {
  _streams : list Stream.t;
  _is_running : bool;
  _timeout_handler : Z;
  _broadcast_addr : sockaddr_in;
  _system_id : Z;
  _comp_id : Z;
  _rtsp_server_addr : option string;
  _udp : UDPSocket.t;
  compIdToObj : StdMap.t (K := Z) (V := ptr);
  devices : H
}.

Definition set_udp (srv : t) (udp : UDPSocket.t) : t :=
  mk (_streams srv) (_is_running srv) (_timeout_handler srv)
     (_broadcast_addr srv) (_system_id srv) (_comp_id srv)
     (_rtsp_server_addr srv) udp (compIdToObj srv) (devices srv).

Definition set_streams (srv : t) (streams : list Stream.t) : t :=
  mk streams (_is_running srv) (_timeout_handler srv)
     (_broadcast_addr srv) (_system_id srv) (_comp_id srv)
     (_rtsp_server_addr srv) (_udp srv) (compIdToObj srv) (devices srv).

Definition set_compIdToObj (srv : t) (m : StdMap.t (K := Z) (V := ptr)) : t :=
  mk (_streams srv) (_is_running srv) (_timeout_handler srv)
     (_broadcast_addr srv) (_system_id srv) (_comp_id srv)
     (_rtsp_server_addr srv) (_udp srv) m (devices srv).

Definition set_devices (srv : t) (h : H) : t :=
  mk (_streams srv) (_is_running srv) (_timeout_handler srv)
     (_broadcast_addr srv) (_system_id srv) (_comp_id srv)
     (_rtsp_server_addr srv) (_udp srv) (compIdToObj srv) h.

(** The messages handed to the socket so far, oldest first. *)
Definition outbound (srv : t) : list message :=
  map UDPSocket.payload (UDPSocket.written (_udp srv)).

(** [_send_mavlink_message(addr, msg)]: a null [addr] is the broadcast
    address.  The length [mavlink_msg_to_send_buffer] returns is never 0
    (a frame has a header and a checksum), so the result is that of the
    write. *)
Definition _send_mavlink_message (addr : option sockaddr_in) (msg : message)
    (srv : t) : bool * t :=
  let dest := match addr with
              | Some a => a
              | None => _broadcast_addr srv
              end in
  let (ok, udp) := UDPSocket.write (_udp srv) msg dest in
  (ok, set_udp srv udp).

Definition _send_ack (addr : sockaddr_in) (cmd comp_id : Z) (success : bool)
    (srv : t) : t :=
  let msg := COMMAND_ACK (_system_id srv) comp_id cmd
               (if success then MAV_RESULT_ACCEPTED else MAV_RESULT_FAILED)
               255 in
  snd (_send_mavlink_message (Some addr) msg srv).

(** *** The component registry *)

Definition getCameraComponent (srv : t) (compID : Z) : ptr :=
  if (compID <? MAV_COMP_ID_CAMERA) || (compID >? MAV_COMP_ID_CAMERA6)
  then nullptr
  else match StdMap.find compID (compIdToObj srv) with
       | Some p => p
       | None => nullptr
       end.

(** The [while] of [addCameraComponent]: the id reached and the map.
    [fuel] bounds the number of iterations. *)
Fixpoint addCameraComponent_loop (fuel : nat) (id : Z) (camComp : ptr)
    (m : StdMap.t (K := Z) (V := ptr)) : Z * StdMap.t (K := Z) (V := ptr) :=
  match fuel with
  | O => (id, m)
  | S fuel' =>
      if id <? MAV_COMP_ID_CAMERA6 + 1 then
        match StdMap.find id m with
        | None => (id, StdMap.insert id camComp m)
        | Some _ => addCameraComponent_loop fuel' (id + 1) camComp m
        end
      else (id, m)
  end.

(** [addCameraComponent(camComp)]: the returned id and the server.  The
    loop starts at [MAV_COMP_ID_CAMERA] and stops at
    [MAV_COMP_ID_CAMERA6 + 1], six iterations at most. *)
Definition addCameraComponent (camComp : ptr) (srv : t) : Z * t :=
  let (id, m) :=
    addCameraComponent_loop 6 MAV_COMP_ID_CAMERA camComp (compIdToObj srv) in
  (id, set_compIdToObj srv m).

(** The [for] of [removeCameraComponent]: erase the first entry, in
    iteration order, whose pointer is [camComp]. *)
Fixpoint erase_first (camComp : ptr) (m : StdMap.t (K := Z) (V := ptr))
  : StdMap.t (K := Z) (V := ptr) :=
  match m with
  | [] => []
  | (id, p) :: tl =>
      if N.eqb p camComp then tl else (id, p) :: erase_first camComp tl
  end.

Definition removeCameraComponent (camComp : ptr) (srv : t) : t :=
  if N.eqb camComp nullptr then srv
  else set_compIdToObj srv (erase_first camComp (compIdToObj srv)).

(** *** Command handlers *)

Definition _handle_request_camera_information (addr : sockaddr_in)
    (cmd : command_long.t) (srv : t) : t :=
  let command := command_long.command cmd in
  let target_component := command_long.target_component cmd in
  if float_ne_1 (command_long.param1 cmd) then
    _send_ack addr command target_component true srv
  else
    let tgtComp := getCameraComponent srv target_component in
    if negb (N.eqb tgtComp nullptr) then
      let camInfo := getCameraInfo (devices srv) tgtComp in
      let msg := CAMERA_INFORMATION (_system_id srv) target_component 0
                   camInfo in
      let (sent, srv') := _send_mavlink_message (Some addr) msg srv in
      if negb sent then srv'
      else _send_ack addr command target_component true srv'
    else _send_ack addr command target_component false srv.

Definition _handle_request_camera_settings (addr : sockaddr_in)
    (cmd : command_long.t) (srv : t) : t :=
  let command := command_long.command cmd in
  let target_component := command_long.target_component cmd in
  if float_ne_1 (command_long.param1 cmd) then
    _send_ack addr command target_component true srv
  else
    let tgtComp := getCameraComponent srv target_component in
    if negb (N.eqb tgtComp nullptr) then
      let msg := CAMERA_SETTINGS (_system_id srv) target_component 0 1 in
      let (sent, srv') := _send_mavlink_message (Some addr) msg srv in
      if negb sent then srv'
      else _send_ack addr command target_component true srv'
    else _send_ack addr command target_component false srv.

Definition _handle_request_storage_information (addr : sockaddr_in)
    (cmd : command_long.t) (srv : t) : t :=
  let command := command_long.command cmd in
  let target_component := command_long.target_component cmd in
  if float_ne_1 (command_long.param1 cmd) then
    _send_ack addr command target_component true srv
  else
    let tgtComp := getCameraComponent srv target_component in
    if negb (N.eqb tgtComp nullptr) then
      let msg := STORAGE_INFORMATION (_system_id srv) target_component 0
                   (mk_storage_information 1 1 2 float_50 float_0 float_50
                      float_128 float_128) in
      let (sent, srv') := _send_mavlink_message (Some addr) msg srv in
      if negb sent then srv'
      else _send_ack addr command target_component true srv'
    else _send_ack addr command target_component false srv.

(** *** Video streams *)

(** A [uint32_t] passed for [%d] is printed as the [int] with the same
    bits. *)
Definition as_int (z : Z) : Z :=
  if z <? 2147483648 then z else z - 4294967296.

Definition decimal (z : Z) : string :=
  DecimalString.NilZero.string_of_int (Z.to_int z).

(** The text of ["?width=%d&height=%d"]. *)
Definition query_text (fs : Stream.FrameSize) : string :=
  ("?width=" ++ decimal (as_int (Stream.width fs))
   ++ "&height=" ++ decimal (as_int (Stream.height fs)))%string.

(** [snprintf(query, sizeof(query), ...)] on [char query[35]] and the
    test on its result: [None] when the handler gives up
    ([ret > sizeof(query)]), otherwise the buffer's new contents (34
    characters at most are stored). *)
Definition snprintf_query (fs : Stream.FrameSize) : option string :=
  let text := query_text fs in
  if (Z.of_nat (String.length text) >? 35) then None
  else Some (substring 0 34 text).

(** The [for] of [_handle_camera_video_stream_request]; [query] is
    declared before the loop and keeps its contents from one stream to
    the next. *)
Fixpoint video_stream_loop (addr : sockaddr_in) (camera_id : Z)
    (streams : list Stream.t) (query : string) (srv : t) : outcome t :=
  match streams with
  | [] => Done srv
  | s :: tl =>
      if (camera_id =? 0) || (camera_id =? Stream.id s) then
        let fs := match Stream.sel_frame_size s with
                  | Some sel => Some sel
                  | None => Resolver._find_best_frame_size s UINT32_MAX
                              UINT32_MAX
                  end in
        let query' := match Stream.sel_frame_size s with
                      | Some sel => snprintf_query sel
                      | None => Some query
                      end in
        match query', fs with
        | None, _ => Done srv
        | Some q, None => Undefined  (* [fs->width] on a null [fs] *)
        | Some q, Some fs =>
            let msg := VIDEO_STREAM_INFORMATION (_system_id srv)
                         (_comp_id srv)
                         (mk_video_stream_information
                            (Stream.id s mod 256) (Stream.is_streaming s) 0
                            (Stream.width fs mod 65536)
                            (Stream.height fs mod 65536) 0 0
                            (get_rtsp_uri (_rtsp_server_addr srv) s q)) in
            let (sent, srv') := _send_mavlink_message (Some addr) msg srv in
            if negb sent then Done srv'
            else video_stream_loop addr camera_id tl q srv'
        end
      else video_stream_loop addr camera_id tl query srv
  end.

Definition _handle_camera_video_stream_request (addr : sockaddr_in)
    (command : Z) (camera_id action : Z) (srv : t) : outcome t :=
  if negb (action =? 1) then Done srv
  else video_stream_loop addr camera_id (_streams srv) "" srv.

(** The [for] of [_handle_camera_set_video_stream_settings]: the
    position of the last stream whose id is [camera_id]. *)
Fixpoint find_stream (camera_id : Z) (streams : list Stream.t) (pos : nat)
    (stream : option (nat * Stream.t)) : option (nat * Stream.t) :=
  match streams with
  | [] => stream
  | s :: tl =>
      find_stream camera_id tl (S pos)
        (if Stream.id s =? camera_id then Some (pos, s) else stream)
  end.

Fixpoint replace_nth (n : nat) (s : Stream.t) (l : list Stream.t)
  : list Stream.t :=
  match l, n with
  | [], _ => []
  | _ :: tl, O => s :: tl
  | x :: tl, S n' => x :: replace_nth n' s tl
  end.

Definition _handle_camera_set_video_stream_settings (addr : sockaddr_in)
    (settings : set_video_stream_settings.t) (srv : t) : t :=
  match find_stream (set_video_stream_settings.camera_id settings)
          (_streams srv) 0 None with
  | None => srv
  | Some (pos, stream) =>
      let resolution_h := set_video_stream_settings.resolution_h settings in
      let resolution_v := set_video_stream_settings.resolution_v settings in
      let sel :=
        if (resolution_h =? 0) || (resolution_v =? 0) then None
        else Resolver._find_best_frame_size stream resolution_h
               resolution_v in
      set_streams srv
        (replace_nth pos (Stream.set_sel_frame_size stream sel)
           (_streams srv))
  end.

(** *** Extended parameters *)

Definition _handle_param_ext_request_read (addr : sockaddr_in)
    (param_ext_read : param_ext_request_read.t) (srv : t) : t :=
  let target_component :=
    param_ext_request_read.target_component param_ext_read in
  let param_id := param_ext_request_read.param_id param_ext_read in
  let tgtComp := getCameraComponent srv target_component in
  if negb (N.eqb tgtComp nullptr) then
    let msg2 :=
      match getParam (devices srv) tgtComp param_id with
      | Some param_value =>
          let id := strncpy 16 param_id in
          PARAM_EXT_VALUE (_system_id srv) target_component
            (mk_param_ext_value 1 0 id param_value
               (getParamType (devices srv) tgtComp id mod 256))
      | None =>
          (* the type is looked up under [param_ext_value.param_id],
             which this branch never wrote *)
          PARAM_EXT_ACK (_system_id srv) target_component
            (mk_param_ext_ack (strncpy 16 param_id) None None
               PARAM_ACK_FAILED)
      end in
    snd (_send_mavlink_message (Some addr) msg2 srv)
  else srv.

(** The [for] of [_handle_param_ext_request_list]; a failed send is
    logged and the loop goes on. *)
Fixpoint param_list_loop (addr : sockaddr_in) (target_component : Z)
    (tgtComp : ptr) (param_count : Z) (idx : Z)
    (entries : list (string * string)) (srv : t) : t :=
  match entries with
  | [] => srv
  | x :: tl =>
      let id := strncpy 16 (fst x) in
      let value :=
        mk_param_ext_value param_count (idx mod 65536) id
          (strncpy 128 (snd x))
          (getParamType (devices srv) tgtComp id mod 256) in
      let msg2 := PARAM_EXT_VALUE (_system_id srv) target_component value in
      param_list_loop addr target_component tgtComp param_count (idx + 1)
        tl (snd (_send_mavlink_message (Some addr) msg2 srv))
  end.

Definition _handle_param_ext_request_list (addr : sockaddr_in)
    (param_list : param_ext_request_list.t) (srv : t) : t :=
  let target_component :=
    param_ext_request_list.target_component param_list in
  let tgtComp := getCameraComponent srv target_component in
  if negb (N.eqb tgtComp nullptr) then
    let paramIdtoValue := getParamList (devices srv) tgtComp in
    param_list_loop addr target_component tgtComp
      (StdMap.size paramIdtoValue mod 65536) 0 paramIdtoValue srv
  else srv.

Definition _handle_param_ext_set (addr : sockaddr_in)
    (param_set : param_ext_set.t) (srv : t) : t :=
  let target_component := param_ext_set.target_component param_set in
  let tgtComp := getCameraComponent srv target_component in
  if negb (N.eqb tgtComp nullptr) then
    let (ret, devs) :=
      setParam (devices srv) tgtComp (param_ext_set.param_id param_set)
        (param_ext_set.param_value param_set)
        (param_ext_set.param_type param_set) in
    let srv1 := set_devices srv devs in
    let id := strncpy 16 (param_ext_set.param_id param_set) in
    let ack :=
      if ret then
        mk_param_ext_ack id
          (Some (strncpy 128 (param_ext_set.param_value param_set)))
          (Some (param_ext_set.param_type param_set)) PARAM_ACK_ACCEPTED
      else
        mk_param_ext_ack id (getParam devs tgtComp id)
          (Some (param_ext_set.param_type param_set)) PARAM_ACK_FAILED in
    snd (_send_mavlink_message (Some addr)
           (PARAM_EXT_ACK (_system_id srv1) target_component ack) srv1)
  else srv.

(** *** Dispatch *)

Definition _handle_mavlink_message (addr : sockaddr_in)
    (msg : mavlink_message_t) (srv : t) : outcome t :=
  match msg with
  | MSG_COMMAND_LONG cmd =>
      let target_component := command_long.target_component cmd in
      let command := command_long.command cmd in
      if negb (command_long.target_system cmd =? _system_id srv)
         || (target_component <? MAV_COMP_ID_CAMERA)
         || (target_component >? MAV_COMP_ID_CAMERA6)
      then Done srv
      else if command =? MAV_CMD_REQUEST_CAMERA_INFORMATION then
        Done (_handle_request_camera_information addr cmd srv)
      else if command =? MAV_CMD_REQUEST_VIDEO_STREAM_INFORMATION then
        match float_to_uint (command_long.param1 cmd),
              float_to_uint (command_long.param2 cmd) with
        | Some camera_id, Some action =>
            _handle_camera_video_stream_request addr command camera_id
              action srv
        | _, _ => Undefined
        end
      else if command =? MAV_CMD_REQUEST_CAMERA_SETTINGS then
        Done (_handle_request_camera_settings addr cmd srv)
      else if command =? MAV_CMD_REQUEST_STORAGE_INFORMATION then
        Done (_handle_request_storage_information addr cmd srv)
      else Done srv
  | MSG_SET_VIDEO_STREAM_SETTINGS settings =>
      Done (_handle_camera_set_video_stream_settings addr settings srv)
  | MSG_PARAM_EXT_REQUEST_READ param_ext_read =>
      Done (_handle_param_ext_request_read addr param_ext_read srv)
  | MSG_PARAM_EXT_REQUEST_LIST param_list =>
      Done (_handle_param_ext_request_list addr param_list srv)
  | MSG_PARAM_EXT_SET param_set =>
      Done (_handle_param_ext_set addr param_set srv)
  | MSG_OTHER _ => Done srv
  end.

(** *** Notions the statements below use *)

(** The command is addressed to this system and to a camera component. *)
Definition passes_filter (srv : t) (cmd : command_long.t) : Prop :=
  command_long.target_system cmd = _system_id srv /\
  MAV_COMP_ID_CAMERA <= command_long.target_component cmd
    <= MAV_COMP_ID_CAMERA6.

(** A device is bound at the component id. *)
Definition bound (srv : t) (compID : Z) : Prop :=
  getCameraComponent srv compID <> nullptr.

(** What an information request hands to the socket, by the four ways
    through its handler. *)
Definition request_reply (srv : t) (cmd : command_long.t)
    (sent : list message) : Prop :=
  let target_component := command_long.target_component cmd in
  let ack result :=
    COMMAND_ACK (_system_id srv) target_component
      (command_long.command cmd) result 255 in
  let asked := float_ne_1 (command_long.param1 cmd) = false in
  let delivered := UDPSocket.next_outcome (_udp srv) = true in
  (~ asked -> sent = [ack MAV_RESULT_ACCEPTED]) /\
  (asked -> ~ bound srv target_component ->
   sent = [ack MAV_RESULT_FAILED]) /\
  (asked -> bound srv target_component -> delivered ->
   exists info,
     is_command_ack info = false /\ sent = [info; ack MAV_RESULT_ACCEPTED]) /\
  (asked -> bound srv target_component -> ~ delivered ->
   exists info, is_command_ack info = false /\ sent = [info]).

End Server.
End MavlinkServer.

(** ** A store-backed camera component

    Modelled from the spec: the class [CameraComponent] and its subclasses
    are not among the sources (only the declaration of
    [CameraComponent_V4L2] is).  Following the specification of the camera
    device, [getParam] reads the parameter store and fails when the name
    has no value; [setParam] checks the name and the declared type against
    the schema and then writes the store through [setParameter];
    [getParamType] delegates to the schema; [getParamList] is the map of
    current values.  The objects live in a store indexed by address. *)
Module StoreCamera.
Import Mavlink.

Record Device := mkDevice {
  camInfo : CameraInfo;
  mCamParam : CameraParameters.t
}.

Definition heap := ptr -> Device.

(** The wire code of a type tag ([MAV_PARAM_EXT_TYPE]). *)
Definition type_code (ty : CameraParameters.param_type) : Z :=
  match ty with
  | CameraParameters.PARAM_TYPE_UINT8 => 1
  | CameraParameters.PARAM_TYPE_UINT32 => 5
  | CameraParameters.PARAM_TYPE_INT32 => 6
  | CameraParameters.PARAM_TYPE_REAL32 => 9
  end.

Definition getParamType (h : heap) (p : ptr) (param_id : string) : Z :=
  match CameraParameters.getParameterType (mCamParam (h p)) param_id with
  | Some ty => type_code ty
  | None => -1
  end.

Definition getParam (h : heap) (p : ptr) (param_id : string)
  : option string :=
  StdMap.find param_id (CameraParameters.paramValue (mCamParam (h p))).

Definition setParam (h : heap) (p : ptr) (param_id param_value : string)
    (param_type : Z) : bool * heap :=
  if getParamType h p param_id =? param_type then
    let d := h p in
    let d' := mkDevice (camInfo d)
                (snd (CameraParameters.setParameter (mCamParam d) param_id
                        param_value)) in
    (true, fun q => if N.eqb q p then d' else h q)
  else (false, h).

#[global] Instance StoreCamera_ops : CameraComponent heap :=
  Build_CameraComponent
    (fun h p => camInfo (h p)) getParam setParam getParamType
    (fun h p => CameraParameters.paramValue (mCamParam (h p))).
End StoreCamera.

(** ** A bench: one server on which the statements are tried *)
Module Bench.
Import Mavlink.
Local Open Scope string_scope.

Definition get_rtsp_uri (addr : option string) (s : Stream.t)
    (query : string) : string :=
  "rtsp://" ++ match addr with Some a => a | None => "0.0.0.0" end
  ++ ":8554/stream" ++ query.

Definition info : CameraInfo :=
  mkCameraInfo "Intel" "X" 1 float_0 float_0 float_0 1920 1080 0 0 1 "".

(** Devices whose stores went through the given [setParameter] calls. *)
Definition devices_with (calls : list (string * string))
  : StoreCamera.heap :=
  fun _ =>
    StoreCamera.mkDevice info
      (CameraParameters.setParameters CameraParameters.CameraParameters
         calls).

Definition fresh_devices : StoreCamera.heap := devices_with [].

(** The address the datagrams of the ground station come from. *)
Definition gcs : sockaddr_in := mk_sockaddr_in 3232235777 14550.

Definition broadcast : sockaddr_in := mk_sockaddr_in 4294967295 14550.

(** A server with the default system id, no stream and no component. *)
Definition server (devs : StoreCamera.heap) (outcomes : list bool)
  : MavlinkServer.t :=
  MavlinkServer.mk [] false 0 broadcast 1 MAV_COMP_ID_CAMERA None
    (UDPSocket.mk outcomes []) StdMap.empty devs.

Definition empty_server : MavlinkServer.t := server fresh_devices [].

(** The devices at addresses 1 to [n] registered in turn. *)
Fixpoint add_cameras (n : nat) (srv : MavlinkServer.t (H := StoreCamera.heap))
  : MavlinkServer.t :=
  match n with
  | O => srv
  | S n' =>
      snd (MavlinkServer.addCameraComponent (N.of_nat n)
             (add_cameras n' srv))
  end.

(** A stream with one format advertising the given sizes. *)
Definition stream_of (sizes : list (Z * Z)) : Stream.t :=
  Stream.mk 1 false
    [Stream.mkFormat 0
       (map (fun wh => Stream.mkFrameSize (fst wh) (snd wh)) sizes)]
    None.

(** One camera (the device at address 1) at [MAV_COMP_ID_CAMERA]. *)
Definition one_camera (calls : list (string * string))
    (outcomes : list bool) : MavlinkServer.t :=
  add_cameras 1 (server (devices_with calls) outcomes).

(** Six cameras, the devices at addresses 1 to 6. *)
Definition six_cameras : MavlinkServer.t := add_cameras 6 empty_server.

(** A REQUEST_CAMERA_INFORMATION for the first camera of system 1. *)
Definition info_request (param1 : float) : command_long.t :=
  command_long.mk 1 MAV_COMP_ID_CAMERA MAV_CMD_REQUEST_CAMERA_INFORMATION
    param1 float_0.

(** Two values set in the order the schema lists the names. *)
Definition two_calls : list (string * string) :=
  [(CameraParameters.CAMERA_MODE, "1"); (CameraParameters.BRIGHTNESS, "56")].

Definition list_request : mavlink_message_t :=
  MSG_PARAM_EXT_REQUEST_LIST
    (param_ext_request_list.mk 1 MAV_COMP_ID_CAMERA).

Definition request (target_system target_component command : Z)
    (param1 : float) : mavlink_message_t :=
  MSG_COMMAND_LONG
    (command_long.mk target_system target_component command param1 float_0).
End Bench.

(** ** Further notions on messages and server states *)

Module Observe.
Import Mavlink.

Definition value_param_count (m : message) : option Z :=
  match m with
  | PARAM_EXT_VALUE _ _ value => Some (pv_param_count value)
  | _ => None
  end.

Definition is_param_ext_value (m : message) : bool :=
  match m with PARAM_EXT_VALUE _ _ _ => true | _ => false end.

Definition is_param_ext_ack (m : message) : bool :=
  match m with PARAM_EXT_ACK _ _ _ => true | _ => false end.

Definition is_video_stream_information (m : message) : bool :=
  match m with VIDEO_STREAM_INFORMATION _ _ _ => true | _ => false end.

(** The system id a message is sent under. *)
Definition sender_system (m : message) : Z :=
  match m with
  | COMMAND_ACK sysid _ _ _ _ | CAMERA_INFORMATION sysid _ _ _
  | CAMERA_SETTINGS sysid _ _ _ | STORAGE_INFORMATION sysid _ _ _
  | VIDEO_STREAM_INFORMATION sysid _ _ | PARAM_EXT_VALUE sysid _ _
  | PARAM_EXT_ACK sysid _ _ => sysid
  end.

Section States.
Context {H : Type}.
Implicit Types srv : MavlinkServer.t (H := H).

(** [srv'] is [srv] after some writes to the socket and nothing else: all
    the writes went to [addr], carried messages of the kind [P] sent under
    the server's system id, and came after what was written before. *)
Definition only_sends (addr : sockaddr_in) (P : message -> bool)
    srv srv' : Prop :=
  exists udp' new,
    srv' = MavlinkServer.set_udp srv udp' /\
    UDPSocket.written udp'
      = UDPSocket.written (MavlinkServer._udp srv) ++ new /\
    Forall (fun w => UDPSocket.dest w = addr /\
                     P (UDPSocket.payload w) = true /\
                     sender_system (UDPSocket.payload w)
                       = MavlinkServer._system_id srv) new.

(** A stream is addressed by a camera id of a
    REQUEST_VIDEO_STREAM_INFORMATION: id 0 addresses every stream. *)
Definition addressed (camera_id : Z) (s : Stream.t) : bool :=
  (camera_id =? 0) || (camera_id =? Stream.id s).

(** The VIDEO_STREAM_INFORMATION the server builds for a stream, given the
    frame size reported and the query put after the URI. *)
Definition stream_information
    (get_rtsp_uri : option string -> Stream.t -> string -> string)
    srv (s : Stream.t) (fs : Stream.FrameSize) (query : string) : message :=
  VIDEO_STREAM_INFORMATION (MavlinkServer._system_id srv)
    (MavlinkServer._comp_id srv)
    (mk_video_stream_information
       (Stream.id s mod 256) (Stream.is_streaming s) 0
       (Stream.width fs mod 65536) (Stream.height fs mod 65536) 0 0
       (get_rtsp_uri (MavlinkServer._rtsp_server_addr srv) s query)).
End States.

(** The kinds of message the handling of an inbound message can send. *)
Definition reply_kind (msg : mavlink_message_t) : message -> bool :=
  match msg with
  | MSG_COMMAND_LONG cmd =>
      let command := command_long.command cmd in
      if command =? MAV_CMD_REQUEST_VIDEO_STREAM_INFORMATION
      then is_video_stream_information
      else if (command =? MAV_CMD_REQUEST_CAMERA_INFORMATION)
              || (command =? MAV_CMD_REQUEST_CAMERA_SETTINGS)
              || (command =? MAV_CMD_REQUEST_STORAGE_INFORMATION)
      then fun _ => true
      else fun _ => false
  | MSG_SET_VIDEO_STREAM_SETTINGS _ => fun _ => false
  | MSG_PARAM_EXT_REQUEST_READ _ =>
      fun m => is_param_ext_value m || is_param_ext_ack m
  | MSG_PARAM_EXT_REQUEST_LIST _ => is_param_ext_value
  | MSG_PARAM_EXT_SET _ => is_param_ext_ack
  | MSG_OTHER _ => fun _ => false
  end.
End Observe.

(** ** Runs of registry calls *)

Module Registry.
Inductive call :=
| Add (camComp : ptr)
| Remove (camComp : ptr).

Section Run.
Context {H : Type}.

Definition apply (c : call) (srv : MavlinkServer.t (H := H))
  : MavlinkServer.t :=
  match c with
  | Add camComp => snd (MavlinkServer.addCameraComponent camComp srv)
  | Remove camComp => MavlinkServer.removeCameraComponent camComp srv
  end.

(** The calls made one after the other, oldest first. *)
Definition run (calls : list call) (srv : MavlinkServer.t (H := H))
  : MavlinkServer.t :=
  fold_left (fun s c => apply c s) calls srv.
End Run.
End Registry.

(** ** Construction and life cycle of the server *)

Module Lifecycle.
Import Mavlink.

Definition DEFAULT_MAVLINK_PORT : Z := 14550.
Definition DEFAULT_SYSID : Z := 1.
Definition DEFAULT_MAVLINK_BROADCAST_ADDR : string := "255.255.255.255".

(** The local [struct options] of the constructor after
    [conf.extract_options]: an option the file does not give is left at
    zero, null ([None]) or the empty string. *)
Record options := mk_options {
  port : Z;
  sysid : Z;
  compid : Z;
  rtsp_server_addr : option string;
  broadcast : string
}.

(** The main loop, a collaborator: [add_timeout] gives the handle of the
    new timer and the loop with it, [del_timeout] the loop without the
    timer of a handle. *)
Class Mainloop (L : Type) := {
  add_timeout : L -> Z -> Z * L;
  del_timeout : L -> Z -> L
}.

Section Lifecycle.
Context {H L : Type} `{Mainloop L}.

(** [htons] and [inet_addr] of the C library. *)
Variable htons : Z -> Z.
Variable inet_addr : string -> Z.

(** The constructor, given the extracted options, the streams, the socket
    as constructed and the device objects. *)
Definition MavlinkServer_new (opt : options) (streams : list Stream.t)
    (udp : UDPSocket.t) (devs : H) : MavlinkServer.t :=
  let sin_port :=
    if port opt =? 0 then htons DEFAULT_MAVLINK_PORT else htons (port opt) in
  let system_id :=
    if sysid opt =? 0 then DEFAULT_SYSID
    else if (sysid opt <=? 1) || (sysid opt >=? 255) then DEFAULT_SYSID
    else sysid opt in
  let comp_id :=
    if compid opt =? 0 then MAV_COMP_ID_CAMERA
    else if (compid opt <=? 1) || (compid opt >=? 255) then MAV_COMP_ID_CAMERA
    else compid opt in
  let sin_addr :=
    match broadcast opt with
    | EmptyString => inet_addr DEFAULT_MAVLINK_BROADCAST_ADDR
    | String _ _ => inet_addr (broadcast opt)
    end in
  MavlinkServer.mk streams false 0 (mk_sockaddr_in sin_addr sin_port)
    system_id comp_id (rtsp_server_addr opt) udp StdMap.empty devs.

(** The server in its process: the main loop it registers its timer with,
    and what [start] did to its socket. *)
Record process := mk_process {
  server : MavlinkServer.t (H := H);
  mainloop : L;
  udp_opened : bool;
  read_callback_set : bool
}.

Definition set_running (srv : MavlinkServer.t (H := H)) (running : bool)
    (handler : Z) : MavlinkServer.t :=
  MavlinkServer.mk (MavlinkServer._streams srv) running handler
    (MavlinkServer._broadcast_addr srv) (MavlinkServer._system_id srv)
    (MavlinkServer._comp_id srv) (MavlinkServer._rtsp_server_addr srv)
    (MavlinkServer._udp srv) (MavlinkServer.compIdToObj srv)
    (MavlinkServer.devices srv).

(** [start()]: nothing when running; otherwise the flag is set, the
    socket opened, the read callback installed and the heartbeat timer
    (1000 ms) registered, its handle kept in [_timeout_handler]. *)
Definition start (p : process) : process :=
  if MavlinkServer._is_running (server p) then p
  else
    let (handle, loop) := add_timeout (mainloop p) 1000 in
    mk_process (set_running (server p) true handle) loop true true.

(** [stop()]: nothing when not running; otherwise the flag is cleared and
    the timer deleted when its handle is positive.  The handle itself is
    kept, and the socket is not closed. *)
Definition stop (p : process) : process :=
  if negb (MavlinkServer._is_running (server p)) then p
  else
    let handler := MavlinkServer._timeout_handler (server p) in
    mk_process (set_running (server p) false handler)
      (if handler >? 0 then del_timeout (mainloop p) handler
       else mainloop p)
      (udp_opened p) (read_callback_set p).
End Lifecycle.
End Lifecycle.

(** ** More of the bench: streams, requests and a main loop *)

Module Bench2.
Import Mavlink.
Local Open Scope string_scope.

(** A stream of the given id advertising the given sizes in one format. *)
Definition camera (id : Z) (sizes : list (Z * Z))
    (sel : option Stream.FrameSize) : Stream.t :=
  Stream.mk id false
    [Stream.mkFormat 0
       (map (fun wh => Stream.mkFrameSize (fst wh) (snd wh)) sizes)]
    sel.

Definition three_sizes : list (Z * Z) :=
  [(640, 480); (1280, 720); (1920, 1080)].

(** A server with the given streams, no component, and a socket on which
    no write fails. *)
Definition streams_server (streams : list Stream.t) : MavlinkServer.t :=
  MavlinkServer.mk streams false 0 Bench.broadcast 1 MAV_COMP_ID_CAMERA None
    (UDPSocket.mk [] []) StdMap.empty Bench.fresh_devices.

(** REQUEST_VIDEO_STREAM_INFORMATION for camera 1, action 1. *)
Definition stream_request : command_long.t :=
  command_long.mk 1 MAV_COMP_ID_CAMERA
    MAV_CMD_REQUEST_VIDEO_STREAM_INFORMATION float_1 float_1.

Definition select (camera_id w h : Z) : set_video_stream_settings.t :=
  set_video_stream_settings.mk 1 MAV_COMP_ID_CAMERA camera_id w h.

Definition read_request (name : string) : param_ext_request_read.t :=
  param_ext_request_read.mk 1 MAV_COMP_ID_CAMERA name (-1).

Definition set_request (name value : string) (type : Z) : param_ext_set.t :=
  param_ext_set.mk 1 MAV_COMP_ID_CAMERA name value type.

(** A main loop for the bench: the handles of its timers, the newest
    first; a new timer gets the next handle from 1 on. *)
Definition FakeLoop := list Z.

#[global] Instance FakeLoop_ops : Lifecycle.Mainloop FakeLoop :=
  Lifecycle.Build_Mainloop
    (fun (l : FakeLoop) (ms : Z) =>
       let handle := Z.of_nat (List.length l) + 1 in (handle, handle :: l))
    (fun (l : FakeLoop) (handle : Z) =>
       filter (fun x => negb (Z.eqb x handle)) l).

Definition process0 : Lifecycle.process (L := FakeLoop) :=
  Lifecycle.mk_process Bench.empty_server [] false false.

Definition options0 : Lifecycle.options :=
  Lifecycle.mk_options 0 42 300 None "".
End Bench2.

(** * Properties *)

(** ** The key orders are lawful *)

Lemma Z_compare_eq (a b : Z) : (a ?= b) = Eq -> a = b.
Proof. apply Z.compare_eq. Qed.

Lemma Z_compare_lt_trans (a b c : Z) :
  (a ?= b) = Lt -> (b ?= c) = Lt -> (a ?= c) = Lt.
Proof. rewrite !Z.compare_lt_iff. lia. Qed.

#[global] Instance OrdKeyLaws_Z : @OrdKeyLaws Z OrdKey_Z.
Proof.
  constructor.
  - exact Z_compare_eq.
  - exact Z.compare_refl.
  - intros a b. apply Z.compare_antisym.
  - exact Z_compare_lt_trans.
Qed.

Lemma ascii_compare_refl (a : ascii) : Ascii.compare a a = Eq.
Proof. unfold Ascii.compare. apply N.compare_refl. Qed.

Lemma ascii_compare_lt_trans (a b c : ascii) :
  Ascii.compare a b = Lt -> Ascii.compare b c = Lt -> Ascii.compare a c = Lt.
Proof. unfold Ascii.compare. rewrite !N.compare_lt_iff. lia. Qed.

Lemma string_compare_refl (s : string) : String.compare s s = Eq.
Proof.
  induction s as [|c s IH]; simpl; [reflexivity|].
  now rewrite ascii_compare_refl.
Qed.

Lemma string_compare_lt_trans (a b c : string) :
  String.compare a b = Lt -> String.compare b c = Lt -> String.compare a c = Lt.
Proof.
  revert b c.
  induction a as [|x a IH]; intros [|y b] [|z c]; simpl; try congruence.
  destruct (Ascii.compare x y) eqn:Exy; try discriminate.
  - apply Ascii.compare_eq_iff in Exy; subst y.
    destruct (Ascii.compare x z); try congruence. eauto.
  - intros _.
    destruct (Ascii.compare y z) eqn:Eyz; try discriminate.
    + apply Ascii.compare_eq_iff in Eyz; subst z. now rewrite Exy.
    + intros _. now rewrite (ascii_compare_lt_trans _ _ _ Exy Eyz).
Qed.

#[global] Instance OrdKeyLaws_string : @OrdKeyLaws string OrdKey_string.
Proof.
  constructor.
  - exact String.compare_eq_iff.
  - exact string_compare_refl.
  - exact String.compare_antisym.
  - exact string_compare_lt_trans.
Qed.

(** ** Facts on [std::map] *)

Module StdMapFacts.
Import StdMap.
Section Facts.
Context {K V : Type} `{OrdKeyLaws K}.
Implicit Types (m : StdMap.t (K := K) (V := V)).

Lemma wf_empty : wf (@empty K V).
Proof. constructor. Qed.

Lemma find_insert_same k v m :
  find k (insert k v m) =
    match find k m with Some old => Some old | None => Some v end.
Proof.
  induction m as [|[k' v'] tl IH]; simpl.
  - now rewrite kcmp_refl.
  - destruct (kcmp k k') eqn:E; simpl.
    + now rewrite E.
    + now rewrite kcmp_refl.
    + now rewrite E.
Qed.

Lemma insert_present k v m old : find k m = Some old -> insert k v m = m.
Proof.
  induction m as [|[k' v'] tl IH]; simpl; [discriminate|].
  destruct (kcmp k k'); intros Hf; try discriminate; [reflexivity|].
  now rewrite IH.
Qed.

Lemma insert_absent_length k v m :
  find k m = None -> List.length (insert k v m) = S (List.length m).
Proof.
  induction m as [|[k' v'] tl IH]; simpl; [reflexivity|].
  destruct (kcmp k k'); intros Hf; try discriminate; simpl; [reflexivity|].
  now rewrite IH.
Qed.

Lemma insert_absent_neq k v m : find k m = None -> insert k v m <> m.
Proof.
  intros Hf Heq. apply (insert_absent_length k v) in Hf.
  rewrite Heq in Hf. lia.
Qed.

Lemma keys_insert_In k v m x :
  In x (keys (insert k v m)) -> x = k \/ In x (keys m).
Proof.
  unfold keys.
  induction m as [|[k' v'] tl IH]; simpl.
  - intros [<-|[]]; auto.
  - destruct (kcmp k k'); simpl; intros Hin.
    + destruct Hin; auto.
    + destruct Hin as [<-|[<-|Hin]]; auto.
    + destruct Hin as [<-|Hin]; auto.
      destruct (IH Hin); auto.
Qed.

Lemma wf_insert k v m : wf m -> wf (insert k v m).
Proof.
  unfold wf.
  induction m as [|[k' v'] tl IH]; simpl; intros Hwf.
  - repeat constructor.
  - destruct (kcmp k k') eqn:E; simpl.
    + exact Hwf.
    + constructor; [exact Hwf|].
      constructor; [exact E|].
      apply StronglySorted_inv in Hwf. destruct Hwf as [_ Hall].
      rewrite Forall_forall in *. intros x Hx.
      eapply kcmp_lt_trans; [exact E|]. now apply Hall.
    + pose proof (StronglySorted_inv Hwf) as [Htl Hall].
      constructor; [now apply IH|].
      rewrite Forall_forall in *. intros x Hx.
      apply keys_insert_In in Hx. destruct Hx as [->|Hx].
      * unfold key_lt. rewrite kcmp_antisym, E. reflexivity.
      * now apply Hall.
Qed.

(** In a well-formed map the order-directed search finds exactly the
    entries of the list. *)
Lemma find_In k v m : wf m -> In (k, v) m -> find k m = Some v.
Proof.
  unfold wf.
  induction m as [|[k' v'] tl IH]; simpl; intros Hwf Hin; [tauto|].
  pose proof (StronglySorted_inv Hwf) as [Htl Hall].
  destruct Hin as [Heq|Hin].
  - inversion Heq; subst. now rewrite kcmp_refl.
  - assert (Hlt : key_lt k' k).
    { rewrite Forall_forall in Hall. apply Hall.
      unfold keys. change k with (fst (k, v)). now apply in_map. }
    unfold key_lt in Hlt. rewrite kcmp_antisym, Hlt. simpl. now apply IH.
Qed.

Lemma find_Some_In k v m : find k m = Some v -> In (k, v) m.
Proof.
  induction m as [|[k' v'] tl IH]; simpl; [discriminate|].
  destruct (kcmp k k') eqn:E; intros Hf; try discriminate.
  - inversion Hf; subst. apply kcmp_eq in E. subst. now left.
  - right. now apply IH.
Qed.
End Facts.
End StdMapFacts.

(** ** The parameter store *)

Module CameraParametersFacts.
Import CameraParameters StdMapFacts.
Local Open Scope string_scope.

Lemma setParameter_returns_1 cp key value :
  fst (setParameter cp key value) = 1.
Proof. reflexivity. Qed.

(** What a read sees after a write: the value written only when the name
    had none; otherwise the value the name already had. *)
Lemma getParameter_setParameter cp key value :
  getParameter (snd (setParameter cp key value)) key =
    match StdMap.find key (paramValue cp) with
    | Some old => old
    | None => value
    end.
Proof.
  unfold getParameter, setParameter, get, set; simpl.
  rewrite find_insert_same.
  now destruct (StdMap.find key (paramValue cp)).
Qed.

Lemma setParameter_present cp key value old :
  StdMap.find key (paramValue cp) = Some old ->
  paramValue (snd (setParameter cp key value)) = paramValue cp.
Proof. intros Hf. simpl. unfold set. erewrite insert_present; eauto. Qed.

Lemma setParameter_absent cp key value :
  StdMap.find key (paramValue cp) = None ->
  paramValue (snd (setParameter cp key value)) <> paramValue cp.
Proof. intros Hf. simpl. unfold set. now apply insert_absent_neq. Qed.

Lemma setParameter_wf cp key value :
  StdMap.wf (paramValue cp) ->
  StdMap.wf (paramValue (snd (setParameter cp key value))).
Proof. intros Hwf. simpl. unfold set. now apply wf_insert. Qed.

Lemma setParameters_wf calls : forall cp,
  StdMap.wf (paramValue cp) ->
  StdMap.wf (paramValue (setParameters cp calls)).
Proof.
  unfold setParameters.
  induction calls as [|kv calls IH]; intros cp Hwf; simpl; [exact Hwf|].
  apply IH. now apply (setParameter_wf cp).
Qed.

Lemma fold_set_wf {V : Type} (calls : list (string * V)) : forall pMap,
  StdMap.wf pMap ->
  StdMap.wf (fold_left (fun m call => set m (fst call) (snd call)) calls pMap).
Proof.
  induction calls as [|kv calls IH]; intros pMap Hwf; simpl; [exact Hwf|].
  apply IH. unfold set. now apply wf_insert.
Qed.

Lemma schema_wf : StdMap.wf (paramIdType CameraParameters).
Proof. apply fold_set_wf. apply wf_empty. Qed.

Lemma fresh_store_wf : StdMap.wf (paramValue CameraParameters).
Proof. apply wf_empty. Qed.

(** C1: a value set for a name that already has one is not stored.  On a
    fresh store, after [setParameter("brightness", "64")], the call
    [setParameter("brightness", "128")] returns 1 and
    [getParameter("brightness")] is still ["64"]: the round trip
    set-then-get does not give back the value set. *)
Theorem setParameter_twice_keeps_first :
  let cp := snd (setParameter CameraParameters BRIGHTNESS "64") in
  getParameter cp BRIGHTNESS = "64" /\
  fst (setParameter cp BRIGHTNESS "128") = 1 /\
  getParameter (snd (setParameter cp BRIGHTNESS "128")) BRIGHTNESS = "64" /\
  getParameter (snd (setParameter cp BRIGHTNESS "128")) BRIGHTNESS <> "128".
Proof. repeat split; try reflexivity. discriminate. Qed.

(** C5, as stated, fails: ["hue"] has schema type INT32; [setParameter]
    takes no declared type at all, so a value meant as a UINT8 is
    written like any other: the call returns 1 and the map of current
    values changes. *)
Lemma setParameter_ignores_type :
  getParameterType CameraParameters HUE = Some PARAM_TYPE_INT32 /\
  PARAM_TYPE_UINT8 <> PARAM_TYPE_INT32 /\
  fst (setParameter CameraParameters HUE "200") = 1 /\
  getParameter (snd (setParameter CameraParameters HUE "200")) HUE = "200" /\
  paramValue (snd (setParameter CameraParameters HUE "200"))
    <> paramValue CameraParameters.
Proof. repeat split; try reflexivity; discriminate. Qed.

(** C5, amended: [setParameter] checks no type.  For every name and
    every value it returns 1, never an error; and when the name has no
    value yet, the value is stored as given and the map of current
    values changes. *)
Theorem setParameter_no_type_check cp key value :
  fst (setParameter cp key value) = 1 /\
  (StdMap.find key (paramValue cp) = None ->
   getParameter (snd (setParameter cp key value)) key = value /\
   paramValue (snd (setParameter cp key value)) <> paramValue cp).
Proof.
  split; [reflexivity|]. intros Hf. split.
  - rewrite getParameter_setParameter. now rewrite Hf.
  - now apply setParameter_absent.
Qed.

Lemma setParameter_no_type_check_witness :
  fst (setParameter CameraParameters HUE "200") = 1 /\
  getParameter (snd (setParameter CameraParameters HUE "200")) HUE = "200" /\
  paramValue (snd (setParameter CameraParameters HUE "200"))
    <> paramValue CameraParameters.
Proof.
  destruct (setParameter_no_type_check CameraParameters HUE "200")
    as [Hret Hstore].
  split; [exact Hret|]. apply Hstore. reflexivity.
Defined.

End CameraParametersFacts.

(** ** The frame-size resolver *)

Module ResolverFacts.
Import Stream Resolver.

Lemma FrameSize_eq (a b : FrameSize) :
  width a = width b -> height a = height b -> a = b.
Proof. destruct a, b; simpl; intros -> ->; reflexivity. Qed.

Lemma dominates_antisym a b : dominates a b -> dominates b a -> a = b.
Proof. unfold dominates. intros [] []. apply FrameSize_eq; lia. Qed.

Lemma dominates_trans a b c : dominates a b -> dominates b c -> dominates a c.
Proof. unfold dominates. lia. Qed.

Lemma dominates_lex_le a b : dominates a b -> lex_le b a.
Proof. unfold dominates, lex_le. lia. Qed.

Lemma exact_dec w h fs :
  (width fs =? w) && (height fs =? h) = true <-> exact w h fs.
Proof. unfold exact. rewrite andb_true_iff, !Z.eqb_eq. tauto. Qed.

Lemma takes_over_Some w h b fs :
  takes_over w h (Some b) fs = true <-> fits w h fs /\ dominates fs b.
Proof.
  unfold takes_over, fits, dominates.
  rewrite !andb_true_iff, !Z.leb_le, !Z.geb_le. tauto.
Qed.

(** The two loops scan the concatenation of the formats' lists. *)
Lemma scan_frame_sizes_app w h l1 : forall best l2,
  scan_frame_sizes w h best (l1 ++ l2) =
    match scan_frame_sizes w h best l1 with
    | inl fs => inl fs
    | inr best' => scan_frame_sizes w h best' l2
    end.
Proof.
  induction l1 as [|fs l1 IH]; intros best l2; simpl; [reflexivity|].
  destruct ((width fs =? w) && (height fs =? h)); [reflexivity|].
  destruct (takes_over w h best fs); apply IH.
Qed.

Lemma scan_formats_flat w h fmts : forall best,
  scan_formats w h best fmts =
    match scan_frame_sizes w h best (flat_map frame_sizes fmts) with
    | inl fs => Some fs
    | inr best' => best'
    end.
Proof.
  induction fmts as [|f fmts IH]; intros best; simpl; [reflexivity|].
  rewrite scan_frame_sizes_app.
  destruct (scan_frame_sizes w h best (frame_sizes f)); [reflexivity|].
  apply IH.
Qed.

Lemma find_best_flat s w h :
  _find_best_frame_size s w h =
    match scan_frame_sizes w h None (all_frame_sizes s) with
    | inl fs => Some fs
    | inr best => best
    end.
Proof. apply scan_formats_flat. Qed.

(** An early return gives an advertised exact match. *)
Lemma scan_inl w h l : forall best fs,
  scan_frame_sizes w h best l = inl fs -> In fs l /\ exact w h fs.
Proof.
  induction l as [|x l IH]; intros best fs; simpl; [discriminate|].
  destruct ((width x =? w) && (height x =? h)) eqn:E.
  - intros [= <-]. split; [now left|now apply exact_dec].
  - destruct (takes_over w h best x); intros Hs;
      apply IH in Hs; destruct Hs; auto.
Qed.

(** Without an exact match the loop folds [step] over the list. *)
Lemma scan_no_exact w h l : forall best,
  Forall (fun fs => ~ exact w h fs) l ->
  scan_frame_sizes w h best l = inr (fold_left (step w h) l best).
Proof.
  induction l as [|x l IH]; intros best Hall; simpl; [reflexivity|].
  inversion Hall as [|? ? Hx Hl]; subst.
  destruct ((width x =? w) && (height x =? h)) eqn:E.
  - apply exact_dec in E. contradiction.
  - unfold step at 2. destruct (takes_over w h best x); now apply IH.
Qed.

(** With an exact match in the list, the loop returns early. *)
Lemma scan_exact w h l : forall best,
  Exists (exact w h) l ->
  exists fs, scan_frame_sizes w h best l = inl fs.
Proof.
  induction l as [|x l IH]; intros best Hex; simpl.
  - inversion Hex.
  - destruct ((width x =? w) && (height x =? h)) eqn:E; [eauto|].
    inversion Hex as [? ? Hx|? ? Hl]; subst.
    + apply exact_dec in Hx. congruence.
    + destruct (takes_over w h best x); now apply IH.
Qed.

(** A candidate under the ceiling is only replaced by frame sizes under
    the ceiling that dominate it, so the last candidate is under the
    ceiling and no frame size under the ceiling dominates it. *)
Lemma fold_step_fitting w h l : forall b,
  fits w h b ->
  exists r,
    fold_left (step w h) l (Some b) = Some r /\
    (r = b \/ In r l) /\ fits w h r /\ dominates r b /\
    (forall x, In x l -> fits w h x -> dominates x r -> x = r).
Proof.
  induction l as [|x l IH]; intros b Hb; simpl.
  - exists b. split; [reflexivity|]. split; [now left|].
    split; [exact Hb|]. split; [unfold dominates; lia|].
    intros x [].
  - unfold step at 2. destruct (takes_over w h (Some b) x) eqn:E.
    + apply takes_over_Some in E. destruct E as [Hx Hxb].
      destruct (IH x Hx) as (r & Hr & Hin & Hfit & Hdom & Hmax).
      exists r. split; [exact Hr|]. repeat split.
      * destruct Hin as [->|Hin]; [right; now left|right; now right].
      * apply Hfit.
      * apply Hfit.
      * apply (dominates_trans Hdom Hxb).
      * apply (dominates_trans Hdom Hxb).
      * intros y [<-|Hy] Hyfit Hyr.
        -- now apply dominates_antisym.
        -- now apply Hmax.
    + destruct (IH b Hb) as (r & Hr & Hin & Hfit & Hdom & Hmax).
      exists r. split; [exact Hr|]. repeat split.
      * destruct Hin as [->|Hin]; [now left|right; now right].
      * apply Hfit.
      * apply Hfit.
      * apply Hdom.
      * apply Hdom.
      * intros y [<-|Hy] Hyfit Hyr.
        -- assert (Hc : takes_over w h (Some b) x = true).
           { apply takes_over_Some. split; [exact Hyfit|].
             apply (dominates_trans Hyr Hdom). }
           congruence.
        -- now apply Hmax.
Qed.

(** Frame sizes over the ceiling never replace a candidate. *)
Lemma fold_step_none_fits w h l : forall b,
  Forall (fun fs => ~ fits w h fs) l ->
  fold_left (step w h) l (Some b) = Some b.
Proof.
  induction l as [|x l IH]; intros b Hall; simpl; [reflexivity|].
  inversion Hall as [|? ? Hx Hl]; subst.
  unfold step at 2. destruct (takes_over w h (Some b) x) eqn:E.
  - apply takes_over_Some in E. tauto.
  - now apply IH.
Qed.

Lemma scan_inr w h l : forall best best',
  scan_frame_sizes w h best l = inr best' ->
  best' = fold_left (step w h) l best.
Proof.
  induction l as [|x l IH]; intros best best'; simpl.
  - now intros [= <-].
  - destruct ((width x =? w) && (height x =? h)); [discriminate|].
    unfold step at 2. destruct (takes_over w h best x); apply IH.
Qed.

Lemma ok_fits_max fs : FrameSize_ok fs -> fits UINT32_MAX UINT32_MAX fs.
Proof. unfold FrameSize_ok, uint32, fits. lia. Qed.

Lemma exact_max_dominates fs x :
  exact UINT32_MAX UINT32_MAX fs -> FrameSize_ok x -> dominates fs x.
Proof. unfold exact, FrameSize_ok, uint32, dominates. lia. Qed.

(** At the ceiling [(UINT32_MAX, UINT32_MAX)]: the result is advertised
    and no advertised frame size dominates it. *)
Lemma at_max_maximal (s : Stream.t) :
  Forall FrameSize_ok (all_frame_sizes s) ->
  all_frame_sizes s <> [] ->
  exists r,
    _find_best_frame_size s UINT32_MAX UINT32_MAX = Some r /\
    In r (all_frame_sizes s) /\
    (forall x, In x (all_frame_sizes s) -> dominates x r -> x = r).
Proof.
  intros Hok Hne. rewrite find_best_flat.
  rewrite Forall_forall in Hok.
  destruct (scan_frame_sizes UINT32_MAX UINT32_MAX None (all_frame_sizes s))
    as [fs|best] eqn:E.
  - apply scan_inl in E. destruct E as [Hin Hex].
    exists fs. repeat split; auto.
    intros x Hx Hdom. apply dominates_antisym; [exact Hdom|].
    apply exact_max_dominates; auto.
  - apply scan_inr in E.
    destruct (all_frame_sizes s) as [|first rest] eqn:El; [congruence|].
    simpl in E. unfold step at 2 in E. simpl in E.
    destruct (fold_step_fitting (w := UINT32_MAX) (h := UINT32_MAX) rest
                (b := first))
      as (r & Hr & Hin & Hfit & Hdom & Hmax).
    { apply ok_fits_max, Hok. now left. }
    exists r. rewrite E, Hr. split; [reflexivity|]. split.
    + destruct Hin as [->|Hin]; [now left|now right].
    + intros x [<-|Hx] Hxr.
      * now apply dominates_antisym.
      * apply Hmax; auto. apply ok_fits_max, Hok. now right.
Qed.

(** C3, as stated, fails: with the sizes 640x480 and 800x400 advertised
    in this order, the resolver called with [(UINT32_MAX, UINT32_MAX)]
    returns 640x480, which is not the lexicographically greatest size
    (800x400 is); with the two sizes advertised in the other order it
    returns 800x400, so the result depends on the order. *)
Lemma at_max_not_lex_greatest :
  let s := Bench.stream_of [(640, 480); (800, 400)] in
  let s' := Bench.stream_of [(800, 400); (640, 480)] in
  _find_best_frame_size s UINT32_MAX UINT32_MAX
    = Some (mkFrameSize 640 480) /\
  In (mkFrameSize 800 400) (all_frame_sizes s) /\
  ~ lex_le (mkFrameSize 800 400) (mkFrameSize 640 480) /\
  ~ (forall x, In x (all_frame_sizes s) -> lex_le x (mkFrameSize 640 480)) /\
  Permutation (all_frame_sizes s) (all_frame_sizes s') /\
  _find_best_frame_size s' UINT32_MAX UINT32_MAX
    = Some (mkFrameSize 800 400).
Proof.
  split; [reflexivity|].
  split; [simpl; right; now left|].
  split; [unfold lex_le; simpl; lia|].
  split.
  { intros Hall. specialize (Hall (mkFrameSize 800 400)).
    unfold lex_le in Hall. simpl in Hall.
    assert (Hin : mkFrameSize 640 480 = mkFrameSize 800 400
                  \/ mkFrameSize 800 400 = mkFrameSize 800 400 \/ False)
      by (right; now left).
    specialize (Hall Hin). lia. }
  split; [simpl; apply perm_swap|reflexivity].
Qed.

(** C3, amended: for every stream with at least one advertised pair, the
    resolver called with [w = h = UINT32_MAX] returns an advertised frame
    size that no other advertised frame size dominates (none is at least
    as wide and at least as high).  When one advertised frame size
    dominates all of them, that one is returned; it is then the
    lexicographically greatest, and it is returned for every
    advertisement order of the pairs. *)
Theorem find_best_at_max (s : Stream.t) :
  Forall FrameSize_ok (all_frame_sizes s) ->
  all_frame_sizes s <> [] ->
  exists r,
    _find_best_frame_size s UINT32_MAX UINT32_MAX = Some r /\
    In r (all_frame_sizes s) /\
    (forall x, In x (all_frame_sizes s) -> dominates x r -> x = r) /\
    (forall m,
       In m (all_frame_sizes s) ->
       (forall x, In x (all_frame_sizes s) -> dominates m x) ->
       r = m /\
       (forall x, In x (all_frame_sizes s) -> lex_le x m) /\
       (forall s',
          Permutation (all_frame_sizes s) (all_frame_sizes s') ->
          _find_best_frame_size s' UINT32_MAX UINT32_MAX = Some m)).
Proof.
  intros Hok Hne.
  destruct (at_max_maximal s Hok Hne) as (r & Hr & Hin & Hmax).
  exists r. split; [exact Hr|]. split; [exact Hin|]. split; [exact Hmax|].
  intros m Hm Hdom. split; [|split].
  - symmetry. apply Hmax; [exact Hm|]. now apply Hdom.
  - intros x Hx. apply dominates_lex_le. now apply Hdom.
  - intros s' Hperm.
    assert (Hok' : Forall FrameSize_ok (all_frame_sizes s')).
    { rewrite Forall_forall in *. intros x Hx. apply Hok.
      apply Permutation_in with (l := all_frame_sizes s'); [|exact Hx].
      now apply Permutation_sym. }
    assert (Hne' : all_frame_sizes s' <> []).
    { intros E. rewrite E in Hperm. apply Permutation_sym in Hperm.
      apply Permutation_nil in Hperm. contradiction. }
    destruct (at_max_maximal s' Hok' Hne') as (r' & Hr' & Hin' & Hmax').
    rewrite Hr'. f_equal. symmetry. apply Hmax'.
    + now apply Permutation_in with (l := all_frame_sizes s).
    + apply Hdom. apply Permutation_in with (l := all_frame_sizes s'); auto.
      now apply Permutation_sym.
Qed.

Lemma find_best_at_max_witness :
  _find_best_frame_size
    (Bench.stream_of [(640, 480); (1920, 1080); (1280, 720)])
    UINT32_MAX UINT32_MAX = Some (mkFrameSize 1920 1080).
Proof.
  pose (s := Bench.stream_of [(640, 480); (1920, 1080); (1280, 720)]).
  assert (Hok : Forall FrameSize_ok (all_frame_sizes s)).
  { repeat constructor; simpl; unfold UINT32_MAX; lia. }
  assert (Hne : all_frame_sizes s <> []) by discriminate.
  destruct (find_best_at_max s Hok Hne) as (r & Hr & _ & _ & Hdom).
  destruct (Hdom (mkFrameSize 1920 1080)) as [Heq _].
  - simpl. right. now left.
  - intros x Hx. simpl in Hx. unfold dominates.
    destruct Hx as [<-|[<-|[<-|[]]]]; simpl; lia.
  - fold s. rewrite Hr. now f_equal.
Defined.

(** C4, as stated, fails twice.  With 640x480 and 1280x720 advertised in
    this order and the request 100x100, no pair matches and no pair is
    under the ceiling: the resolver returns 640x480, the first pair
    examined, not the last one.  With 1920x1080 and 640x480 advertised
    in this order and the request 1000x1000, it returns 1920x1080, which
    is not under the ceiling, although 640x480 is. *)
Lemma fallback_not_last :
  let s := Bench.stream_of [(640, 480); (1280, 720)] in
  let s' := Bench.stream_of [(1920, 1080); (640, 480)] in
  Forall (fun fs => ~ exact 100 100 fs) (all_frame_sizes s) /\
  Forall (fun fs => ~ fits 100 100 fs) (all_frame_sizes s) /\
  _find_best_frame_size s 100 100 = Some (mkFrameSize 640 480) /\
  hd_error (all_frame_sizes s) = Some (mkFrameSize 640 480) /\
  last (all_frame_sizes s) (mkFrameSize 0 0) = mkFrameSize 1280 720 /\
  _find_best_frame_size s 100 100
    <> Some (last (all_frame_sizes s) (mkFrameSize 0 0)) /\
  Forall (fun fs => ~ exact 1000 1000 fs) (all_frame_sizes s') /\
  _find_best_frame_size s' 1000 1000 = Some (mkFrameSize 1920 1080) /\
  ~ fits 1000 1000 (mkFrameSize 1920 1080) /\
  In (mkFrameSize 640 480) (all_frame_sizes s') /\
  fits 1000 1000 (mkFrameSize 640 480).
Proof.
  unfold exact, fits. simpl.
  split; [repeat constructor; simpl; lia|].
  split; [repeat constructor; simpl; lia|].
  split; [reflexivity|]. split; [reflexivity|]. split; [reflexivity|].
  split; [discriminate|].
  split; [repeat constructor; simpl; lia|].
  split; [reflexivity|].
  split; [lia|]. split; [right; now left|lia].
Qed.

(** C4, amended: for every stream and every request [(w, h)] with no
    exactly matching advertised pair, the resolver returns the first pair
    examined when no advertised pair is under the [(w, h)] ceiling; and
    when the first pair examined is under the ceiling, it returns a pair
    under the ceiling that no other pair under the ceiling dominates,
    which is the lexicographically largest pair under the ceiling
    whenever one pair under the ceiling dominates all of them. *)
Theorem find_best_fallback (s : Stream.t) (w h : Z) first rest :
  all_frame_sizes s = first :: rest ->
  Forall (fun fs => ~ exact w h fs) (all_frame_sizes s) ->
  (Forall (fun fs => ~ fits w h fs) (all_frame_sizes s) ->
   _find_best_frame_size s w h = Some first) /\
  (fits w h first ->
   exists r,
     _find_best_frame_size s w h = Some r /\
     In r (all_frame_sizes s) /\ fits w h r /\
     (forall x, In x (all_frame_sizes s) -> fits w h x ->
                dominates x r -> x = r) /\
     (forall m,
        In m (all_frame_sizes s) -> fits w h m ->
        (forall x, In x (all_frame_sizes s) -> fits w h x ->
                   dominates m x) ->
        r = m /\
        (forall x, In x (all_frame_sizes s) -> fits w h x -> lex_le x m))).
Proof.
  intros El Hnex. rewrite find_best_flat.
  rewrite (scan_no_exact None Hnex). rewrite El. simpl.
  unfold step at 2; simpl. split.
  - intros Hnone.
    inversion Hnone; subst. now apply fold_step_none_fits.
  - intros Hfirst.
    destruct (fold_step_fitting rest Hfirst)
      as (r & Hr & Hin & Hfit & Hdom & Hmax).
    assert (Hin' : first = r \/ In r rest).
    { destruct Hin as [->|Hin]; [now left|now right]. }
    assert (Hmax' : forall x, first = x \/ In x rest -> fits w h x ->
                              dominates x r -> x = r).
    { intros x [<-|Hx] Hxfit Hxr.
      - now apply dominates_antisym.
      - now apply Hmax. }
    exists r. split; [exact Hr|]. split; [exact Hin'|].
    split; [exact Hfit|]. split; [exact Hmax'|].
    intros m Hm Hmfit Hmdom. split.
    + symmetry. apply Hmax'; [exact Hm|exact Hmfit|].
      now apply Hmdom.
    + intros x Hx Hxfit. apply dominates_lex_le. now apply Hmdom.
Qed.

Lemma find_best_fallback_witness :
  _find_best_frame_size
    (Bench.stream_of [(640, 480); (1280, 720); (1920, 1080)]) 1000 1000
    = Some (mkFrameSize 640 480) /\
  _find_best_frame_size
    (Bench.stream_of [(640, 480); (320, 240); (1920, 1080)]) 1500 1000
    = Some (mkFrameSize 640 480).
Proof.
  split.
  - pose (s := Bench.stream_of [(640, 480); (1280, 720); (1920, 1080)]).
    assert (Hnex : Forall (fun fs => ~ exact 1000 1000 fs)
                     (all_frame_sizes s)).
    { unfold exact. repeat constructor; simpl; lia. }
    destruct (find_best_fallback s (w := 1000) (h := 1000) eq_refl Hnex)
      as [_ Hfit].
    destruct Hfit as (r & Hr & _ & _ & _ & Hdom).
    { unfold fits; simpl; lia. }
    destruct (Hdom (mkFrameSize 640 480)) as [Heq _].
    + now left.
    + unfold fits; simpl; lia.
    + intros x Hx. unfold fits, dominates.
      destruct Hx as [<-|[<-|[<-|[]]]]; simpl; lia.
    + fold s. rewrite Hr. now f_equal.
  - pose (s := Bench.stream_of [(640, 480); (320, 240); (1920, 1080)]).
    assert (Hnex : Forall (fun fs => ~ exact 1500 1000 fs)
                     (all_frame_sizes s)).
    { unfold exact. repeat constructor; simpl; lia. }
    destruct (find_best_fallback s (w := 1500) (h := 1000) eq_refl Hnex)
      as [_ Hfit].
    destruct Hfit as (r & Hr & _ & _ & _ & Hdom).
    { unfold fits; simpl; lia. }
    destruct (Hdom (mkFrameSize 640 480)) as [Heq _].
    + now left.
    + unfold fits; simpl; lia.
    + intros x Hx. unfold fits, dominates.
      destruct Hx as [<-|[<-|[<-|[]]]]; simpl; lia.
    + fold s. rewrite Hr. now f_equal.
Defined.
End ResolverFacts.

(** ** The MAVLink server *)

Module MavlinkServerFacts.
Import Mavlink MavlinkServer StdMapFacts.

Section Facts.
Context {H : Type} `{CameraComponent H}.
Variable get_rtsp_uri : option string -> Stream.t -> string -> string.
Implicit Types (srv : MavlinkServer.t (H := H)) (addr : sockaddr_in).

(** *** Sending *)

Lemma send_outbound a msg srv :
  outbound (snd (_send_mavlink_message a msg srv)) = outbound srv ++ [msg].
Proof.
  unfold _send_mavlink_message, outbound, UDPSocket.write.
  destruct (UDPSocket.outcomes (_udp srv)); simpl;
    now rewrite map_app.
Qed.

Lemma send_result a msg srv :
  fst (_send_mavlink_message a msg srv) = UDPSocket.next_outcome (_udp srv).
Proof.
  unfold _send_mavlink_message, UDPSocket.write, UDPSocket.next_outcome.
  now destruct (UDPSocket.outcomes (_udp srv)).
Qed.

(** A send touches the socket only. *)
Lemma send_frame a msg srv :
  let srv' := snd (_send_mavlink_message a msg srv) in
  _system_id srv' = _system_id srv /\
  compIdToObj srv' = compIdToObj srv /\
  devices srv' = devices srv /\
  _streams srv' = _streams srv.
Proof.
  unfold _send_mavlink_message, UDPSocket.write.
  now destruct (UDPSocket.outcomes (_udp srv)).
Qed.

Lemma send_ack_outbound addr cmd comp_id success srv :
  outbound (_send_ack addr cmd comp_id success srv) =
    outbound srv ++
      [COMMAND_ACK (_system_id srv) comp_id cmd
         (if success then MAV_RESULT_ACCEPTED else MAV_RESULT_FAILED) 255].
Proof. unfold _send_ack. apply send_outbound. Qed.

(** *** The target filter *)

Lemma filter_rejects srv cmd :
  command_long.target_system cmd <> _system_id srv \/
  command_long.target_component cmd < MAV_COMP_ID_CAMERA \/
  command_long.target_component cmd > MAV_COMP_ID_CAMERA6 ->
  negb (command_long.target_system cmd =? _system_id srv)
  || (command_long.target_component cmd <? MAV_COMP_ID_CAMERA)
  || (command_long.target_component cmd >? MAV_COMP_ID_CAMERA6) = true.
Proof.
  intros Hrej. rewrite !orb_true_iff, negb_true_iff.
  rewrite Z.eqb_neq, Z.ltb_lt, Z.gtb_lt. lia.
Qed.

Lemma filter_accepts srv cmd :
  passes_filter srv cmd ->
  negb (command_long.target_system cmd =? _system_id srv)
  || (command_long.target_component cmd <? MAV_COMP_ID_CAMERA)
  || (command_long.target_component cmd >? MAV_COMP_ID_CAMERA6) = false.
Proof.
  intros [Hsys Hcomp]. rewrite !orb_false_iff, negb_false_iff.
  rewrite Z.eqb_eq, Z.ltb_ge, Z.gtb_ltb, Z.ltb_ge. lia.
Qed.

(** C9: a COMMAND_LONG whose [target_system] is not the configured
    system id, or whose [target_component] is outside
    [MAV_COMP_ID_CAMERA .. MAV_COMP_ID_CAMERA6], is dropped: the handler
    returns with the server as it was, so nothing is handed to the
    socket. *)
Theorem command_long_target_filter srv addr cmd :
  command_long.target_system cmd <> _system_id srv \/
  command_long.target_component cmd < MAV_COMP_ID_CAMERA \/
  command_long.target_component cmd > MAV_COMP_ID_CAMERA6 ->
  _handle_mavlink_message get_rtsp_uri addr (MSG_COMMAND_LONG cmd) srv
    = Done srv /\
  forall srv',
    _handle_mavlink_message get_rtsp_uri addr (MSG_COMMAND_LONG cmd) srv
      = Done srv' ->
    outbound srv' = outbound srv /\
    UDPSocket.written (_udp srv') = UDPSocket.written (_udp srv).
Proof.
  intros Hrej.
  assert (Hd : _handle_mavlink_message get_rtsp_uri addr
                 (MSG_COMMAND_LONG cmd) srv = Done srv).
  { unfold _handle_mavlink_message. now rewrite (filter_rejects srv cmd Hrej). }
  split; [exact Hd|].
  intros srv' Hd'. rewrite Hd in Hd'. now inversion Hd'.
Qed.

(** *** Messages other than COMMAND_LONG *)

Lemma getCameraComponent_out_of_range srv compID :
  compID < MAV_COMP_ID_CAMERA \/ compID > MAV_COMP_ID_CAMERA6 ->
  getCameraComponent srv compID = nullptr.
Proof.
  intros Hout. unfold getCameraComponent.
  replace ((compID <? MAV_COMP_ID_CAMERA) || (compID >? MAV_COMP_ID_CAMERA6))
    with true; [reflexivity|].
  symmetry. rewrite orb_true_iff, Z.ltb_lt, Z.gtb_lt. lia.
Qed.

Lemma param_ext_set_unbound srv addr param_set :
  getCameraComponent srv (param_ext_set.target_component param_set)
    = nullptr ->
  _handle_param_ext_set addr param_set srv = srv.
Proof. intros Hn. unfold _handle_param_ext_set. now rewrite Hn. Qed.

Lemma param_ext_request_read_unbound srv addr param_ext_read :
  getCameraComponent srv
    (param_ext_request_read.target_component param_ext_read) = nullptr ->
  _handle_param_ext_request_read addr param_ext_read srv = srv.
Proof. intros Hn. unfold _handle_param_ext_request_read. now rewrite Hn. Qed.

Lemma param_ext_request_list_unbound srv addr param_list :
  getCameraComponent srv
    (param_ext_request_list.target_component param_list) = nullptr ->
  _handle_param_ext_request_list addr param_list srv = srv.
Proof. intros Hn. unfold _handle_param_ext_request_list. now rewrite Hn. Qed.

(** C7, amended: a PARAM_EXT_SET or PARAM_EXT_REQUEST_READ whose
    [target_component] has no bound camera component is dropped without
    any reply: the handler returns with the server as it was, so no
    PARAM_EXT_ACK (nor anything else) is handed to the socket. *)
Theorem param_ext_unknown_component_silent srv addr :
  (forall param_set,
     getCameraComponent srv (param_ext_set.target_component param_set)
       = nullptr ->
     _handle_mavlink_message get_rtsp_uri addr (MSG_PARAM_EXT_SET param_set)
       srv = Done srv) /\
  (forall param_ext_read,
     getCameraComponent srv
       (param_ext_request_read.target_component param_ext_read)
       = nullptr ->
     _handle_mavlink_message get_rtsp_uri addr
       (MSG_PARAM_EXT_REQUEST_READ param_ext_read) srv = Done srv).
Proof.
  split; intros m Hn; simpl.
  - now rewrite param_ext_set_unbound.
  - now rewrite param_ext_request_read_unbound.
Qed.

(** C10: the handling of a message other than COMMAND_LONG does not read
    its [target_system] field: the same message with any other
    [target_system] leaves the server in the same state, with the same
    messages handed to the socket.  Of the addressing fields only
    [target_component] is looked at: the extended-parameter messages
    are dropped when it is outside the camera range. *)
Theorem non_command_ignores_target_system srv addr msg target_system :
  is_command_long msg = false ->
  _handle_mavlink_message get_rtsp_uri addr
    (with_target_system target_system msg) srv
    = _handle_mavlink_message get_rtsp_uri addr msg srv /\
  (forall compID,
     target_component_of msg = Some compID ->
     (forall settings, msg <> MSG_SET_VIDEO_STREAM_SETTINGS settings) ->
     compID < MAV_COMP_ID_CAMERA \/ compID > MAV_COMP_ID_CAMERA6 ->
     _handle_mavlink_message get_rtsp_uri addr msg srv = Done srv).
Proof.
  intros Hmsg. split.
  - destruct msg; try discriminate; reflexivity.
  - intros compID Hcomp Hnot Hout.
    destruct msg; try discriminate; simpl in Hcomp; inversion Hcomp; subst;
      simpl.
    + exfalso. now apply (Hnot settings).
    + rewrite param_ext_request_read_unbound; auto.
      now apply getCameraComponent_out_of_range.
    + rewrite param_ext_request_list_unbound; auto.
      now apply getCameraComponent_out_of_range.
    + rewrite param_ext_set_unbound; auto.
      now apply getCameraComponent_out_of_range.
Qed.

(** *** The information requests *)

(** The three handlers are one text around the message they build. *)
Lemma request_reply_of srv addr cmd (msg : message) :
  is_command_ack msg = false ->
  let command := command_long.command cmd in
  let target_component := command_long.target_component cmd in
  exists sent,
    outbound
      (if float_ne_1 (command_long.param1 cmd) then
         _send_ack addr command target_component true srv
       else if negb (N.eqb (getCameraComponent srv target_component) nullptr)
       then
         let (sent, srv') := _send_mavlink_message (Some addr) msg srv in
         if negb sent then srv'
         else _send_ack addr command target_component true srv'
       else _send_ack addr command target_component false srv)
    = outbound srv ++ sent /\
    request_reply srv cmd sent.
Proof.
  intros Hmsg command target_component. unfold request_reply, bound.
  fold target_component. fold command.
  destruct (float_ne_1 (command_long.param1 cmd)) eqn:Hp1.
  { eexists. split; [apply send_ack_outbound|].
    repeat split; intros; try congruence; tauto. }
  destruct (N.eqb (getCameraComponent srv target_component) nullptr) eqn:Hn;
    simpl.
  { apply N.eqb_eq in Hn. eexists. split; [apply send_ack_outbound|].
    repeat split; intros; try congruence; tauto. }
  apply N.eqb_neq in Hn.
  pose proof (send_result (Some addr) msg srv) as Hres.
  pose proof (send_outbound (Some addr) msg srv) as Hout.
  pose proof (send_frame (Some addr) msg srv) as Hframe.
  destruct (_send_mavlink_message (Some addr) msg srv) as [ok srv'].
  simpl in Hres, Hout, Hframe. destruct Hframe as (Hsys & _).
  destruct ok; simpl.
  - exists [msg; COMMAND_ACK (_system_id srv) target_component command
                   MAV_RESULT_ACCEPTED 255].
    split.
    + rewrite send_ack_outbound, Hout, Hsys, <- app_assoc. reflexivity.
    + repeat split; intros; try congruence; try tauto.
      exists msg. auto.
  - exists [msg]. split; [exact Hout|].
    repeat split; intros; try congruence; try tauto.
    exists msg. auto.
Qed.

Lemma request_camera_information_reply srv addr cmd :
  exists sent,
    outbound (_handle_request_camera_information addr cmd srv)
      = outbound srv ++ sent /\
    request_reply srv cmd sent.
Proof.
  apply (request_reply_of srv addr cmd
           (CAMERA_INFORMATION (_system_id srv)
              (command_long.target_component cmd) 0
              (getCameraInfo (devices srv)
                 (getCameraComponent srv
                    (command_long.target_component cmd))))).
  reflexivity.
Qed.

Lemma request_camera_settings_reply srv addr cmd :
  exists sent,
    outbound (_handle_request_camera_settings addr cmd srv)
      = outbound srv ++ sent /\
    request_reply srv cmd sent.
Proof.
  apply (request_reply_of srv addr cmd
           (CAMERA_SETTINGS (_system_id srv)
              (command_long.target_component cmd) 0 1)).
  reflexivity.
Qed.

Lemma request_storage_information_reply srv addr cmd :
  exists sent,
    outbound (_handle_request_storage_information addr cmd srv)
      = outbound srv ++ sent /\
    request_reply srv cmd sent.
Proof.
  apply (request_reply_of srv addr cmd
           (STORAGE_INFORMATION (_system_id srv)
              (command_long.target_component cmd) 0
              (mk_storage_information 1 1 2 float_50 float_0 float_50
                 float_128 float_128))).
  reflexivity.
Qed.

(** The acknowledgements among the messages of a reply. *)
Lemma request_reply_acks srv cmd sent :
  request_reply srv cmd sent ->
  let target_component := command_long.target_component cmd in
  let ack result :=
    COMMAND_ACK (_system_id srv) target_component
      (command_long.command cmd) result 255 in
  let acks := filter is_command_ack sent in
  let asked := float_ne_1 (command_long.param1 cmd) = false in
  let delivered := UDPSocket.next_outcome (_udp srv) = true in
  (~ asked -> acks = [ack MAV_RESULT_ACCEPTED]) /\
  (asked -> ~ bound srv target_component ->
   acks = [ack MAV_RESULT_FAILED]) /\
  (asked -> bound srv target_component -> delivered ->
   acks = [ack MAV_RESULT_ACCEPTED]) /\
  (asked -> bound srv target_component -> ~ delivered -> acks = []).
Proof.
  intros (Hskip & Hmiss & Hhit & Hlost). simpl.
  split; [|split; [|split]].
  - intros Ha. now rewrite (Hskip Ha).
  - intros Ha Hb. now rewrite (Hmiss Ha Hb).
  - intros Ha Hb Hd. destruct (Hhit Ha Hb Hd) as (info & Hinfo & ->).
    simpl. now rewrite Hinfo.
  - intros Ha Hb Hd. destruct (Hlost Ha Hb Hd) as (info & Hinfo & ->).
    simpl. now rewrite Hinfo.
Qed.

(** C2, amended: for every COMMAND_LONG that passes the target filter
    and whose command is REQUEST_CAMERA_INFORMATION,
    REQUEST_CAMERA_SETTINGS or REQUEST_STORAGE_INFORMATION, the server
    hands at most one COMMAND_ACK to the socket per invocation:
    - when [param1] is not 1, one ack with MAV_RESULT_ACCEPTED, whether
      or not a device is bound at [target_component];
    - when [param1] is 1 and no device is bound, one ack with
      MAV_RESULT_FAILED;
    - when [param1] is 1 and a device is bound, one ack with
      MAV_RESULT_ACCEPTED after the information message if that message
      went out, and no ack at all if it did not. *)
Theorem command_ack_invariant srv addr cmd :
  passes_filter srv cmd ->
  In (command_long.command cmd)
     [MAV_CMD_REQUEST_CAMERA_INFORMATION; MAV_CMD_REQUEST_CAMERA_SETTINGS;
      MAV_CMD_REQUEST_STORAGE_INFORMATION] ->
  exists srv' sent,
    _handle_mavlink_message get_rtsp_uri addr (MSG_COMMAND_LONG cmd) srv
      = Done srv' /\
    outbound srv' = outbound srv ++ sent /\
    let target_component := command_long.target_component cmd in
    let ack result :=
      COMMAND_ACK (_system_id srv) target_component
        (command_long.command cmd) result 255 in
    let acks := filter is_command_ack sent in
    let asked := float_ne_1 (command_long.param1 cmd) = false in
    let delivered := UDPSocket.next_outcome (_udp srv) = true in
    (~ asked -> acks = [ack MAV_RESULT_ACCEPTED]) /\
    (asked -> ~ bound srv target_component ->
     acks = [ack MAV_RESULT_FAILED]) /\
    (asked -> bound srv target_component -> delivered ->
     acks = [ack MAV_RESULT_ACCEPTED]) /\
    (asked -> bound srv target_component -> ~ delivered -> acks = []).
Proof.
  intros Hpass Hcmd.
  assert (Hd : exists handler,
             _handle_mavlink_message get_rtsp_uri addr (MSG_COMMAND_LONG cmd)
               srv = Done (handler addr cmd srv) /\
             exists sent,
               outbound (handler addr cmd srv) = outbound srv ++ sent /\
               request_reply srv cmd sent).
  { unfold _handle_mavlink_message. rewrite (filter_accepts Hpass).
    destruct Hcmd as [Hc|[Hc|[Hc|[]]]]; rewrite <- Hc; simpl.
    - exists _handle_request_camera_information.
      split; [reflexivity|apply request_camera_information_reply].
    - exists _handle_request_camera_settings.
      split; [reflexivity|apply request_camera_settings_reply].
    - exists _handle_request_storage_information.
      split; [reflexivity|apply request_storage_information_reply]. }
  destruct Hd as (handler & Hd & sent & Hout & Hreply).
  exists (handler addr cmd srv), sent.
  split; [exact Hd|]. split; [exact Hout|].
  apply (request_reply_acks Hreply).
Qed.

(** *** The component registry *)

Implicit Types (m : StdMap.t (K := Z) (V := ptr)).

Ltac ids_lia :=
  unfold MAV_COMP_ID_CAMERA, MAV_COMP_ID_CAMERA2, MAV_COMP_ID_CAMERA3,
    MAV_COMP_ID_CAMERA6 in *;
  simpl; lia.

Lemma set_compIdToObj_same srv : set_compIdToObj srv (compIdToObj srv) = srv.
Proof. now destruct srv. Qed.

(** The loop stops at the first free id at or after [id]. *)
Lemma add_loop_first_free camComp m k : forall fuel id,
  id <= k <= MAV_COMP_ID_CAMERA6 ->
  k - id < Z.of_nat fuel ->
  StdMap.find k m = None ->
  (forall j, id <= j < k -> StdMap.find j m <> None) ->
  addCameraComponent_loop fuel id camComp m
    = (k, StdMap.insert k camComp m).
Proof.
  induction fuel as [|fuel IH]; intros id Hk Hfuel Hfree Hbusy; [lia|].
  cbn [addCameraComponent_loop].
  destruct (id <? MAV_COMP_ID_CAMERA6 + 1) eqn:E;
    [|apply Z.ltb_ge in E; lia].
  destruct (Z.eq_dec id k) as [->|Hne].
  - now rewrite Hfree.
  - destruct (StdMap.find id m) eqn:Ef.
    + apply IH; [lia|lia|exact Hfree|].
      intros j Hj. apply Hbusy. lia.
    + exfalso. apply (Hbusy id); [lia|exact Ef].
Qed.

(** With every id from [id] on taken, the loop runs to
    [MAV_COMP_ID_CAMERA6 + 1] and leaves the map as it is. *)
Lemma add_loop_full camComp m : forall fuel id,
  id <= MAV_COMP_ID_CAMERA6 + 1 ->
  MAV_COMP_ID_CAMERA6 + 1 - id <= Z.of_nat fuel ->
  (forall j, id <= j <= MAV_COMP_ID_CAMERA6 -> StdMap.find j m <> None) ->
  addCameraComponent_loop fuel id camComp m = (MAV_COMP_ID_CAMERA6 + 1, m).
Proof.
  induction fuel as [|fuel IH]; intros id Hid Hfuel Hbusy.
  - cbn [addCameraComponent_loop]. f_equal. lia.
  - cbn [addCameraComponent_loop].
    destruct (id <? MAV_COMP_ID_CAMERA6 + 1) eqn:E.
    + apply Z.ltb_lt in E.
      destruct (StdMap.find id m) eqn:Ef.
      * apply IH; [lia|lia|]. intros j Hj. apply Hbusy. lia.
      * exfalso. apply (Hbusy id); [lia|exact Ef].
    + apply Z.ltb_ge in E. f_equal. lia.
Qed.

(** More fuel than the six iterations changes nothing. *)
Lemma add_loop_fuel camComp m : forall fuel id,
  MAV_COMP_ID_CAMERA6 + 1 - id <= Z.of_nat fuel ->
  addCameraComponent_loop (S fuel) id camComp m
    = addCameraComponent_loop fuel id camComp m.
Proof.
  induction fuel as [|fuel IH]; intros id Hfuel.
  - cbn [addCameraComponent_loop].
    destruct (id <? MAV_COMP_ID_CAMERA6 + 1) eqn:E; [|reflexivity].
    apply Z.ltb_lt in E. lia.
  - change (addCameraComponent_loop (S (S fuel)) id camComp m)
      with (if id <? MAV_COMP_ID_CAMERA6 + 1 then
              match StdMap.find id m with
              | None => (id, StdMap.insert id camComp m)
              | Some _ =>
                  addCameraComponent_loop (S fuel) (id + 1) camComp m
              end
            else (id, m)).
    rewrite IH by lia. reflexivity.
Qed.

Lemma find_below_all k m :
  Forall (fun x => StdMap.key_lt k x) (StdMap.keys m) ->
  StdMap.find k m = None.
Proof.
  destruct m as [|[k' v'] tl]; simpl; [reflexivity|].
  intros Hall. inversion Hall as [|? ? Hlt _]; subst.
  unfold StdMap.key_lt in Hlt. simpl in Hlt. now rewrite Hlt.
Qed.

Lemma find_Some_key k (p : ptr) m :
  StdMap.find k m = Some p -> In k (StdMap.keys m).
Proof.
  intros Hf. apply find_Some_In in Hf.
  unfold StdMap.keys. change k with (fst (k, p)). now apply in_map.
Qed.

(** Erasing the first entry that holds [d], when the lowest key holding
    [d] is [k], frees [k] and touches no other key. *)
Lemma erase_first_find d k : forall m,
  StdMap.wf m ->
  StdMap.find k m = Some d ->
  (forall k' p, k' < k -> StdMap.find k' m = Some p -> p <> d) ->
  StdMap.find k (erase_first d m) = None /\
  (forall k', k' <> k ->
     StdMap.find k' (erase_first d m) = StdMap.find k' m).
Proof.
  induction m as [|[k0 p0] tl IH]; intros Hwf Hf Hlow; [discriminate|].
  pose proof (StronglySorted_inv Hwf) as [Htl Hall].
  change (StdMap.wf tl) in Htl.
  simpl in Hf. simpl erase_first.
  destruct (Z.compare_spec k k0) as [Heq|Hlt|Hgt]; try discriminate.
  - (* the entry of [k] is the head *)
    subst k0. inversion Hf; subst p0. rewrite N.eqb_refl.
    split.
    + apply find_below_all. exact Hall.
    + intros k' Hne. simpl.
      destruct (Z.compare_spec k' k) as [Heq|Hlt|Hgt]; [lia| |reflexivity].
      apply find_below_all.
      rewrite Forall_forall in *. intros x Hx.
      specialize (Hall x Hx). unfold StdMap.key_lt in *. simpl in *.
      rewrite Z.compare_lt_iff in *. lia.
  - (* the entry of [k] is further on *)
    assert (Hp0 : p0 <> d).
    { apply (Hlow k0 p0); [lia|]. simpl. now rewrite Z.compare_refl. }
    apply N.eqb_neq in Hp0. rewrite Hp0.
    destruct (IH Htl Hf) as [Hk Hother].
    { intros k' p Hk' Hf'. apply (Hlow k' p Hk'). simpl.
      pose proof (find_Some_key _ _ Hf') as Hin.
      rewrite Forall_forall in Hall. specialize (Hall k' Hin).
      unfold StdMap.key_lt in Hall. simpl in Hall.
      rewrite Z.compare_antisym, Hall. exact Hf'. }
    split.
    + simpl. apply Z.compare_gt_iff in Hgt. now rewrite Hgt.
    + intros k' Hne. simpl.
      destruct (k' ?= k0); auto.
Qed.

Lemma wf_erase_first d : forall m, StdMap.wf m -> StdMap.wf (erase_first d m).
Proof.
  induction m as [|[k0 p0] tl IH]; intros Hwf; [exact Hwf|].
  pose proof (StronglySorted_inv Hwf) as [Htl Hall].
  simpl. destruct (N.eqb p0 d); [exact Htl|].
  constructor; [now apply IH|].
  rewrite Forall_forall in *. intros x Hx. apply Hall.
  clear - Hx. induction tl as [|[k1 p1] tl IHtl]; simpl in *; [tauto|].
  destruct (N.eqb p1 d); simpl in *; tauto.
Qed.

(** The registry keeps its entries in ascending id order through adds and
    removes, so the order hypothesis of the statement below holds for
    every registry built from the empty one. *)
Lemma add_loop_wf camComp m : forall fuel id,
  StdMap.wf m ->
  StdMap.wf (snd (addCameraComponent_loop fuel id camComp m)).
Proof.
  induction fuel as [|fuel IH]; intros id Hwf; [exact Hwf|].
  cbn [addCameraComponent_loop].
  destruct (id <? MAV_COMP_ID_CAMERA6 + 1); [|exact Hwf].
  destruct (StdMap.find id m); [now apply IH|].
  simpl. now apply wf_insert.
Qed.

Lemma addCameraComponent_wf camComp srv :
  StdMap.wf (compIdToObj srv) ->
  StdMap.wf (compIdToObj (snd (addCameraComponent camComp srv))).
Proof.
  intros Hwf. unfold addCameraComponent.
  pose proof (add_loop_wf camComp 6 MAV_COMP_ID_CAMERA Hwf) as Hloop.
  destruct (addCameraComponent_loop 6 MAV_COMP_ID_CAMERA camComp
              (compIdToObj srv)) as [id m'].
  destruct srv. exact Hloop.
Qed.

Lemma removeCameraComponent_wf camComp srv :
  StdMap.wf (compIdToObj srv) ->
  StdMap.wf (compIdToObj (removeCameraComponent camComp srv)).
Proof.
  intros Hwf. unfold removeCameraComponent.
  destruct (N.eqb camComp nullptr); [exact Hwf|].
  destruct srv. simpl in *. now apply wf_erase_first.
Qed.

(** C6: [addCameraComponent] scans the ids [MAV_COMP_ID_CAMERA] to
    [MAV_COMP_ID_CAMERA6] upwards, binds the device at the first id with
    no entry and returns that id; with the six ids taken it returns
    [MAV_COMP_ID_CAMERA6 + 1], an id outside the camera range (the
    out-of-slots result), and binds nothing; and once the device bound
    at [MAV_COMP_ID_CAMERA3] (and at no lower id) is removed, with the
    two lower ids taken, the next add returns [MAV_COMP_ID_CAMERA3]. *)
Theorem component_id_assignment srv camComp :
  (forall id,
     MAV_COMP_ID_CAMERA <= id <= MAV_COMP_ID_CAMERA6 ->
     StdMap.find id (compIdToObj srv) = None ->
     (forall j, MAV_COMP_ID_CAMERA <= j < id ->
                StdMap.find j (compIdToObj srv) <> None) ->
     addCameraComponent camComp srv
       = (id, set_compIdToObj srv
                (StdMap.insert id camComp (compIdToObj srv))) /\
     StdMap.find id (compIdToObj (snd (addCameraComponent camComp srv)))
       = Some camComp) /\
  ((forall j, MAV_COMP_ID_CAMERA <= j <= MAV_COMP_ID_CAMERA6 ->
              StdMap.find j (compIdToObj srv) <> None) ->
   addCameraComponent camComp srv = (MAV_COMP_ID_CAMERA6 + 1, srv) /\
   getCameraComponent srv (MAV_COMP_ID_CAMERA6 + 1) = nullptr) /\
  (forall d,
     StdMap.wf (compIdToObj srv) ->
     d <> nullptr ->
     StdMap.find MAV_COMP_ID_CAMERA3 (compIdToObj srv) = Some d ->
     StdMap.find MAV_COMP_ID_CAMERA (compIdToObj srv) <> None ->
     StdMap.find MAV_COMP_ID_CAMERA2 (compIdToObj srv) <> None ->
     (forall k p, k < MAV_COMP_ID_CAMERA3 ->
                  StdMap.find k (compIdToObj srv) = Some p -> p <> d) ->
     fst (addCameraComponent camComp (removeCameraComponent d srv))
       = MAV_COMP_ID_CAMERA3 /\
     getCameraComponent
       (snd (addCameraComponent camComp (removeCameraComponent d srv)))
       MAV_COMP_ID_CAMERA3 = camComp).
Proof.
  split; [|split].
  - intros id Hid Hfree Hbusy. unfold addCameraComponent.
    rewrite add_loop_first_free with (k := id);
      [|ids_lia|ids_lia|exact Hfree|exact Hbusy].
    split; [reflexivity|].
    destruct srv; simpl in *. rewrite find_insert_same. now rewrite Hfree.
  - intros Hbusy. unfold addCameraComponent.
    rewrite add_loop_full; [|ids_lia|ids_lia|exact Hbusy].
    split; [now rewrite set_compIdToObj_same|].
    apply getCameraComponent_out_of_range. lia.
  - intros d Hwf Hd Hf3 Hf1 Hf2 Hlow.
    unfold removeCameraComponent.
    apply N.eqb_neq in Hd. rewrite Hd.
    destruct (erase_first_find Hwf Hf3 Hlow) as [Hfree Hother].
    unfold addCameraComponent.
    replace (compIdToObj (set_compIdToObj srv
               (erase_first d (compIdToObj srv))))
      with (erase_first d (compIdToObj srv)) by now destruct srv.
    rewrite add_loop_first_free with (k := MAV_COMP_ID_CAMERA3);
      [|ids_lia|ids_lia|exact Hfree|].
    + split; [reflexivity|].
      unfold getCameraComponent.
      replace ((MAV_COMP_ID_CAMERA3 <? MAV_COMP_ID_CAMERA)
               || (MAV_COMP_ID_CAMERA3 >? MAV_COMP_ID_CAMERA6))
        with false by reflexivity.
      destruct srv; simpl in *. rewrite find_insert_same. now rewrite Hfree.
    + intros j Hj. rewrite Hother; [|ids_lia].
      assert (Hj' : j = MAV_COMP_ID_CAMERA \/ j = MAV_COMP_ID_CAMERA2)
        by ids_lia.
      destruct Hj' as [->| ->]; assumption.
Qed.

(** *** The parameter list burst *)

(** The loop sends one PARAM_EXT_VALUE per entry, in the iteration order
    of the map, numbered from [idx] on. *)
Lemma param_list_loop_outbound addr target_component tgtComp param_count :
  forall entries idx srv,
  exists sent,
    outbound (param_list_loop addr target_component tgtComp param_count idx
                entries srv) = outbound srv ++ sent /\
    map value_param_id sent
      = map (fun x => Some (strncpy 16 (fst x))) entries /\
    map value_param_index sent
      = map (fun n => Some ((idx + Z.of_nat n) mod 65536))
          (seq 0 (List.length entries)).
Proof.
  induction entries as [|x entries IH]; intros idx srv.
  - exists []. simpl. now rewrite app_nil_r.
  - cbn [param_list_loop].
    set (msg2 := PARAM_EXT_VALUE _ _ _).
    destruct (IH (idx + 1) (snd (_send_mavlink_message (Some addr) msg2 srv)))
      as (sent & Hout & Hids & Hidx).
    exists (msg2 :: sent). split; [|split].
    + rewrite Hout, send_outbound, <- app_assoc. reflexivity.
    + simpl. now rewrite Hids.
    + simpl. rewrite Hidx, <- seq_shift, map_map.
      f_equal.
      * now rewrite Z.add_0_r.
      * apply map_ext. intros n. do 2 f_equal. lia.
Qed.

(** C8, amended: the maps are [std::map]s, so their iteration order is
    the ascending byte-wise order of the parameter names, whatever the
    order of insertion: the current values after any run of
    [setParameter] calls and the schema built by [initParamIdType] are
    both in ascending name order, and the PARAM_EXT_REQUEST_LIST burst
    sends one PARAM_EXT_VALUE per entry of the device's map in the
    iteration order of that map. *)
Theorem listing_in_name_order :
  (forall calls,
     StronglySorted (fun a b => String.compare a b = Lt)
       (StdMap.keys
          (CameraParameters.paramValue
             (CameraParameters.setParameters
                CameraParameters.CameraParameters calls)))) /\
  StronglySorted (fun a b => String.compare a b = Lt)
    (StdMap.keys
       (CameraParameters.paramIdType CameraParameters.CameraParameters)) /\
  (forall srv addr param_list,
     let tgtComp :=
       getCameraComponent srv
         (param_ext_request_list.target_component param_list) in
     tgtComp <> nullptr ->
     exists srv' sent,
       _handle_mavlink_message get_rtsp_uri addr
         (MSG_PARAM_EXT_REQUEST_LIST param_list) srv = Done srv' /\
       outbound srv' = outbound srv ++ sent /\
       map value_param_id sent
         = map (fun name => Some (strncpy 16 name))
             (StdMap.keys (getParamList (devices srv) tgtComp))).
Proof.
  split; [|split].
  - intros calls.
    apply CameraParametersFacts.setParameters_wf.
    exact CameraParametersFacts.fresh_store_wf.
  - exact CameraParametersFacts.schema_wf.
  - intros srv addr param_list tgtComp Hbound.
    cbn [_handle_mavlink_message]. unfold _handle_param_ext_request_list.
    fold tgtComp. apply N.eqb_neq in Hbound. rewrite Hbound. simpl negb.
    cbv iota.
    destruct (param_list_loop_outbound addr
                (param_ext_request_list.target_component param_list)
                tgtComp
                (StdMap.size (getParamList (devices srv) tgtComp) mod 65536)
                (getParamList (devices srv) tgtComp) 0 srv)
      as (sent & Hout & Hids & _).
    eexists; exists sent. split; [reflexivity|]. split; [exact Hout|].
    rewrite Hids. unfold StdMap.keys. now rewrite map_map.
Qed.

End Facts.

(** *** The statements on the bench *)

Local Open Scope string_scope.

(** C2, as stated, fails: with no device bound at [MAV_COMP_ID_CAMERA], a
    REQUEST_CAMERA_INFORMATION with [param1 = 0] that passes the filter
    is acknowledged with MAV_RESULT_ACCEPTED; and with a device bound,
    [param1 = 1] and the information message not going out, no
    COMMAND_ACK is produced at all. *)
Lemma command_ack_not_iff_bound :
  (passes_filter Bench.empty_server (Bench.info_request float_0) /\
   getCameraComponent Bench.empty_server MAV_COMP_ID_CAMERA = nullptr /\
   exists srv',
     _handle_mavlink_message Bench.get_rtsp_uri Bench.gcs
       (MSG_COMMAND_LONG (Bench.info_request float_0)) Bench.empty_server
       = Done srv' /\
     outbound srv'
       = [COMMAND_ACK 1 MAV_COMP_ID_CAMERA
            MAV_CMD_REQUEST_CAMERA_INFORMATION MAV_RESULT_ACCEPTED 255]) /\
  (passes_filter (Bench.one_camera [] [false]) (Bench.info_request float_1) /\
   getCameraComponent (Bench.one_camera [] [false]) MAV_COMP_ID_CAMERA
     <> nullptr /\
   exists srv',
     _handle_mavlink_message Bench.get_rtsp_uri Bench.gcs
       (MSG_COMMAND_LONG (Bench.info_request float_1))
       (Bench.one_camera [] [false]) = Done srv' /\
     filter is_command_ack (outbound srv') = []).
Proof.
  split.
  - split; [split; [reflexivity|split; discriminate]|].
    split; [reflexivity|].
    eexists. split; reflexivity.
  - split; [split; [reflexivity|split; discriminate]|].
    split; [discriminate|].
    eexists. split; reflexivity.
Qed.

Lemma command_ack_invariant_witness :
  exists srv',
    _handle_mavlink_message Bench.get_rtsp_uri Bench.gcs
      (MSG_COMMAND_LONG (Bench.info_request float_1)) (Bench.one_camera [] [])
      = Done srv' /\
    filter is_command_ack (outbound srv')
      = [COMMAND_ACK 1 MAV_COMP_ID_CAMERA
           MAV_CMD_REQUEST_CAMERA_INFORMATION MAV_RESULT_ACCEPTED 255].
Proof.
  destruct (command_ack_invariant Bench.get_rtsp_uri
              (srv := Bench.one_camera [] []) Bench.gcs
              (cmd := Bench.info_request float_1))
    as (srv' & sent & Hrun & Hout & _ & _ & Hhit & _).
  - split; [reflexivity|]. simpl. unfold MAV_COMP_ID_CAMERA.
    unfold MAV_COMP_ID_CAMERA6. lia.
  - simpl. now left.
  - exists srv'. split; [exact Hrun|].
    rewrite Hout. simpl in Hhit |- *. apply Hhit.
    + reflexivity.
    + discriminate.
    + reflexivity.
Defined.

(** C7, as stated, fails: with no component bound, a PARAM_EXT_SET and a
    PARAM_EXT_REQUEST_READ for [MAV_COMP_ID_CAMERA] leave the server as
    it was; nothing is handed to the socket, so no PARAM_EXT_ACK with
    PARAM_ACK_FAILED is sent. *)
Lemma param_ext_unknown_component_no_ack :
  getCameraComponent Bench.empty_server MAV_COMP_ID_CAMERA = nullptr /\
  (exists srv',
     _handle_mavlink_message Bench.get_rtsp_uri Bench.gcs
       (MSG_PARAM_EXT_SET
          (param_ext_set.mk 1 MAV_COMP_ID_CAMERA "brightness" "128" 5))
       Bench.empty_server = Done srv' /\
     outbound srv' = [] /\
     existsb is_param_ext_ack_failed (outbound srv') = false) /\
  (exists srv',
     _handle_mavlink_message Bench.get_rtsp_uri Bench.gcs
       (MSG_PARAM_EXT_REQUEST_READ
          (param_ext_request_read.mk 1 MAV_COMP_ID_CAMERA "brightness" (-1)))
       Bench.empty_server = Done srv' /\
     outbound srv' = [] /\
     existsb is_param_ext_ack_failed (outbound srv') = false).
Proof.
  split; [reflexivity|].
  split; eexists; repeat split; reflexivity.
Qed.

Lemma param_ext_unknown_component_silent_witness :
  _handle_mavlink_message Bench.get_rtsp_uri Bench.gcs
    (MSG_PARAM_EXT_SET
       (param_ext_set.mk 1 MAV_COMP_ID_CAMERA2 "brightness" "128" 5))
    (Bench.one_camera [] []) = Done (Bench.one_camera [] []) /\
  _handle_mavlink_message Bench.get_rtsp_uri Bench.gcs
    (MSG_PARAM_EXT_REQUEST_READ
       (param_ext_request_read.mk 1 MAV_COMP_ID_CAMERA2 "brightness" (-1)))
    (Bench.one_camera [] []) = Done (Bench.one_camera [] []).
Proof.
  destruct (param_ext_unknown_component_silent Bench.get_rtsp_uri
              (Bench.one_camera [] []) Bench.gcs) as [Hset Hread].
  split.
  - apply Hset. reflexivity.
  - apply Hread. reflexivity.
Defined.

Lemma command_long_target_filter_witness :
  _handle_mavlink_message Bench.get_rtsp_uri Bench.gcs
    (Bench.request 2 MAV_COMP_ID_CAMERA MAV_CMD_REQUEST_CAMERA_INFORMATION
       float_1)
    (Bench.one_camera [] []) = Done (Bench.one_camera [] []) /\
  _handle_mavlink_message Bench.get_rtsp_uri Bench.gcs
    (Bench.request 1 99 MAV_CMD_REQUEST_CAMERA_INFORMATION float_1)
    (Bench.one_camera [] []) = Done (Bench.one_camera [] []).
Proof.
  split.
  - apply (command_long_target_filter Bench.get_rtsp_uri
             (Bench.one_camera [] []) Bench.gcs
             (command_long.mk 2 MAV_COMP_ID_CAMERA
                MAV_CMD_REQUEST_CAMERA_INFORMATION float_1 float_0)).
    left. simpl. lia.
  - apply (command_long_target_filter Bench.get_rtsp_uri
             (Bench.one_camera [] []) Bench.gcs
             (command_long.mk 1 99
                MAV_CMD_REQUEST_CAMERA_INFORMATION float_1 float_0)).
    right. left. simpl. unfold MAV_COMP_ID_CAMERA. lia.
Defined.

Lemma non_command_ignores_target_system_witness :
  _handle_mavlink_message Bench.get_rtsp_uri Bench.gcs
    (MSG_PARAM_EXT_SET
       (param_ext_set.mk 42 MAV_COMP_ID_CAMERA "brightness" "128" 5))
    (Bench.one_camera [] [])
  = _handle_mavlink_message Bench.get_rtsp_uri Bench.gcs
      (MSG_PARAM_EXT_SET
         (param_ext_set.mk 1 MAV_COMP_ID_CAMERA "brightness" "128" 5))
      (Bench.one_camera [] []).
Proof.
  apply (non_command_ignores_target_system Bench.get_rtsp_uri
           (Bench.one_camera [] []) Bench.gcs
           (MSG_PARAM_EXT_SET
              (param_ext_set.mk 1 MAV_COMP_ID_CAMERA "brightness" "128" 5))
           42).
  reflexivity.
Defined.

(** Successive adds into an empty registry fill the six ids in order. *)
Example six_cameras_registry :
  compIdToObj Bench.six_cameras
    = [(MAV_COMP_ID_CAMERA, 1%N); (MAV_COMP_ID_CAMERA2, 2%N);
       (MAV_COMP_ID_CAMERA3, 3%N); (MAV_COMP_ID_CAMERA4, 4%N);
       (MAV_COMP_ID_CAMERA5, 5%N); (MAV_COMP_ID_CAMERA6, 6%N)].
Proof. reflexivity. Qed.

Lemma component_id_assignment_witness :
  fst (addCameraComponent 1%N Bench.empty_server) = MAV_COMP_ID_CAMERA /\
  addCameraComponent 7%N Bench.six_cameras
    = (MAV_COMP_ID_CAMERA6 + 1, Bench.six_cameras) /\
  fst (addCameraComponent 7%N (removeCameraComponent 3%N Bench.six_cameras))
    = MAV_COMP_ID_CAMERA3.
Proof.
  split; [|split].
  - destruct (component_id_assignment Bench.empty_server 1%N)
      as [Hfirst _].
    destruct (Hfirst MAV_COMP_ID_CAMERA) as [Hadd _].
    + unfold MAV_COMP_ID_CAMERA, MAV_COMP_ID_CAMERA6. lia.
    + reflexivity.
    + intros j Hj. lia.
    + now rewrite Hadd.
  - destruct (component_id_assignment Bench.six_cameras 7%N)
      as (_ & Hfull & _).
    apply Hfull.
    intros j Hj.
    assert (Hcases : j = 100 \/ j = 101 \/ j = 102 \/ j = 103 \/ j = 104
                     \/ j = 105)
      by (unfold MAV_COMP_ID_CAMERA, MAV_COMP_ID_CAMERA6 in Hj; lia).
    destruct Hcases as [->|[->|[->|[->|[->| ->]]]]]; discriminate.
  - destruct (component_id_assignment Bench.six_cameras 7%N)
      as (_ & _ & Hagain).
    apply (Hagain 3%N).
    + repeat constructor.
    + discriminate.
    + reflexivity.
    + discriminate.
    + discriminate.
    + intros k p Hk Hf. unfold MAV_COMP_ID_CAMERA3 in Hk.
      simpl in Hf. unfold MAV_COMP_ID_CAMERA in Hf.
      destruct (Z.compare_spec k 100) as [Hk0|Hk0|Hk0];
        [inversion Hf; discriminate|discriminate|].
      destruct (Z.compare_spec k 101) as [Hk1|Hk1|Hk1];
        [inversion Hf; discriminate|discriminate|].
      lia.
Defined.

(** C8, as stated, fails: [initParamIdType] inserts ["camera-mode"]
    first and ["brightness"] second, and so does the run of
    [setParameter] calls here; yet the schema iterates from ["backlight"]
    on, the store lists ["brightness"] before ["camera-mode"], and the
    burst sends them in that order. *)
Lemma listing_not_in_insertion_order :
  firstn 2 (map fst CameraParameters.initParamIdType_calls)
    = ["camera-mode"; "brightness"] /\
  map fst Bench.two_calls = ["camera-mode"; "brightness"] /\
  firstn 2 (StdMap.keys
              (CameraParameters.paramIdType
                 CameraParameters.CameraParameters))
    = ["backlight"; "brightness"] /\
  StdMap.keys
    (CameraParameters.paramValue
       (CameraParameters.setParameters CameraParameters.CameraParameters
          Bench.two_calls))
    = ["brightness"; "camera-mode"] /\
  exists srv',
    _handle_mavlink_message Bench.get_rtsp_uri Bench.gcs Bench.list_request
      (Bench.one_camera Bench.two_calls []) = Done srv' /\
    map value_param_id (outbound srv')
      = [Some "brightness"; Some "camera-mode"].
Proof.
  repeat (split; [reflexivity|]).
  eexists. split; reflexivity.
Qed.

Lemma listing_in_name_order_witness :
  exists srv',
    _handle_mavlink_message Bench.get_rtsp_uri Bench.gcs Bench.list_request
      (Bench.one_camera Bench.two_calls []) = Done srv' /\
    map value_param_id (outbound srv')
      = [Some "brightness"; Some "camera-mode"].
Proof.
  destruct (listing_in_name_order (H := StoreCamera.heap)
              Bench.get_rtsp_uri) as (_ & _ & Hburst).
  destruct (Hburst (Bench.one_camera Bench.two_calls []) Bench.gcs
              (param_ext_request_list.mk 1 MAV_COMP_ID_CAMERA))
    as (srv' & sent & Hrun & Hout & Hids).
  - discriminate.
  - exists srv'. split; [exact Hrun|].
    rewrite Hout. simpl. exact Hids.
Defined.

End MavlinkServerFacts.

(** ** More on [std::map]: entries do not disturb one another *)

Module StdMapMore.
Import StdMap.
Section More.
Context {K V : Type} `{OrdKeyLaws K}.
Implicit Types m : StdMap.t (K := K) (V := V).

Lemma kcmp_gt_lt (a b : K) : kcmp a b = Gt -> kcmp b a = Lt.
Proof. intros E. rewrite kcmp_antisym, E. reflexivity. Qed.

Lemma kcmp_lt_gt (a b : K) : kcmp a b = Lt -> kcmp b a = Gt.
Proof. intros E. rewrite kcmp_antisym, E. reflexivity. Qed.

Lemma kcmp_neq (a b : K) : a <> b -> kcmp a b <> Eq.
Proof. intros Hne E. apply Hne. now apply kcmp_eq. Qed.

(** Inserting under one key leaves the lookup of every other key as it
    was. *)
Lemma find_insert_other k k' v m :
  k' <> k -> find k' (insert k v m) = find k' m.
Proof.
  intros Hne.
  induction m as [|[k0 v0] tl IH]; simpl.
  - destruct (kcmp k' k) eqn:E; try reflexivity.
    exfalso. now apply (kcmp_neq Hne).
  - destruct (kcmp k k0) eqn:E0; simpl.
    + reflexivity.
    + destruct (kcmp k' k) eqn:E.
      * exfalso. now apply (kcmp_neq Hne).
      * now rewrite (kcmp_lt_trans _ _ _ E E0).
      * reflexivity.
    + destruct (kcmp k' k0); auto.
Qed.

(** Insertions under two different keys commute. *)
Lemma insert_comm k1 v1 k2 v2 m :
  k1 <> k2 ->
  insert k1 v1 (insert k2 v2 m) = insert k2 v2 (insert k1 v1 m).
Proof.
  intros Hne.
  assert (Hne' : k2 <> k1) by congruence.
  induction m as [|[k0 v0] tl IH]; simpl.
  - destruct (kcmp k1 k2) eqn:E.
    + exfalso. now apply (kcmp_neq Hne).
    + now rewrite (kcmp_lt_gt _ _ E).
    + now rewrite (kcmp_gt_lt _ _ E).
  - destruct (kcmp k1 k0) eqn:E1; destruct (kcmp k2 k0) eqn:E2; simpl;
      rewrite ?E1, ?E2.
    + (* Eq, Eq *)
      exfalso. apply Hne. apply kcmp_eq in E1, E2. congruence.
    + (* Eq, Lt *)
      apply kcmp_eq in E1. subst k0. now rewrite (kcmp_lt_gt _ _ E2).
    + (* Eq, Gt *) reflexivity.
    + (* Lt, Eq *)
      apply kcmp_eq in E2. subst k0. now rewrite (kcmp_lt_gt _ _ E1).
    + (* Lt, Lt *)
      destruct (kcmp k1 k2) eqn:E.
      * exfalso. now apply (kcmp_neq Hne).
      * rewrite (kcmp_lt_gt _ _ E). simpl. rewrite ?E1, ?E2. reflexivity.
      * rewrite (kcmp_gt_lt _ _ E). simpl. rewrite ?E1, ?E2. reflexivity.
    + (* Lt, Gt *)
      assert (E : kcmp k1 k2 = Lt).
      { apply (kcmp_lt_trans _ _ _ E1). now apply kcmp_gt_lt. }
      rewrite (kcmp_lt_gt _ _ E). simpl. rewrite ?E1, ?E2. reflexivity.
    + (* Gt, Eq *) reflexivity.
    + (* Gt, Lt *)
      assert (E : kcmp k2 k1 = Lt).
      { apply (kcmp_lt_trans _ _ _ E2). now apply kcmp_gt_lt. }
      rewrite (kcmp_lt_gt _ _ E). simpl. rewrite ?E1, ?E2. reflexivity.
    + (* Gt, Gt *) now rewrite IH.
Qed.
End More.
End StdMapMore.

(** ** More on the parameter store *)

Module CameraParametersMore.
Import CameraParameters StdMapFacts StdMapMore.
Local Open Scope string_scope.

(** The first call of a run that names [key]. *)
Lemma find_setParameters calls : forall cp key,
  StdMap.find key (paramValue (setParameters cp calls)) =
    match StdMap.find key (paramValue cp) with
    | Some v => Some v
    | None =>
        option_map snd (List.find (fun kv => String.eqb (fst kv) key) calls)
    end.
Proof.
  unfold setParameters.
  induction calls as [|[k0 v0] calls IH]; intros cp key; simpl.
  - now destruct (StdMap.find key (paramValue cp)).
  - rewrite IH. simpl. unfold set.
    destruct (String.eqb k0 key) eqn:E.
    + apply String.eqb_eq in E. subst k0. rewrite find_insert_same.
      now destruct (StdMap.find key (paramValue cp)).
    + apply String.eqb_neq in E.
      rewrite find_insert_other by congruence.
      reflexivity.
Qed.

(** X1: of the [setParameter] calls made on a store, the first one for a
    name decides its value for good: after any run of calls,
    [getParameter] gives the value the name had before the run if it had
    one, otherwise the value of the first call of the run for that name,
    and the empty string if there is none. *)
Theorem first_setParameter_wins cp calls key :
  getParameter (setParameters cp calls) key =
    match StdMap.find key (paramValue cp) with
    | Some v => v
    | None =>
        match List.find (fun kv => String.eqb (fst kv) key) calls with
        | Some kv => snd kv
        | None => ""
        end
    end.
Proof.
  unfold getParameter, get. rewrite find_setParameters.
  destruct (StdMap.find key (paramValue cp)); [reflexivity|].
  now destruct (List.find (fun kv => String.eqb (fst kv) key) calls).
Qed.

Lemma setParameter_comm cp k1 v1 k2 v2 :
  k1 <> k2 ->
  snd (setParameter (snd (setParameter cp k1 v1)) k2 v2)
  = snd (setParameter (snd (setParameter cp k2 v2)) k1 v1).
Proof.
  intros Hne. simpl. unfold set. f_equal.
  apply insert_comm. congruence.
Qed.

Lemma setParameters_perm calls calls' :
  Permutation calls calls' ->
  NoDup (map fst calls) ->
  forall cp, setParameters cp calls = setParameters cp calls'.
Proof.
  unfold setParameters.
  induction 1 as [|x l l' Hperm IH|x y l|l l' l'' Hp1 IH1 Hp2 IH2];
    intros Hnd cp; simpl.
  - reflexivity.
  - inversion Hnd; subst. now apply IH.
  - f_equal. apply setParameter_comm.
    inversion Hnd as [|? ? Hnotin _]; subst. simpl in Hnotin.
    intros Heq. apply Hnotin. left. congruence.
  - rewrite IH1 by assumption. apply IH2.
    apply Permutation_NoDup with (l := map fst l); [|assumption].
    now apply Permutation_map.
Qed.

(** X2: the store does not depend on the order of the calls that filled
    it: two runs of [setParameter] calls that are permutations of one
    another, and that set no name twice, leave the same store. *)
Theorem setParameters_order_independent cp calls calls' :
  Permutation calls calls' ->
  NoDup (map fst calls) ->
  setParameters cp calls = setParameters cp calls'.
Proof. intros Hperm Hnd. now apply setParameters_perm. Qed.

Lemma setParameters_order_independent_witness :
  setParameters CameraParameters [(HUE, "3"); (GAIN, "7"); (GAMMA, "1")]
  = setParameters CameraParameters [(GAMMA, "1"); (HUE, "3"); (GAIN, "7")].
Proof.
  apply setParameters_order_independent.
  - apply Permutation_sym.
    apply (Permutation_cons_app [(HUE, "3"); (GAIN, "7")] []).
    simpl. apply Permutation_refl.
  - repeat constructor; simpl; intuition discriminate.
Defined.

Lemma find_fold_set_absent {V : Type} (calls : list (string * V)) :
  forall pMap key,
  ~ In key (map fst calls) ->
  StdMap.find key
    (fold_left (fun m call => set m (fst call) (snd call)) calls pMap)
  = StdMap.find key pMap.
Proof.
  induction calls as [|[k0 v0] calls IH]; intros pMap key Hnotin; simpl.
  - reflexivity.
  - simpl in Hnotin. rewrite IH by tauto. unfold set.
    apply find_insert_other. intros Heq. apply Hnotin. now left.
Qed.

(** X3: the schema built by the constructor answers every name of
    [initParamIdType] with the identifier and the type it was entered
    with, has 21 entries (the name entered twice counts once), and
    answers every other name with "not found" (the source's [-1]). *)
Theorem schema_lookup :
  (forall name id ty,
     In (name, (id, ty)) initParamIdType_calls ->
     getParameterID CameraParameters name = Some id /\
     getParameterType CameraParameters name = Some ty) /\
  (forall name,
     ~ In name (map fst initParamIdType_calls) ->
     getParameterID CameraParameters name = None /\
     getParameterType CameraParameters name = None) /\
  StdMap.size (paramIdType CameraParameters) = 21.
Proof.
  split; [|split].
  - intros name id ty Hin. simpl in Hin.
    repeat (destruct Hin as [Heq|Hin];
            [inversion Heq; subst; split; reflexivity|]).
    contradiction.
  - intros name Hnotin.
    assert (Hf : StdMap.find name (paramIdType CameraParameters) = None).
    { change (paramIdType CameraParameters)
        with (fold_left
                (fun pMap call => set pMap (fst call) (snd call))
                initParamIdType_calls
                (StdMap.empty (K := string) (V := param_id * param_type))).
      rewrite find_fold_set_absent by exact Hnotin. reflexivity. }
    unfold getParameterID, getParameterType. rewrite Hf.
    split; reflexivity.
  - reflexivity.
Qed.

Lemma schema_lookup_witness :
  getParameterType CameraParameters HUE = Some PARAM_TYPE_INT32 /\
  getParameterID CameraParameters "zoom" = None.
Proof.
  destruct schema_lookup as (Hknown & Hunknown & _).
  split.
  - apply (Hknown HUE PARAM_ID_HUE PARAM_TYPE_INT32).
    simpl. do 4 right. now left.
  - apply Hunknown. simpl. intuition discriminate.
Defined.

End CameraParametersMore.

(** ** More on the frame-size resolver *)

Module ResolverMore.
Import Stream Resolver ResolverFacts.

(** Once there is a candidate there is one until the end, and the last
    candidate is the first one or a frame size of the list. *)
Lemma fold_step_Some w h l : forall b,
  exists r,
    fold_left (step w h) l (Some b) = Some r /\ (r = b \/ In r l).
Proof.
  induction l as [|x l IH]; intros b; simpl.
  - exists b. auto.
  - unfold step at 2. destruct (takes_over w h (Some b) x).
    + destruct (IH x) as (r & Hr & Hin). exists r. split; [exact Hr|].
      destruct Hin as [->|Hin]; auto.
    + destruct (IH b) as (r & Hr & Hin). exists r. split; [exact Hr|].
      destruct Hin as [->|Hin]; auto.
Qed.

(** X4: a request for the exact dimensions of an advertised frame size is
    answered with that frame size, wherever it stands among the pairs. *)
Theorem exact_match_is_returned (s : Stream.t) (fs : FrameSize) :
  In fs (all_frame_sizes s) ->
  _find_best_frame_size s (width fs) (height fs) = Some fs.
Proof.
  intros Hin. rewrite find_best_flat.
  destruct (scan_exact (w := width fs) (h := height fs) None
              (l := all_frame_sizes s)) as (fs' & Hscan).
  { apply Exists_exists. exists fs. split; [exact Hin|].
    unfold exact. auto. }
  rewrite Hscan. apply scan_inl in Hscan. destruct Hscan as [_ [Hw Hh]].
  f_equal. now apply FrameSize_eq.
Qed.

Lemma exact_match_is_returned_witness :
  _find_best_frame_size
    (Bench.stream_of [(1920, 1080); (640, 480); (1280, 720)]) 640 480
  = Some (mkFrameSize 640 480).
Proof.
  apply (exact_match_is_returned
           (Bench.stream_of [(1920, 1080); (640, 480); (1280, 720)])
           (mkFrameSize 640 480)).
  simpl. right. now left.
Defined.

(** X5: the resolver returns the null pointer only for a stream that
    advertises no frame size at all, whatever the request; and what it
    returns otherwise is always one of the advertised frame sizes. *)
Theorem find_best_null_only_when_empty (s : Stream.t) (w h : Z) :
  (_find_best_frame_size s w h = None <-> all_frame_sizes s = []) /\
  (forall r, _find_best_frame_size s w h = Some r ->
             In r (all_frame_sizes s)).
Proof.
  rewrite find_best_flat.
  destruct (all_frame_sizes s) as [|first rest] eqn:El.
  - simpl. split; [tauto|discriminate].
  - destruct (scan_frame_sizes w h None (first :: rest)) as [fs|best] eqn:E.
    + apply scan_inl in E. destruct E as [Hin _].
      split; [split; discriminate|]. now intros r [= <-].
    + apply scan_inr in E. simpl in E. unfold step at 2 in E. simpl in E.
      destruct (fold_step_Some w h rest first) as (r & Hr & Hin).
      rewrite Hr in E. subst best.
      split; [split; discriminate|]. intros r' [= <-].
      destruct Hin as [->|Hin]; [now left|now right].
Qed.

Lemma find_best_null_only_when_empty_witness :
  _find_best_frame_size (Bench.stream_of []) 640 480 = None /\
  In (mkFrameSize 1920 1080)
    (all_frame_sizes (Bench.stream_of [(1920, 1080)])).
Proof.
  split.
  - apply (find_best_null_only_when_empty (Bench.stream_of []) 640 480).
    reflexivity.
  - apply (find_best_null_only_when_empty (Bench.stream_of [(1920, 1080)])
             1 1).
    reflexivity.
Defined.

End ResolverMore.

(** ** More on the component registry *)

Module RegistryFacts.
Import Mavlink MavlinkServer StdMapFacts StdMapMore MavlinkServerFacts.

Section Facts.
Context {H : Type}.
Implicit Types (srv : MavlinkServer.t (H := H))
               (m : StdMap.t (K := Z) (V := ptr)).

(** What the loop of [addCameraComponent] comes to: the map as it was,
    or one more entry at the id returned, which was free and is a camera
    id. *)
Lemma add_loop_shape camComp m : forall fuel id,
  MAV_COMP_ID_CAMERA <= id ->
  let r := addCameraComponent_loop fuel id camComp m in
  snd r = m \/
  (StdMap.find (fst r) m = None /\
   snd r = StdMap.insert (fst r) camComp m /\
   MAV_COMP_ID_CAMERA <= fst r <= MAV_COMP_ID_CAMERA6).
Proof.
  induction fuel as [|fuel IH]; intros id Hid; [now left|].
  cbn [addCameraComponent_loop].
  destruct (id <? MAV_COMP_ID_CAMERA6 + 1) eqn:E; [|now left].
  apply Z.ltb_lt in E.
  destruct (StdMap.find id m) eqn:Ef.
  - apply IH. lia.
  - right. simpl. repeat split; auto; lia.
Qed.

Lemma erase_first_absent camComp : forall m,
  (forall k p, In (k, p) m -> p <> camComp) ->
  erase_first camComp m = m.
Proof.
  induction m as [|[k0 p0] tl IH]; intros Hval; simpl; [reflexivity|].
  assert (Hp0 : p0 <> camComp) by (apply (Hval k0); now left).
  apply N.eqb_neq in Hp0. rewrite Hp0. f_equal.
  apply IH. intros k p Hin. apply (Hval k). now right.
Qed.

Lemma erase_first_insert camComp k : forall m,
  (forall k' p, In (k', p) m -> p <> camComp) ->
  erase_first camComp (StdMap.insert k camComp m) = m.
Proof.
  induction m as [|[k0 p0] tl IH]; intros Hval; simpl.
  - now rewrite N.eqb_refl.
  - assert (Hp0 : p0 <> camComp) by (apply (Hval k0); now left).
    assert (Htl : forall k' p, In (k', p) tl -> p <> camComp).
    { intros k' p Hin. apply (Hval k'). now right. }
    apply N.eqb_neq in Hp0.
    destruct (k ?= k0); simpl.
    + rewrite Hp0. f_equal. now apply erase_first_absent.
    + now rewrite N.eqb_refl.
    + rewrite Hp0. f_equal. now apply IH.
Qed.

Lemma erase_first_keys camComp x : forall m,
  In x (StdMap.keys (erase_first camComp m)) -> In x (StdMap.keys m).
Proof.
  induction m as [|[k0 p0] tl IH]; simpl; [tauto|].
  destruct (N.eqb p0 camComp); simpl; tauto.
Qed.

(** X6: registering a device and removing it again gives the registry
    back, provided the pointer is not null and the device was not
    registered already; this holds as well when the registry is full and
    the add binds nothing. *)
Theorem add_then_remove srv camComp :
  camComp <> nullptr ->
  (forall k p, In (k, p) (compIdToObj srv) -> p <> camComp) ->
  removeCameraComponent camComp (snd (addCameraComponent camComp srv)) = srv.
Proof.
  intros Hnull Hfresh.
  unfold addCameraComponent, removeCameraComponent.
  pose proof (add_loop_shape camComp (compIdToObj srv) 6
                (id := MAV_COMP_ID_CAMERA) (Z.le_refl _)) as Hshape.
  destruct (addCameraComponent_loop 6 MAV_COMP_ID_CAMERA camComp
              (compIdToObj srv)) as [id m'].
  simpl in Hshape. simpl snd.
  apply N.eqb_neq in Hnull. rewrite Hnull.
  assert (Herase : erase_first camComp m' = compIdToObj srv).
  { destruct Hshape as [->|(_ & -> & _)].
    - now apply erase_first_absent.
    - now apply erase_first_insert. }
  destruct srv. simpl in *. now rewrite Herase.
Qed.

(** X7: removing the null pointer, or a device that is bound at no id,
    changes nothing. *)
Theorem remove_unregistered srv camComp :
  camComp = nullptr \/
  (forall k p, In (k, p) (compIdToObj srv) -> p <> camComp) ->
  removeCameraComponent camComp srv = srv.
Proof.
  intros [->|Hfresh]; unfold removeCameraComponent.
  - reflexivity.
  - destruct (N.eqb camComp nullptr); [reflexivity|].
    rewrite erase_first_absent by exact Hfresh.
    apply set_compIdToObj_same.
Qed.

(** X8: registering a device never touches the bindings there are: every
    id that had an entry keeps it, so every component that could be
    looked up before the add is looked up to the same device after it. *)
Theorem add_keeps_bindings srv camComp :
  (forall k p,
     StdMap.find k (compIdToObj srv) = Some p ->
     StdMap.find k (compIdToObj (snd (addCameraComponent camComp srv)))
       = Some p) /\
  (forall compID,
     getCameraComponent srv compID <> nullptr ->
     getCameraComponent (snd (addCameraComponent camComp srv)) compID
       = getCameraComponent srv compID).
Proof.
  assert (Hfind : forall k p,
            StdMap.find k (compIdToObj srv) = Some p ->
            StdMap.find k
              (compIdToObj (snd (addCameraComponent camComp srv)))
            = Some p).
  { intros k p Hf. unfold addCameraComponent.
    pose proof (add_loop_shape camComp (compIdToObj srv) 6
                  (id := MAV_COMP_ID_CAMERA) (Z.le_refl _)) as Hshape.
    destruct (addCameraComponent_loop 6 MAV_COMP_ID_CAMERA camComp
                (compIdToObj srv)) as [id m'].
    simpl in Hshape.
    replace (compIdToObj (snd (id, set_compIdToObj srv m'))) with m'
      by now destruct srv.
    destruct Hshape as [->|(Hfree & -> & _)]; [exact Hf|].
    rewrite find_insert_other; [exact Hf|].
    intros ->. congruence. }
  split; [exact Hfind|].
  intros compID Hbound. unfold getCameraComponent in *.
  destruct ((compID <? MAV_COMP_ID_CAMERA) || (compID >? MAV_COMP_ID_CAMERA6));
    [reflexivity|].
  destruct (StdMap.find compID (compIdToObj srv)) as [p|] eqn:Hf;
    [|contradiction].
  now rewrite (Hfind compID p Hf).
Qed.

Lemma sorted_range_length (l : list Z) :
  StronglySorted (fun a b => (a ?= b) = Lt) l ->
  forall a b,
    Forall (fun x => a <= x <= b) l ->
    Z.of_nat (List.length l) <= Z.max 0 (b - a + 1).
Proof.
  induction 1 as [|x l Hsorted IH Hall]; intros a b Hrange; simpl List.length.
  - lia.
  - inversion Hrange as [|? ? Hx Hl]; subst.
    assert (Hl' : Forall (fun y => x + 1 <= y <= b) l).
    { rewrite Forall_forall in *. intros y Hy.
      specialize (Hall y Hy). specialize (Hl y Hy).
      rewrite Z.compare_lt_iff in Hall. lia. }
    specialize (IH (x + 1) b Hl'). lia.
Qed.

(** The invariant of the registry: ascending ids, all of them camera
    ids. *)
Lemma add_invariant camComp srv :
  StdMap.wf (compIdToObj srv) ->
  Forall (fun id => MAV_COMP_ID_CAMERA <= id <= MAV_COMP_ID_CAMERA6)
    (StdMap.keys (compIdToObj srv)) ->
  Forall (fun id => MAV_COMP_ID_CAMERA <= id <= MAV_COMP_ID_CAMERA6)
    (StdMap.keys (compIdToObj (snd (addCameraComponent camComp srv)))).
Proof.
  intros Hwf Hrange. unfold addCameraComponent.
  pose proof (add_loop_shape camComp (compIdToObj srv) 6
                (id := MAV_COMP_ID_CAMERA) (Z.le_refl _)) as Hshape.
  destruct (addCameraComponent_loop 6 MAV_COMP_ID_CAMERA camComp
              (compIdToObj srv)) as [id m'].
  simpl in Hshape.
  replace (compIdToObj (snd (id, set_compIdToObj srv m'))) with m'
    by now destruct srv.
  destruct Hshape as [->|(_ & -> & Hid)]; [exact Hrange|].
  rewrite Forall_forall in *. intros x Hx.
  apply keys_insert_In in Hx. destruct Hx as [->|Hx]; auto.
Qed.

Lemma remove_invariant camComp srv :
  Forall (fun id => MAV_COMP_ID_CAMERA <= id <= MAV_COMP_ID_CAMERA6)
    (StdMap.keys (compIdToObj srv)) ->
  Forall (fun id => MAV_COMP_ID_CAMERA <= id <= MAV_COMP_ID_CAMERA6)
    (StdMap.keys (compIdToObj (removeCameraComponent camComp srv))).
Proof.
  intros Hrange. unfold removeCameraComponent.
  destruct (N.eqb camComp nullptr); [exact Hrange|].
  replace (compIdToObj
             (set_compIdToObj srv (erase_first camComp (compIdToObj srv))))
    with (erase_first camComp (compIdToObj srv)) by now destruct srv.
  rewrite Forall_forall in *. intros x Hx. apply Hrange.
  now apply erase_first_keys in Hx.
Qed.

(** X9: starting from an empty registry, after any run of
    [addCameraComponent] and [removeCameraComponent] calls the registry
    holds its entries in ascending id order, every id being one of the six
    camera ids, so it never holds more than six components. *)
Theorem registry_capacity srv calls :
  compIdToObj srv = StdMap.empty ->
  StdMap.wf (compIdToObj (Registry.run calls srv)) /\
  Forall (fun id => MAV_COMP_ID_CAMERA <= id <= MAV_COMP_ID_CAMERA6)
    (StdMap.keys (compIdToObj (Registry.run calls srv))) /\
  StdMap.size (compIdToObj (Registry.run calls srv)) <= 6.
Proof.
  intros Hempty.
  assert (Hinv : StdMap.wf (compIdToObj (Registry.run calls srv)) /\
                 Forall (fun id => MAV_COMP_ID_CAMERA <= id
                                   <= MAV_COMP_ID_CAMERA6)
                   (StdMap.keys (compIdToObj (Registry.run calls srv)))).
  { assert (Hstart : StdMap.wf (compIdToObj srv) /\
                     Forall (fun id => MAV_COMP_ID_CAMERA <= id
                                       <= MAV_COMP_ID_CAMERA6)
                       (StdMap.keys (compIdToObj srv))).
    { rewrite Hempty. split; constructor. }
    clear Hempty. revert srv Hstart. unfold Registry.run.
    induction calls as [|c calls IH]; intros srv [Hwf Hrange]; simpl;
      [now split|].
    apply IH. destruct c as [camComp|camComp]; simpl.
    - split; [now apply addCameraComponent_wf|now apply add_invariant].
    - split; [now apply removeCameraComponent_wf|now apply remove_invariant]. }
  destruct Hinv as [Hwf Hrange]. split; [exact Hwf|]. split; [exact Hrange|].
  unfold StdMap.size.
  pose proof (sorted_range_length Hwf Hrange) as Hlen.
  unfold StdMap.keys in Hlen. rewrite length_map in Hlen.
  unfold MAV_COMP_ID_CAMERA, MAV_COMP_ID_CAMERA6 in Hlen. lia.
Qed.

(** X10: removing a device unbinds one id only, the lowest one it is
    bound at: after the call that id looks up to the null pointer, and
    every other id looks up to what it did before. *)
Theorem remove_unbinds_lowest srv d k :
  StdMap.wf (compIdToObj srv) ->
  d <> nullptr ->
  StdMap.find k (compIdToObj srv) = Some d ->
  (forall k' p, k' < k -> StdMap.find k' (compIdToObj srv) = Some p ->
                p <> d) ->
  getCameraComponent (removeCameraComponent d srv) k = nullptr /\
  (forall k', k' <> k ->
     getCameraComponent (removeCameraComponent d srv) k'
       = getCameraComponent srv k').
Proof.
  intros Hwf Hd Hf Hlow.
  destruct (erase_first_find Hwf Hf Hlow) as [Hfree Hother].
  unfold removeCameraComponent. apply N.eqb_neq in Hd. rewrite Hd.
  unfold getCameraComponent.
  replace (compIdToObj
             (set_compIdToObj srv (erase_first d (compIdToObj srv))))
    with (erase_first d (compIdToObj srv)) by now destruct srv.
  split.
  - rewrite Hfree. now destruct (_ || _).
  - intros k' Hne. now rewrite (Hother k' Hne).
Qed.

End Facts.

Lemma add_then_remove_witness :
  removeCameraComponent 9%N
    (snd (addCameraComponent 9%N (Bench.one_camera [] [])))
  = Bench.one_camera [] [] /\
  removeCameraComponent 9%N (snd (addCameraComponent 9%N Bench.six_cameras))
  = Bench.six_cameras.
Proof.
  split.
  - apply add_then_remove; [discriminate|].
    intros k p [Heq|[]]. inversion Heq. discriminate.
  - apply add_then_remove; [discriminate|].
    intros k p Hin. simpl in Hin.
    repeat (destruct Hin as [Heq|Hin]; [inversion Heq; discriminate|]).
    contradiction.
Defined.

Lemma remove_unregistered_witness :
  removeCameraComponent nullptr Bench.six_cameras = Bench.six_cameras /\
  removeCameraComponent 9%N (Bench.one_camera [] []) = Bench.one_camera [] [].
Proof.
  split.
  - apply remove_unregistered. now left.
  - apply remove_unregistered. right.
    intros k p [Heq|[]]. inversion Heq. discriminate.
Defined.

Lemma add_keeps_bindings_witness :
  getCameraComponent
    (snd (addCameraComponent 9%N (Bench.one_camera [] [])))
    MAV_COMP_ID_CAMERA = 1%N.
Proof.
  destruct (add_keeps_bindings (Bench.one_camera [] []) 9%N) as [_ Hget].
  rewrite Hget; [reflexivity|discriminate].
Defined.

Lemma registry_capacity_witness :
  StdMap.size
    (compIdToObj
       (Registry.run
          [Registry.Add 1%N; Registry.Add 2%N; Registry.Remove 1%N;
           Registry.Add 3%N]
          Bench.empty_server)) <= 6.
Proof.
  apply (registry_capacity Bench.empty_server
           [Registry.Add 1%N; Registry.Add 2%N; Registry.Remove 1%N;
            Registry.Add 3%N]).
  reflexivity.
Defined.

Lemma remove_unbinds_lowest_witness :
  getCameraComponent (removeCameraComponent 3%N Bench.six_cameras)
    MAV_COMP_ID_CAMERA3 = nullptr /\
  getCameraComponent (removeCameraComponent 3%N Bench.six_cameras)
    MAV_COMP_ID_CAMERA4 = 4%N.
Proof.
  destruct (remove_unbinds_lowest Bench.six_cameras (d := 3%N)
              (k := MAV_COMP_ID_CAMERA3)) as [Hk Hother].
  - repeat constructor.
  - discriminate.
  - reflexivity.
  - intros k' p Hk' Hf. unfold MAV_COMP_ID_CAMERA3 in Hk'.
    simpl in Hf. unfold MAV_COMP_ID_CAMERA in Hf.
    destruct (Z.compare_spec k' 100) as [Hk0|Hk0|Hk0];
      [inversion Hf; discriminate|discriminate|].
    destruct (Z.compare_spec k' 101) as [Hk1|Hk1|Hk1];
      [inversion Hf; discriminate|discriminate|].
    lia.
  - split; [exact Hk|]. rewrite Hother; [reflexivity|discriminate].
Defined.

End RegistryFacts.

(** ** What handling a message does to the server *)

Module HandlerFacts.
Import Mavlink MavlinkServer Observe MavlinkServerFacts.

Section Facts.
Context {H : Type} `{CameraComponent H}.
Variable get_rtsp_uri : option string -> Stream.t -> string -> string.
Implicit Types (srv : MavlinkServer.t (H := H)) (addr : sockaddr_in).

Lemma set_udp_same srv : set_udp srv (_udp srv) = srv.
Proof. now destruct srv. Qed.

Lemma set_streams_same srv : set_streams srv (_streams srv) = srv.
Proof. now destruct srv. Qed.

Lemma set_devices_same srv : set_devices srv (devices srv) = srv.
Proof. now destruct srv. Qed.

Lemma only_sends_refl addr P srv : only_sends addr P srv srv.
Proof.
  exists (_udp srv), []. split; [now rewrite set_udp_same|].
  split; [now rewrite app_nil_r|constructor].
Qed.

Lemma only_sends_trans addr P srv srv1 srv2 :
  only_sends addr P srv srv1 -> only_sends addr P srv1 srv2 ->
  only_sends addr P srv srv2.
Proof.
  intros (u1 & n1 & -> & Hw1 & Hn1) (u2 & n2 & -> & Hw2 & Hn2).
  exists u2, (n1 ++ n2). split; [now destruct srv|].
  split.
  - rewrite Hw2. simpl. rewrite Hw1. now rewrite app_assoc.
  - apply Forall_app. split; [exact Hn1|].
    destruct srv; exact Hn2.
Qed.

Lemma only_sends_weaken addr (P Q : message -> bool) srv srv' :
  (forall m, P m = true -> Q m = true) ->
  only_sends addr P srv srv' -> only_sends addr Q srv srv'.
Proof.
  intros HPQ (u & n & Heq & Hw & Hn).
  exists u, n. split; [exact Heq|]. split; [exact Hw|].
  rewrite Forall_forall in *. intros w Hin.
  destruct (Hn w Hin) as (Hd & HP & Hs). auto.
Qed.

Lemma only_sends_send addr (P : message -> bool) msg srv :
  P msg = true ->
  sender_system msg = _system_id srv ->
  only_sends addr P srv (snd (_send_mavlink_message (Some addr) msg srv)).
Proof.
  intros HP Hs. unfold _send_mavlink_message, UDPSocket.write.
  destruct (UDPSocket.outcomes (_udp srv)) as [|ok rest]; simpl.
  - exists (UDPSocket.mk []
              (UDPSocket.written (_udp srv)
               ++ [UDPSocket.mk_write addr msg true])),
           [UDPSocket.mk_write addr msg true].
    repeat split; auto.
  - exists (UDPSocket.mk rest
              (UDPSocket.written (_udp srv)
               ++ [UDPSocket.mk_write addr msg ok])),
           [UDPSocket.mk_write addr msg ok].
    repeat split; auto.
Qed.

Lemma only_sends_system_id addr P srv srv' :
  only_sends addr P srv srv' -> _system_id srv' = _system_id srv.
Proof. intros (u & n & -> & _). now destruct srv. Qed.

Lemma only_sends_ack addr P cmd comp_id success srv :
  (forall m, is_command_ack m = true -> P m = true) ->
  only_sends addr P srv (_send_ack addr cmd comp_id success srv).
Proof.
  intros HP. unfold _send_ack. apply only_sends_send; [|reflexivity].
  now apply HP.
Qed.

(** The three information requests, around the message they build. *)
Lemma request_only_sends srv addr cmd (msg : message) :
  sender_system msg = _system_id srv ->
  let command := command_long.command cmd in
  let target_component := command_long.target_component cmd in
  only_sends addr (fun _ => true) srv
    (if float_ne_1 (command_long.param1 cmd) then
       _send_ack addr command target_component true srv
     else if negb (N.eqb (getCameraComponent srv target_component) nullptr)
     then
       let (sent, srv') := _send_mavlink_message (Some addr) msg srv in
       if negb sent then srv'
       else _send_ack addr command target_component true srv'
     else _send_ack addr command target_component false srv).
Proof.
  intros Hs command target_component.
  destruct (float_ne_1 (command_long.param1 cmd));
    [now apply only_sends_ack|].
  destruct (negb (N.eqb (getCameraComponent srv target_component) nullptr));
    [|now apply only_sends_ack].
  pose proof (only_sends_send addr (fun _ => true) msg srv eq_refl Hs)
    as Hsend.
  destruct (_send_mavlink_message (Some addr) msg srv) as [ok srv1].
  simpl in Hsend. destruct ok; simpl; [|exact Hsend].
  apply (only_sends_trans Hsend). now apply only_sends_ack.
Qed.

Lemma video_stream_loop_only_sends addr camera_id streams :
  forall query srv srv',
  video_stream_loop get_rtsp_uri addr camera_id streams query srv
    = Done srv' ->
  only_sends addr is_video_stream_information srv srv'.
Proof.
  induction streams as [|s streams IH]; intros query srv srv' Hrun.
  - simpl in Hrun. injection Hrun as <-. apply only_sends_refl.
  - cbn [video_stream_loop] in Hrun.
    destruct ((camera_id =? 0) || (camera_id =? Stream.id s));
      [|now apply (IH query)].
    destruct (match Stream.sel_frame_size s with
              | Some sel => snprintf_query sel
              | None => Some query
              end) as [q|].
    2:{ injection Hrun as <-. apply only_sends_refl. }
    destruct (match Stream.sel_frame_size s with
              | Some sel => Some sel
              | None =>
                  Resolver._find_best_frame_size s UINT32_MAX UINT32_MAX
              end) as [fs|]; [|discriminate].
    set (msg := VIDEO_STREAM_INFORMATION _ _ _) in Hrun.
    pose proof (only_sends_send addr is_video_stream_information msg srv
                  eq_refl eq_refl) as Hsend.
    destruct (_send_mavlink_message (Some addr) msg srv) as [ok srv1].
    simpl in Hsend. destruct ok; simpl in Hrun.
    + apply (only_sends_trans Hsend). now apply (IH q).
    + injection Hrun as <-. exact Hsend.
Qed.

Lemma param_list_loop_only_sends addr target_component tgtComp param_count :
  forall entries idx srv,
  only_sends addr is_param_ext_value srv
    (param_list_loop addr target_component tgtComp param_count idx entries
       srv).
Proof.
  induction entries as [|x entries IH]; intros idx srv.
  - apply only_sends_refl.
  - cbn [param_list_loop].
    set (msg2 := PARAM_EXT_VALUE _ _ _).
    apply (only_sends_trans
             (only_sends_send addr is_param_ext_value msg2 srv
                eq_refl eq_refl)).
    apply IH.
Qed.

(** What handling any message comes to: the streams and the device
    objects may be replaced, only by the message that is there for it, and
    then replies are sent. *)
Lemma handle_shape addr msg srv srv' :
  _handle_mavlink_message get_rtsp_uri addr msg srv = Done srv' ->
  exists streams' devs',
    only_sends addr (reply_kind msg)
      (set_devices (set_streams srv streams') devs') srv' /\
    ((forall settings, msg <> MSG_SET_VIDEO_STREAM_SETTINGS settings) ->
     streams' = _streams srv) /\
    ((forall param_set, msg <> MSG_PARAM_EXT_SET param_set) ->
     devs' = devices srv).
Proof.
  intros Hrun.
  assert (Hplain : only_sends addr (reply_kind msg) srv srv' ->
            exists streams' devs',
              only_sends addr (reply_kind msg)
                (set_devices (set_streams srv streams') devs') srv' /\
              ((forall settings,
                  msg <> MSG_SET_VIDEO_STREAM_SETTINGS settings) ->
               streams' = _streams srv) /\
              ((forall param_set, msg <> MSG_PARAM_EXT_SET param_set) ->
               devs' = devices srv)).
  { intros Hs. exists (_streams srv), (devices srv).
    rewrite set_streams_same, set_devices_same. auto. }
  destruct msg as [cmd|settings|param_ext_read|param_list|param_set|msgid];
    cbn [_handle_mavlink_message] in Hrun.
  - (* COMMAND_LONG *)
    apply Hplain. cbn [reply_kind].
    destruct (negb (command_long.target_system cmd =? _system_id srv)
              || (command_long.target_component cmd <? MAV_COMP_ID_CAMERA)
              || (command_long.target_component cmd >? MAV_COMP_ID_CAMERA6)).
    { injection Hrun as <-. apply only_sends_refl. }
    destruct (command_long.command cmd =? MAV_CMD_REQUEST_CAMERA_INFORMATION)
      eqn:Einfo.
    { injection Hrun as <-.
      replace (command_long.command cmd
               =? MAV_CMD_REQUEST_VIDEO_STREAM_INFORMATION) with false
        by (apply Z.eqb_eq in Einfo; rewrite Einfo; reflexivity).
      simpl.
      apply (request_only_sends srv addr cmd
               (CAMERA_INFORMATION (_system_id srv)
                  (command_long.target_component cmd) 0
                  (getCameraInfo (devices srv)
                     (getCameraComponent srv
                        (command_long.target_component cmd))))).
      reflexivity. }
    destruct (command_long.command cmd
              =? MAV_CMD_REQUEST_VIDEO_STREAM_INFORMATION).
    { destruct (float_to_uint (command_long.param1 cmd)) as [camera_id|];
        [|discriminate].
      destruct (float_to_uint (command_long.param2 cmd)) as [action|];
        [|discriminate].
      unfold _handle_camera_video_stream_request in Hrun.
      destruct (negb (action =? 1)).
      - injection Hrun as <-. apply only_sends_refl.
      - now apply video_stream_loop_only_sends in Hrun. }
    destruct (command_long.command cmd =? MAV_CMD_REQUEST_CAMERA_SETTINGS)
      eqn:Eset.
    { injection Hrun as <-. simpl.
      apply (request_only_sends srv addr cmd
               (CAMERA_SETTINGS (_system_id srv)
                  (command_long.target_component cmd) 0 1)).
      reflexivity. }
    destruct (command_long.command cmd
              =? MAV_CMD_REQUEST_STORAGE_INFORMATION) eqn:Estore.
    { injection Hrun as <-. simpl.
      apply (request_only_sends srv addr cmd
               (STORAGE_INFORMATION (_system_id srv)
                  (command_long.target_component cmd) 0
                  (mk_storage_information 1 1 2 float_50 float_0 float_50
                     float_128 float_128))).
      reflexivity. }
    injection Hrun as <-. apply only_sends_refl.
  - (* SET_VIDEO_STREAM_SETTINGS *)
    injection Hrun as <-.
    unfold _handle_camera_set_video_stream_settings.
    destruct (find_stream _ _ _ _) as [[pos stream]|].
    + match goal with
      | |- exists _ _, only_sends _ _ _ (set_streams _ ?st) /\ _ =>
          exists st, (devices srv);
          replace (set_devices (set_streams srv st) (devices srv))
            with (set_streams srv st) by now destruct srv
      end.
      split; [apply only_sends_refl|].
      split; [|reflexivity].
      intros Hnot. exfalso. now apply (Hnot settings).
    + exists (_streams srv), (devices srv).
      rewrite set_streams_same, set_devices_same.
      split; [apply only_sends_refl|auto].
  - (* PARAM_EXT_REQUEST_READ *)
    apply Hplain. injection Hrun as <-.
    unfold _handle_param_ext_request_read.
    destruct (negb (N.eqb _ nullptr)); [|apply only_sends_refl].
    apply only_sends_send.
    + now destruct (getParam _ _ _).
    + now destruct (getParam _ _ _).
  - (* PARAM_EXT_REQUEST_LIST *)
    apply Hplain. injection Hrun as <-.
    unfold _handle_param_ext_request_list.
    destruct (negb (N.eqb _ nullptr)); [|apply only_sends_refl].
    apply param_list_loop_only_sends.
  - (* PARAM_EXT_SET *)
    injection Hrun as <-.
    unfold _handle_param_ext_set.
    destruct (negb (N.eqb _ nullptr)).
    + destruct (setParam _ _ _ _ _) as [ret devs].
      exists (_streams srv), devs. rewrite set_streams_same.
      split; [|split; [reflexivity|]].
      * apply only_sends_send; reflexivity.
      * intros Hnot. exfalso. now apply (Hnot param_set).
    + exists (_streams srv), (devices srv).
      rewrite set_streams_same, set_devices_same.
      split; [apply only_sends_refl|auto].
  - (* any other message id *)
    apply Hplain. injection Hrun as <-. apply only_sends_refl.
Qed.


(** X11: whatever the message, the handler only appends to what the
    socket has been given: every reply it sends goes to the address the
    message came from (never to the broadcast address), is sent under the
    server's system id, and is of a kind that answers the message. *)
Theorem replies_go_to_sender addr msg srv srv' :
  _handle_mavlink_message get_rtsp_uri addr msg srv = Done srv' ->
  exists new,
    UDPSocket.written (_udp srv') = UDPSocket.written (_udp srv) ++ new /\
    Forall (fun w => UDPSocket.dest w = addr /\
                     sender_system (UDPSocket.payload w) = _system_id srv /\
                     reply_kind msg (UDPSocket.payload w) = true) new.
Proof.
  intros Hrun.
  destruct (handle_shape _ _ _ Hrun)
    as (streams' & devs' & (udp' & new & -> & Hw & Hnew) & _).
  exists new. split.
  - destruct srv; exact Hw.
  - rewrite Forall_forall in *. intros w Hin.
    destruct (Hnew w Hin) as (Hd & HP & Hs).
    split; [exact Hd|]. split; [exact Hs|exact HP].
Qed.

(** X12: handling a message never changes the component registry nor the
    configuration of the server (system id, component id, broadcast
    address, RTSP address, running flag, timer handle); the streams change
    at most on a SET_VIDEO_STREAM_SETTINGS and the device objects at most
    on a PARAM_EXT_SET. *)
Theorem handling_keeps_registry_and_config addr msg srv srv' :
  _handle_mavlink_message get_rtsp_uri addr msg srv = Done srv' ->
  compIdToObj srv' = compIdToObj srv /\
  _system_id srv' = _system_id srv /\
  _comp_id srv' = _comp_id srv /\
  _broadcast_addr srv' = _broadcast_addr srv /\
  _rtsp_server_addr srv' = _rtsp_server_addr srv /\
  _is_running srv' = _is_running srv /\
  _timeout_handler srv' = _timeout_handler srv /\
  ((forall settings, msg <> MSG_SET_VIDEO_STREAM_SETTINGS settings) ->
   _streams srv' = _streams srv) /\
  ((forall param_set, msg <> MSG_PARAM_EXT_SET param_set) ->
   devices srv' = devices srv).
Proof.
  intros Hrun.
  destruct (handle_shape _ _ _ Hrun)
    as (streams' & devs' & (udp' & new & -> & _) & Hstreams & Hdevs).
  destruct srv; simpl in *. repeat split; auto.
Qed.

(** X13: a COMMAND_ACK is sent for the three information requests only:
    for every other message, REQUEST_VIDEO_STREAM_INFORMATION and the
    commands the server has no handler for included, the acknowledgements
    handed to the socket are the same after the handling as before. *)
Theorem ack_only_for_information_requests addr msg srv srv' :
  _handle_mavlink_message get_rtsp_uri addr msg srv = Done srv' ->
  (forall cmd,
     msg = MSG_COMMAND_LONG cmd ->
     ~ In (command_long.command cmd)
          [MAV_CMD_REQUEST_CAMERA_INFORMATION;
           MAV_CMD_REQUEST_CAMERA_SETTINGS;
           MAV_CMD_REQUEST_STORAGE_INFORMATION]) ->
  filter is_command_ack (outbound srv')
    = filter is_command_ack (outbound srv).
Proof.
  intros Hrun Hnot.
  destruct (handle_shape _ _ _ Hrun)
    as (streams' & devs' & (udp' & new & -> & Hw & Hnew) & _).
  assert (Hkind : forall m, reply_kind msg m = true ->
                            is_command_ack m = false).
  { destruct msg as [cmd| | | | |]; simpl; intros m Hm;
      try discriminate; try (destruct m; simpl in *; congruence).
    specialize (Hnot cmd eq_refl). simpl in Hnot.
    destruct (command_long.command cmd
              =? MAV_CMD_REQUEST_VIDEO_STREAM_INFORMATION).
    - destruct m; simpl in *; congruence.
    - destruct (command_long.command cmd
                =? MAV_CMD_REQUEST_CAMERA_INFORMATION) eqn:E1.
      { apply Z.eqb_eq in E1. exfalso. apply Hnot. auto. }
      destruct (command_long.command cmd
                =? MAV_CMD_REQUEST_CAMERA_SETTINGS) eqn:E2.
      { apply Z.eqb_eq in E2. exfalso. apply Hnot. auto. }
      destruct (command_long.command cmd
                =? MAV_CMD_REQUEST_STORAGE_INFORMATION) eqn:E3.
      { apply Z.eqb_eq in E3. exfalso. apply Hnot. auto. }
      simpl in Hm. discriminate. }
  unfold outbound.
  replace (UDPSocket.written
             (_udp (set_udp (set_devices (set_streams srv streams') devs')
                      udp')))
    with (UDPSocket.written udp') by now destruct srv.
  rewrite Hw.
  replace (UDPSocket.written
             (_udp (set_devices (set_streams srv streams') devs')))
    with (UDPSocket.written (_udp srv)) by now destruct srv.
  rewrite map_app, filter_app.
  replace (filter is_command_ack (map UDPSocket.payload new)) with
    (@nil message); [now rewrite app_nil_r|].
  symmetry. clear Hw. induction new as [|w new IH]; [reflexivity|].
  inversion Hnew as [|? ? (_ & HP & _) Hrest]; subst. simpl.
  rewrite (Hkind _ HP). now apply IH.
Qed.

(** The burst, entry by entry: as many PARAM_EXT_VALUE as entries, all
    with the count given, numbered from [idx] on. *)
Lemma param_list_loop_burst addr target_component tgtComp param_count :
  forall entries idx srv,
  exists sent,
    outbound (param_list_loop addr target_component tgtComp param_count idx
                entries srv) = outbound srv ++ sent /\
    List.length sent = List.length entries /\
    Forall (fun m => value_param_count m = Some param_count) sent /\
    map value_param_index sent
      = map (fun n => Some ((idx + Z.of_nat n) mod 65536))
          (seq 0 (List.length entries)).
Proof.
  induction entries as [|x entries IH]; intros idx srv.
  - exists []. simpl. rewrite app_nil_r. repeat split; constructor.
  - cbn [param_list_loop].
    set (msg2 := PARAM_EXT_VALUE _ _ _).
    destruct (IH (idx + 1) (snd (_send_mavlink_message (Some addr) msg2 srv)))
      as (sent & Hout & Hlen & Hcount & Hidx).
    exists (msg2 :: sent). split; [|split; [|split]].
    + rewrite Hout, send_outbound, <- app_assoc. reflexivity.
    + simpl. now rewrite Hlen.
    + constructor; [reflexivity|exact Hcount].
    + simpl. rewrite Hidx, <- seq_shift, map_map.
      f_equal.
      * now rewrite Z.add_0_r.
      * apply map_ext. intros n. do 2 f_equal. lia.
Qed.

(** X14: a PARAM_EXT_REQUEST_LIST for a bound component whose parameter
    map has N entries hands N PARAM_EXT_VALUE messages to the socket,
    whether or not the writes succeed; each carries [param_count] N and
    the i-th carries [param_index] i (both as 16-bit values); the device
    objects are not changed. *)
Theorem param_list_burst_count srv addr param_list :
  getCameraComponent srv
    (param_ext_request_list.target_component param_list) <> nullptr ->
  exists srv' sent,
    _handle_mavlink_message get_rtsp_uri addr
      (MSG_PARAM_EXT_REQUEST_LIST param_list) srv = Done srv' /\
    outbound srv' = outbound srv ++ sent /\
    let entries :=
      getParamList (devices srv)
        (getCameraComponent srv
           (param_ext_request_list.target_component param_list)) in
    List.length sent = List.length entries /\
    Forall (fun m => value_param_count m
                     = Some (StdMap.size entries mod 65536)) sent /\
    map value_param_index sent
      = map (fun n => Some (Z.of_nat n mod 65536))
          (seq 0 (List.length entries)) /\
    devices srv' = devices srv.
Proof.
  intros Hbound.
  cbn [_handle_mavlink_message]. unfold _handle_param_ext_request_list.
  apply N.eqb_neq in Hbound. rewrite Hbound. simpl negb. cbv iota.
  set (tgtComp := getCameraComponent srv _).
  set (entries := getParamList (devices srv) tgtComp).
  destruct (param_list_loop_burst addr
              (param_ext_request_list.target_component param_list) tgtComp
              (StdMap.size entries mod 65536) entries 0 srv)
    as (sent & Hout & Hlen & Hcount & Hidx).
  eexists; exists sent. split; [reflexivity|]. split; [exact Hout|].
  split; [exact Hlen|]. split; [exact Hcount|]. split; [exact Hidx|].
  pose proof (param_list_loop_only_sends addr
                (param_ext_request_list.target_component param_list) tgtComp
                (StdMap.size entries mod 65536) entries 0 srv)
    as (udp' & new & Heq & _).
  rewrite Heq. now destruct srv.
Qed.

(** X15: an extended-parameter read or set for a bound component gets
    exactly one reply.  The read is answered by a PARAM_EXT_VALUE when
    [getParam] succeeds and by a PARAM_EXT_ACK with PARAM_ACK_FAILED
    otherwise, and leaves the device objects as they were; the set is
    answered by a PARAM_EXT_ACK whose result is PARAM_ACK_ACCEPTED when
    [setParam] succeeded and PARAM_ACK_FAILED otherwise, and leaves the
    device objects as [setParam] left them, also when it failed. *)
Theorem param_ext_single_reply srv addr :
  (forall param_ext_read,
     let tgtComp :=
       getCameraComponent srv
         (param_ext_request_read.target_component param_ext_read) in
     tgtComp <> nullptr ->
     exists srv' reply,
       _handle_mavlink_message get_rtsp_uri addr
         (MSG_PARAM_EXT_REQUEST_READ param_ext_read) srv = Done srv' /\
       outbound srv' = outbound srv ++ [reply] /\
       devices srv' = devices srv /\
       (is_param_ext_value reply = true <->
        getParam (devices srv) tgtComp
          (param_ext_request_read.param_id param_ext_read) <> None) /\
       (is_param_ext_ack_failed reply = true <->
        getParam (devices srv) tgtComp
          (param_ext_request_read.param_id param_ext_read) = None)) /\
  (forall param_set,
     let tgtComp :=
       getCameraComponent srv
         (param_ext_set.target_component param_set) in
     let result :=
       setParam (devices srv) tgtComp (param_ext_set.param_id param_set)
         (param_ext_set.param_value param_set)
         (param_ext_set.param_type param_set) in
     tgtComp <> nullptr ->
     exists srv' ack,
       _handle_mavlink_message get_rtsp_uri addr
         (MSG_PARAM_EXT_SET param_set) srv = Done srv' /\
       outbound srv' = outbound srv ++ [PARAM_EXT_ACK (_system_id srv)
                                          (param_ext_set.target_component
                                             param_set) ack] /\
       devices srv' = snd result /\
       pa_param_result ack
         = (if fst result then PARAM_ACK_ACCEPTED else PARAM_ACK_FAILED)).
Proof.
  split.
  - intros param_ext_read tgtComp Hbound.
    cbn [_handle_mavlink_message]. unfold _handle_param_ext_request_read.
    fold tgtComp. apply N.eqb_neq in Hbound. rewrite Hbound. simpl negb.
    cbv iota.
    set (msg2 := match getParam _ _ _ with Some _ => _ | None => _ end).
    exists (snd (_send_mavlink_message (Some addr) msg2 srv)), msg2.
    split; [reflexivity|]. split; [apply send_outbound|].
    split; [apply send_frame|].
    subst msg2.
    destruct (getParam (devices srv) tgtComp
                (param_ext_request_read.param_id param_ext_read));
      simpl; split; split; congruence.
  - intros param_set tgtComp result Hbound.
    cbn [_handle_mavlink_message]. unfold _handle_param_ext_set.
    fold tgtComp. apply N.eqb_neq in Hbound. rewrite Hbound. simpl negb.
    cbv iota. subst result.
    destruct (setParam (devices srv) tgtComp
                (param_ext_set.param_id param_set)
                (param_ext_set.param_value param_set)
                (param_ext_set.param_type param_set)) as [ret devs].
    set (ack := if ret then _ else _).
    exists (snd (_send_mavlink_message (Some addr)
                   (PARAM_EXT_ACK (_system_id (set_devices srv devs))
                      (param_ext_set.target_component param_set) ack)
                   (set_devices srv devs))), ack.
    split; [reflexivity|]. split.
    + rewrite send_outbound. now destruct srv.
    + split.
      * pose proof (send_frame (Some addr)
                      (PARAM_EXT_ACK (_system_id (set_devices srv devs))
                         (param_ext_set.target_component param_set) ack)
                      (set_devices srv devs)) as (_ & _ & Hdev & _).
        rewrite Hdev. now destruct srv.
      * subst ack. now destruct ret.
Qed.


(** *** Stream selection *)

Lemma find_stream_none camera_id : forall streams pos acc,
  (forall s, In s streams -> Stream.id s <> camera_id) ->
  find_stream camera_id streams pos acc = acc.
Proof.
  induction streams as [|x streams IH]; intros pos acc Hno; simpl;
    [reflexivity|].
  assert (Hx : Stream.id x <> camera_id) by (apply Hno; now left).
  apply Z.eqb_neq in Hx. rewrite Hx.
  apply IH. intros s Hs. apply Hno. now right.
Qed.

Lemma find_stream_last camera_id s post : forall pre pos acc,
  Stream.id s = camera_id ->
  (forall s', In s' post -> Stream.id s' <> camera_id) ->
  find_stream camera_id (pre ++ s :: post) pos acc
    = Some ((pos + List.length pre)%nat, s).
Proof.
  induction pre as [|x pre IH]; intros pos acc Hid Hpost; simpl.
  - apply Z.eqb_eq in Hid. rewrite Hid.
    rewrite find_stream_none by exact Hpost.
    now rewrite Nat.add_0_r.
  - rewrite IH by assumption. do 2 f_equal. lia.
Qed.

Lemma replace_nth_middle s' s post : forall pre,
  replace_nth (List.length pre) s' (pre ++ s :: post) = pre ++ s' :: post.
Proof.
  induction pre as [|x pre IH]; simpl; [reflexivity|]. now rewrite IH.
Qed.

(** X16: a SET_VIDEO_STREAM_SETTINGS whose camera id is the id of no
    stream changes nothing.  Otherwise it changes the selection of one
    stream only, the last one in the list with that id: the selection is
    cleared when either requested dimension is 0 and set to what the
    resolver returns for the request otherwise.  Nothing is sent in either
    case. *)
Theorem set_video_stream_settings_effect srv addr settings :
  let camera_id := set_video_stream_settings.camera_id settings in
  let w := set_video_stream_settings.resolution_h settings in
  let h := set_video_stream_settings.resolution_v settings in
  ((forall s, In s (_streams srv) -> Stream.id s <> camera_id) ->
   _handle_mavlink_message get_rtsp_uri addr
     (MSG_SET_VIDEO_STREAM_SETTINGS settings) srv = Done srv) /\
  (forall pre s post,
     _streams srv = pre ++ s :: post ->
     Stream.id s = camera_id ->
     (forall s', In s' post -> Stream.id s' <> camera_id) ->
     _handle_mavlink_message get_rtsp_uri addr
       (MSG_SET_VIDEO_STREAM_SETTINGS settings) srv
     = Done (set_streams srv
               (pre ++
                Stream.set_sel_frame_size s
                  (if (w =? 0) || (h =? 0) then None
                   else Resolver._find_best_frame_size s w h)
                :: post))).
Proof.
  intros camera_id w h. split.
  - intros Hno. cbn [_handle_mavlink_message].
    unfold _handle_camera_set_video_stream_settings. fold camera_id.
    now rewrite find_stream_none by exact Hno.
  - intros pre s post Hstreams Hid Hpost. cbn [_handle_mavlink_message].
    unfold _handle_camera_set_video_stream_settings. fold camera_id w h.
    rewrite Hstreams.
    rewrite (find_stream_last s post pre 0 None Hid Hpost). simpl Nat.add.
    now rewrite replace_nth_middle.
Qed.

(** *** Stream information *)

Lemma find_best_nonempty (s : Stream.t) (w h : Z) :
  Stream.all_frame_sizes s <> [] ->
  exists fs, Resolver._find_best_frame_size s w h = Some fs.
Proof.
  intros Hne. rewrite ResolverFacts.find_best_flat.
  destruct (Stream.all_frame_sizes s) as [|first rest]; [congruence|].
  destruct (Resolver.scan_frame_sizes w h None (first :: rest))
    as [fs|best] eqn:E; [eauto|].
  apply ResolverFacts.scan_inr in E. simpl in E.
  unfold Resolver.step at 2 in E. simpl in E.
  destruct (ResolverMore.fold_step_Some w h rest first) as (r & Hr & _).
  rewrite Hr in E. subst best. eauto.
Qed.

(** The loop returns normally when every stream it addresses has a
    selection or a frame size to report; it then has sent stream
    information only, one message at most per addressed stream. *)
Lemma video_stream_loop_defined addr camera_id : forall streams query srv,
  (forall s, In s streams -> addressed camera_id s = true ->
             Stream.sel_frame_size s <> None \/
             Stream.all_frame_sizes s <> []) ->
  exists srv' sent,
    video_stream_loop get_rtsp_uri addr camera_id streams query srv
      = Done srv' /\
    outbound srv' = outbound srv ++ sent /\
    Forall (fun m => is_video_stream_information m = true) sent /\
    (List.length sent
     <= List.length (filter (addressed camera_id) streams))%nat.
Proof.
  induction streams as [|s streams IH]; intros query srv Hok.
  - exists srv, []. simpl. rewrite app_nil_r. repeat split; auto.
  - assert (Hrest : forall s', In s' streams ->
                      addressed camera_id s' = true ->
                      Stream.sel_frame_size s' <> None \/
                      Stream.all_frame_sizes s' <> []).
    { intros s' Hs'. apply Hok. now right. }
    cbn [video_stream_loop filter].
    change ((camera_id =? 0) || (camera_id =? Stream.id s))
      with (addressed camera_id s).
    destruct (addressed camera_id s) eqn:Eaddr.
    2:{ apply IH. exact Hrest. }
    assert (Hs : Stream.sel_frame_size s <> None \/
                 Stream.all_frame_sizes s <> []).
    { apply Hok; [now left|exact Eaddr]. }
    destruct (Stream.sel_frame_size s) as [sel|] eqn:Esel.
    + destruct (snprintf_query sel) as [q|].
      2:{ exists srv, []. rewrite app_nil_r. simpl.
          repeat split; auto. lia. }
      set (msg := VIDEO_STREAM_INFORMATION _ _ _).
      pose proof (send_outbound (Some addr) msg srv) as Hout.
      destruct (_send_mavlink_message (Some addr) msg srv) as [ok srv1].
      simpl in Hout. destruct ok; simpl.
      * destruct (IH q srv1 Hrest) as (srv' & sent & Hrun & Hout' & Hk & Hl).
        exists srv', (msg :: sent). rewrite Hrun, Hout', Hout, <- app_assoc.
        repeat split; auto. simpl. lia.
      * exists srv1, [msg]. rewrite Hout. repeat split; auto. simpl. lia.
    + destruct Hs as [Hs|Hs]; [congruence|].
      destruct (find_best_nonempty s UINT32_MAX UINT32_MAX Hs) as (fs & Hfs).
      rewrite Hfs.
      set (msg := VIDEO_STREAM_INFORMATION _ _ _).
      pose proof (send_outbound (Some addr) msg srv) as Hout.
      destruct (_send_mavlink_message (Some addr) msg srv) as [ok srv1].
      simpl in Hout. destruct ok; simpl.
      * destruct (IH query srv1 Hrest)
          as (srv' & sent & Hrun & Hout' & Hk & Hl).
        exists srv', (msg :: sent). rewrite Hrun, Hout', Hout, <- app_assoc.
        repeat split; auto. simpl. lia.
      * exists srv1, [msg]. rewrite Hout. repeat split; auto. simpl. lia.
Qed.

(** X17: a REQUEST_VIDEO_STREAM_INFORMATION that passes the filter is
    handled to the end when every stream it addresses has a selection or
    advertises a frame size; it is answered with VIDEO_STREAM_INFORMATION
    messages only (never a COMMAND_ACK), at most one per addressed stream,
    and with nothing at all when the action is not 1. *)
Theorem video_stream_request_replies srv addr cmd camera_id action :
  passes_filter srv cmd ->
  command_long.command cmd = MAV_CMD_REQUEST_VIDEO_STREAM_INFORMATION ->
  float_to_uint (command_long.param1 cmd) = Some camera_id ->
  float_to_uint (command_long.param2 cmd) = Some action ->
  (forall s, In s (_streams srv) -> addressed camera_id s = true ->
             Stream.sel_frame_size s <> None \/
             Stream.all_frame_sizes s <> []) ->
  exists srv' sent,
    _handle_mavlink_message get_rtsp_uri addr (MSG_COMMAND_LONG cmd) srv
      = Done srv' /\
    outbound srv' = outbound srv ++ sent /\
    Forall (fun m => is_video_stream_information m = true) sent /\
    (List.length sent
     <= List.length (filter (addressed camera_id) (_streams srv)))%nat /\
    (action <> 1 -> sent = []).
Proof.
  intros Hpass Hcmd Hid Haction Hok.
  cbn [_handle_mavlink_message]. rewrite (filter_accepts Hpass).
  rewrite Hcmd, Hid, Haction. simpl.
  unfold _handle_camera_video_stream_request.
  destruct (action =? 1) eqn:E; simpl.
  - destruct (video_stream_loop_defined addr camera_id (_streams srv)
                EmptyString srv Hok)
      as (srv' & sent & Hrun & Hout & Hk & Hl).
    exists srv', sent. repeat split; auto.
    apply Z.eqb_eq in E. congruence.
  - exists srv, []. rewrite app_nil_r. repeat split; auto. simpl. lia.
Qed.


Lemma stream_information_set_udp srv udp' s fs query :
  stream_information get_rtsp_uri (set_udp srv udp') s fs query
  = stream_information get_rtsp_uri srv s fs query.
Proof. now destruct srv. Qed.

(** A write on a socket with no failure ahead. *)
Lemma send_succeeds addr msg srv :
  UDPSocket.outcomes (_udp srv) = [] ->
  _send_mavlink_message (Some addr) msg srv
  = (true,
     set_udp srv
       (UDPSocket.mk []
          (UDPSocket.written (_udp srv)
           ++ [UDPSocket.mk_write addr msg true]))).
Proof.
  intros Hout. unfold _send_mavlink_message, UDPSocket.write.
  now rewrite Hout.
Qed.

Lemma video_stream_loop_unselected addr camera_id :
  forall streams query srv,
  (forall s, In s streams -> addressed camera_id s = true ->
             Stream.sel_frame_size s = None /\
             Stream.all_frame_sizes s <> []) ->
  UDPSocket.outcomes (_udp srv) = [] ->
  exists srv' sent,
    video_stream_loop get_rtsp_uri addr camera_id streams query srv
      = Done srv' /\
    outbound srv' = outbound srv ++ sent /\
    Forall2
      (fun s m =>
         exists fs,
           Resolver._find_best_frame_size s UINT32_MAX UINT32_MAX = Some fs /\
           m = stream_information get_rtsp_uri srv s fs query)
      (filter (addressed camera_id) streams) sent.
Proof.
  induction streams as [|s streams IH]; intros query srv Hok Hsock.
  - exists srv, []. simpl. rewrite app_nil_r. repeat split; constructor.
  - assert (Hrest : forall s', In s' streams ->
                      addressed camera_id s' = true ->
                      Stream.sel_frame_size s' = None /\
                      Stream.all_frame_sizes s' <> []).
    { intros s' Hs'. apply Hok. now right. }
    cbn [video_stream_loop filter].
    change ((camera_id =? 0) || (camera_id =? Stream.id s))
      with (addressed camera_id s).
    destruct (addressed camera_id s) eqn:Eaddr.
    2:{ now apply IH. }
    destruct (Hok s (or_introl eq_refl) Eaddr) as [Hsel Hne].
    rewrite Hsel.
    destruct (find_best_nonempty s UINT32_MAX UINT32_MAX Hne) as (fs & Hfs).
    rewrite Hfs.
    change (VIDEO_STREAM_INFORMATION (_system_id srv) (_comp_id srv) _)
      with (stream_information get_rtsp_uri srv s fs query).
    rewrite (send_succeeds addr _ srv Hsock). simpl negb. cbv iota.
    set (srv1 := set_udp srv _).
    destruct (IH query srv1 Hrest eq_refl) as (srv' & sent & Hrun & Hout & Hall).
    exists srv', (stream_information get_rtsp_uri srv s fs query :: sent).
    split; [exact Hrun|]. split.
    + rewrite Hout. subst srv1. unfold outbound at 1. simpl.
      replace (UDPSocket.written
                 (_udp (set_udp srv
                    (UDPSocket.mk []
                       (UDPSocket.written (_udp srv)
                        ++ [UDPSocket.mk_write addr
                              (stream_information get_rtsp_uri srv s fs query)
                              true])))))
        with (UDPSocket.written (_udp srv)
              ++ [UDPSocket.mk_write addr
                    (stream_information get_rtsp_uri srv s fs query) true])
        by now destruct srv.
      rewrite map_app, <- app_assoc. reflexivity.
    + constructor; [eauto|].
      eapply Forall2_impl; [|exact Hall].
      intros s' m (fs' & Hfs' & ->). exists fs'. split; [exact Hfs'|].
      subst srv1. apply stream_information_set_udp.
Qed.

(** X18: when the streams addressed by a REQUEST_VIDEO_STREAM_INFORMATION
    with action 1 have no selection, and no write fails, the handler
    sends one VIDEO_STREAM_INFORMATION per addressed stream, in the order
    of the streams, each reporting the frame size the resolver returns for
    [(UINT32_MAX, UINT32_MAX)] and a URI with an empty query. *)
Theorem video_stream_information_unselected srv addr command camera_id :
  (forall s, In s (_streams srv) -> addressed camera_id s = true ->
             Stream.sel_frame_size s = None /\
             Stream.all_frame_sizes s <> []) ->
  UDPSocket.outcomes (_udp srv) = [] ->
  exists srv' sent,
    _handle_camera_video_stream_request get_rtsp_uri addr command camera_id 1
      srv = Done srv' /\
    outbound srv' = outbound srv ++ sent /\
    Forall2
      (fun s m =>
         exists fs,
           Resolver._find_best_frame_size s UINT32_MAX UINT32_MAX = Some fs /\
           m = stream_information get_rtsp_uri srv s fs EmptyString)
      (filter (addressed camera_id) (_streams srv)) sent.
Proof.
  intros Hok Hsock. unfold _handle_camera_video_stream_request. simpl.
  now apply video_stream_loop_unselected.
Qed.

(** X19: the query buffer is not reset between streams.  When a request
    for all streams (camera id 0, action 1) meets a stream with a
    selection followed by a stream without one, the information sent for
    the second stream carries the query ([?width=..&height=..]) printed
    for the selection of the first. *)
Theorem query_carries_over srv addr command s1 s2 sel q fs2 :
  _streams srv = [s1; s2] ->
  Stream.sel_frame_size s1 = Some sel ->
  snprintf_query sel = Some q ->
  Stream.sel_frame_size s2 = None ->
  Resolver._find_best_frame_size s2 UINT32_MAX UINT32_MAX = Some fs2 ->
  UDPSocket.outcomes (_udp srv) = [] ->
  exists srv',
    _handle_camera_video_stream_request get_rtsp_uri addr command 0 1 srv
      = Done srv' /\
    outbound srv'
    = outbound srv ++ [stream_information get_rtsp_uri srv s1 sel q;
                       stream_information get_rtsp_uri srv s2 fs2 q].
Proof.
  intros Hstreams Hsel1 Hq Hsel2 Hfs2 Hsock.
  unfold _handle_camera_video_stream_request. simpl negb. cbv iota.
  rewrite Hstreams. cbn [video_stream_loop]. simpl orb. cbv iota.
  rewrite Hsel1, Hq.
  change (VIDEO_STREAM_INFORMATION (_system_id srv) (_comp_id srv) _)
    with (stream_information get_rtsp_uri srv s1 sel q).
  rewrite (send_succeeds addr _ srv Hsock). simpl negb. cbv iota.
  rewrite Hsel2, Hfs2.
  set (srv1 := set_udp srv _).
  change (VIDEO_STREAM_INFORMATION (_system_id srv1) (_comp_id srv1) _)
    with (stream_information get_rtsp_uri srv1 s2 fs2 q).
  rewrite (send_succeeds addr _ srv1 eq_refl). simpl negb. cbv iota.
  eexists. split; [reflexivity|].
  subst srv1. rewrite stream_information_set_udp.
  destruct srv. unfold outbound. simpl.
  rewrite !map_app, <- app_assoc. reflexivity.
Qed.

Lemma video_stream_loop_skips addr camera_id query srv : forall streams rest,
  (forall s, In s streams -> addressed camera_id s = false) ->
  video_stream_loop get_rtsp_uri addr camera_id (streams ++ rest) query srv
  = video_stream_loop get_rtsp_uri addr camera_id rest query srv.
Proof.
  induction streams as [|s streams IH]; intros rest Hno; [reflexivity|].
  simpl app. cbn [video_stream_loop].
  change ((camera_id =? 0) || (camera_id =? Stream.id s))
    with (addressed camera_id s).
  rewrite (Hno s (or_introl eq_refl)).
  apply IH. intros s' Hs'. apply Hno. now right.
Qed.

Lemma not_addressed camera_id s :
  camera_id <> 0 -> Stream.id s <> camera_id -> addressed camera_id s = false.
Proof.
  intros Hnz Hid. unfold addressed.
  apply orb_false_iff. split; apply Z.eqb_neq; congruence.
Qed.

(** X20: selecting, then asking.  On a server where one stream only has
    the camera id (not 0) of the messages: after a
    SET_VIDEO_STREAM_SETTINGS with two dimensions other than 0, a
    REQUEST_VIDEO_STREAM_INFORMATION for that camera is answered with one
    message, which reports the frame size the resolver chose for the
    request and a URI carrying the query printed for it; after one with a
    dimension 0, it is answered with one message reporting what the
    resolver returns for [(UINT32_MAX, UINT32_MAX)], with the empty
    query. *)
Theorem select_then_request srv addr command settings pre s post :
  let camera_id := set_video_stream_settings.camera_id settings in
  let w := set_video_stream_settings.resolution_h settings in
  let h := set_video_stream_settings.resolution_v settings in
  let srv1 := _handle_camera_set_video_stream_settings addr settings srv in
  _streams srv = pre ++ s :: post ->
  Stream.id s = camera_id ->
  camera_id <> 0 ->
  (forall s', In s' (pre ++ post) -> Stream.id s' <> camera_id) ->
  UDPSocket.next_outcome (_udp srv) = true ->
  (forall sel q,
     w <> 0 -> h <> 0 ->
     Resolver._find_best_frame_size s w h = Some sel ->
     snprintf_query sel = Some q ->
     exists srv',
       _handle_camera_video_stream_request get_rtsp_uri addr command
         camera_id 1 srv1 = Done srv' /\
       outbound srv'
       = outbound srv
         ++ [stream_information get_rtsp_uri srv
               (Stream.set_sel_frame_size s (Some sel)) sel q]) /\
  (forall fs,
     w = 0 \/ h = 0 ->
     Resolver._find_best_frame_size s UINT32_MAX UINT32_MAX = Some fs ->
     exists srv',
       _handle_camera_video_stream_request get_rtsp_uri addr command
         camera_id 1 srv1 = Done srv' /\
       outbound srv'
       = outbound srv
         ++ [stream_information get_rtsp_uri srv
               (Stream.set_sel_frame_size s None) fs EmptyString]).
Proof.
  intros camera_id w h srv1 Hstreams Hid Hnz Hunique Hnext.
  assert (Hpre : forall s', In s' pre -> addressed camera_id s' = false).
  { intros s' Hs'. apply not_addressed; [exact Hnz|].
    apply Hunique. apply in_or_app. now left. }
  assert (Hpost : forall s', In s' post -> addressed camera_id s' = false).
  { intros s' Hs'. apply not_addressed; [exact Hnz|].
    apply Hunique. apply in_or_app. now right. }
  assert (Hpost' : forall s', In s' post -> Stream.id s' <> camera_id).
  { intros s' Hs'. apply Hunique. apply in_or_app. now right. }
  assert (Hself : forall sel,
            addressed camera_id (Stream.set_sel_frame_size s sel) = true).
  { intros sel. unfold addressed. simpl. rewrite Hid.
    rewrite Z.eqb_refl. apply orb_true_r. }
  assert (Hsrv1 : srv1 = set_streams srv
             (pre ++ Stream.set_sel_frame_size s
                       (if (w =? 0) || (h =? 0) then None
                        else Resolver._find_best_frame_size s w h)
                  :: post)).
  { subst srv1. unfold _handle_camera_set_video_stream_settings.
    fold camera_id w h. rewrite Hstreams.
    rewrite (find_stream_last s post pre 0 None Hid Hpost').
    simpl Nat.add. now rewrite replace_nth_middle. }
  assert (Hstep : forall sel' fs q,
            match sel' with
            | Some x => snprintf_query x
            | None => Some EmptyString
            end = Some q ->
            match sel' with
            | Some x => Some x
            | None =>
                Resolver._find_best_frame_size s UINT32_MAX UINT32_MAX
            end = Some fs ->
            exists srv',
              _handle_camera_video_stream_request get_rtsp_uri addr command
                camera_id 1
                (set_streams srv
                   (pre ++ Stream.set_sel_frame_size s sel' :: post))
              = Done srv' /\
              outbound srv'
              = outbound srv
                ++ [stream_information get_rtsp_uri srv
                      (Stream.set_sel_frame_size s sel') fs q]).
  { intros sel' fs q Hq Hfs.
    unfold _handle_camera_video_stream_request. simpl negb. cbv iota.
    replace (_streams (set_streams srv
               (pre ++ Stream.set_sel_frame_size s sel' :: post)))
      with (pre ++ Stream.set_sel_frame_size s sel' :: post)
      by now destruct srv.
    rewrite video_stream_loop_skips by exact Hpre.
    cbn [video_stream_loop].
    change ((camera_id =? 0)
            || (camera_id =? Stream.id (Stream.set_sel_frame_size s sel')))
      with (addressed camera_id (Stream.set_sel_frame_size s sel')).
    rewrite Hself.
    replace (Stream.sel_frame_size (Stream.set_sel_frame_size s sel'))
      with sel' by reflexivity.
    replace (Resolver._find_best_frame_size
               (Stream.set_sel_frame_size s sel') UINT32_MAX UINT32_MAX)
      with (Resolver._find_best_frame_size s UINT32_MAX UINT32_MAX)
      by reflexivity.
    rewrite Hq, Hfs.
    set (srv2 := set_streams srv _).
    change (VIDEO_STREAM_INFORMATION (_system_id srv2) (_comp_id srv2) _)
      with (stream_information get_rtsp_uri srv2
              (Stream.set_sel_frame_size s sel') fs q).
    set (msg := stream_information get_rtsp_uri srv2 _ fs q).
    pose proof (send_result (Some addr) msg srv2) as Hres.
    pose proof (send_outbound (Some addr) msg srv2) as Hout.
    destruct (_send_mavlink_message (Some addr) msg srv2) as [ok srv3].
    simpl in Hres, Hout.
    replace (UDPSocket.next_outcome (_udp srv2))
      with (UDPSocket.next_outcome (_udp srv)) in Hres
      by (subst srv2; now destruct srv).
    rewrite Hnext in Hres. subst ok. simpl negb. cbv iota.
    rewrite <- (app_nil_r post).
    rewrite video_stream_loop_skips by exact Hpost.
    simpl. exists srv3. split; [reflexivity|].
    rewrite Hout. subst msg srv2. now destruct srv. }
  split.
  - intros sel q Hw Hh Hsel Hq. rewrite Hsrv1.
    apply Z.eqb_neq in Hw, Hh. rewrite Hw, Hh. simpl orb. cbv iota.
    rewrite Hsel. now apply Hstep.
  - intros fs Hzero Hfs. rewrite Hsrv1.
    replace ((w =? 0) || (h =? 0)) with true.
    + now apply Hstep.
    + symmetry. apply orb_true_iff.
      destruct Hzero as [Hz|Hz]; [left|right]; now apply Z.eqb_eq.
Qed.


End Facts.

(** *** The statements on the bench *)

Local Open Scope string_scope.

Lemma replies_go_to_sender_witness :
  exists srv' new,
    _handle_mavlink_message Bench.get_rtsp_uri Bench.gcs
      (MSG_COMMAND_LONG (Bench.info_request float_1)) (Bench.one_camera [] [])
      = Done srv' /\
    UDPSocket.written (_udp srv') = new /\
    Forall (fun w => UDPSocket.dest w = Bench.gcs) new /\
    List.length new = 2%nat.
Proof.
  eexists. 
  destruct (replies_go_to_sender Bench.get_rtsp_uri Bench.gcs
              (MSG_COMMAND_LONG (Bench.info_request float_1))
              (Bench.one_camera [] []) eq_refl) as (new & Hw & Hall).
  exists new. split; [reflexivity|]. split; [exact Hw|]. split.
  - rewrite Forall_forall in *. intros w Hin. now apply Hall.
  - simpl in Hw. rewrite <- Hw. reflexivity.
Defined.

Lemma handling_keeps_registry_and_config_witness :
  exists srv',
    _handle_mavlink_message Bench.get_rtsp_uri Bench.gcs
      (MSG_PARAM_EXT_SET (Bench2.set_request "brightness" "128" 5))
      (Bench.one_camera [] []) = Done srv' /\
    compIdToObj srv' = compIdToObj (Bench.one_camera [] []) /\
    _streams srv' = _streams (Bench.one_camera [] []).
Proof.
  eexists. split; [reflexivity|].
  destruct (handling_keeps_registry_and_config Bench.get_rtsp_uri Bench.gcs
              (MSG_PARAM_EXT_SET (Bench2.set_request "brightness" "128" 5))
              (Bench.one_camera [] []) eq_refl)
    as (Hreg & _ & _ & _ & _ & _ & _ & Hstreams & _).
  split; [exact Hreg|]. apply Hstreams. discriminate.
Defined.

Lemma ack_only_for_information_requests_witness :
  exists srv',
    _handle_mavlink_message Bench.get_rtsp_uri Bench.gcs
      (MSG_COMMAND_LONG Bench2.stream_request)
      (Bench2.streams_server [Bench2.camera 1 Bench2.three_sizes None])
      = Done srv' /\
    List.length (outbound srv') = 1%nat /\
    filter is_command_ack (outbound srv') = [].
Proof.
  eexists. split; [reflexivity|]. split; [reflexivity|].
  apply (ack_only_for_information_requests Bench.get_rtsp_uri Bench.gcs
           (msg := MSG_COMMAND_LONG Bench2.stream_request)
           (Bench2.streams_server [Bench2.camera 1 Bench2.three_sizes None])
           eq_refl).
  intros cmd [= <-]. simpl. intuition discriminate.
Defined.

Lemma param_list_burst_count_witness :
  exists srv' sent,
    _handle_mavlink_message Bench.get_rtsp_uri Bench.gcs Bench.list_request
      (Bench.one_camera Bench.two_calls [false]) = Done srv' /\
    outbound srv' = sent /\
    List.length sent = 2%nat /\
    map value_param_index sent = [Some 0; Some 1] /\
    Forall (fun m => value_param_count m = Some 2) sent.
Proof.
  destruct (param_list_burst_count Bench.get_rtsp_uri
              (Bench.one_camera Bench.two_calls [false]) Bench.gcs
              (param_ext_request_list.mk 1 MAV_COMP_ID_CAMERA))
    as (srv' & sent & Hrun & Hout & Hlen & Hcount & Hidx & _).
  - discriminate.
  - exists srv', sent. split; [exact Hrun|]. split; [exact Hout|].
    split; [exact Hlen|]. split; [exact Hidx|exact Hcount].
Defined.

Lemma param_ext_single_reply_witness :
  (exists srv' reply,
     _handle_mavlink_message Bench.get_rtsp_uri Bench.gcs
       (MSG_PARAM_EXT_REQUEST_READ (Bench2.read_request "brightness"))
       (Bench.one_camera Bench.two_calls []) = Done srv' /\
     outbound srv' = [reply] /\ is_param_ext_value reply = true) /\
  (exists srv' ack,
     _handle_mavlink_message Bench.get_rtsp_uri Bench.gcs
       (MSG_PARAM_EXT_SET (Bench2.set_request "hue" "3" 5))
       (Bench.one_camera [] []) = Done srv' /\
     outbound srv' = [PARAM_EXT_ACK 1 MAV_COMP_ID_CAMERA ack] /\
     pa_param_result ack = PARAM_ACK_FAILED).
Proof.
  split.
  - destruct (param_ext_single_reply Bench.get_rtsp_uri
                (Bench.one_camera Bench.two_calls []) Bench.gcs)
      as [Hread _].
    destruct (Hread (Bench2.read_request "brightness"))
      as (srv' & reply & Hrun & Hout & _ & Hvalue & _).
    + discriminate.
    + exists srv', reply. split; [exact Hrun|]. split; [exact Hout|].
      apply Hvalue. discriminate.
  - destruct (param_ext_single_reply Bench.get_rtsp_uri
                (Bench.one_camera [] []) Bench.gcs) as [_ Hset].
    destruct (Hset (Bench2.set_request "hue" "3" 5))
      as (srv' & ack & Hrun & Hout & _ & Hresult).
    + discriminate.
    + exists srv', ack. split; [exact Hrun|]. split; [exact Hout|].
      exact Hresult.
Defined.

Lemma set_video_stream_settings_effect_witness :
  _handle_mavlink_message Bench.get_rtsp_uri Bench.gcs
    (MSG_SET_VIDEO_STREAM_SETTINGS (Bench2.select 1 1000 1000))
    (Bench2.streams_server [Bench2.camera 1 Bench2.three_sizes None])
  = Done (Bench2.streams_server
            [Bench2.camera 1 Bench2.three_sizes
               (Some (Stream.mkFrameSize 640 480))]) /\
  _handle_mavlink_message Bench.get_rtsp_uri Bench.gcs
    (MSG_SET_VIDEO_STREAM_SETTINGS (Bench2.select 7 1000 1000))
    (Bench2.streams_server [Bench2.camera 1 Bench2.three_sizes None])
  = Done (Bench2.streams_server [Bench2.camera 1 Bench2.three_sizes None]).
Proof.
  split.
  - apply (proj2 (set_video_stream_settings_effect Bench.get_rtsp_uri
                    (Bench2.streams_server
                       [Bench2.camera 1 Bench2.three_sizes None])
                    Bench.gcs (Bench2.select 1 1000 1000))
             [] (Bench2.camera 1 Bench2.three_sizes None) []).
    + reflexivity.
    + reflexivity.
    + intros s' [].
  - apply (proj1 (set_video_stream_settings_effect Bench.get_rtsp_uri
                    (Bench2.streams_server
                       [Bench2.camera 1 Bench2.three_sizes None])
                    Bench.gcs (Bench2.select 7 1000 1000))).
    intros s [<-|[]]. discriminate.
Defined.

Lemma video_stream_request_replies_witness :
  exists srv' sent,
    _handle_mavlink_message Bench.get_rtsp_uri Bench.gcs
      (MSG_COMMAND_LONG Bench2.stream_request)
      (Bench2.streams_server [Bench2.camera 1 Bench2.three_sizes None;
                              Bench2.camera 2 [] None]) = Done srv' /\
    outbound srv' = sent /\
    Forall (fun m => is_video_stream_information m = true) sent /\
    (List.length sent <= 1)%nat.
Proof.
  destruct (video_stream_request_replies Bench.get_rtsp_uri
              (srv := Bench2.streams_server
                        [Bench2.camera 1 Bench2.three_sizes None;
                         Bench2.camera 2 [] None])
              Bench.gcs (cmd := Bench2.stream_request)
              (camera_id := 1) (action := 1))
    as (srv' & sent & Hrun & Hout & Hkind & Hlen & _).
  - split; [reflexivity|]. simpl.
    unfold MAV_COMP_ID_CAMERA, MAV_COMP_ID_CAMERA6. lia.
  - reflexivity.
  - reflexivity.
  - reflexivity.
  - intros s [<-|[<-|[]]] Haddr.
    + right. discriminate.
    + discriminate.
  - exists srv', sent. split; [exact Hrun|]. split; [exact Hout|].
    split; [exact Hkind|exact Hlen].
Defined.

Lemma video_stream_information_unselected_witness :
  exists srv',
    _handle_camera_video_stream_request Bench.get_rtsp_uri Bench.gcs
      MAV_CMD_REQUEST_VIDEO_STREAM_INFORMATION 0 1
      (Bench2.streams_server [Bench2.camera 1 Bench2.three_sizes None;
                              Bench2.camera 2 [(320, 240)] None])
      = Done srv' /\
    List.length (outbound srv') = 2%nat.
Proof.
  destruct (video_stream_information_unselected Bench.get_rtsp_uri
              (Bench2.streams_server
                 [Bench2.camera 1 Bench2.three_sizes None;
                  Bench2.camera 2 [(320, 240)] None])
              Bench.gcs MAV_CMD_REQUEST_VIDEO_STREAM_INFORMATION 0)
    as (srv' & sent & Hrun & Hout & Hall).
  - intros s [<-|[<-|[]]] _; split; [reflexivity|discriminate
                                    |reflexivity|discriminate].
  - reflexivity.
  - exists srv'. split; [exact Hrun|].
    rewrite Hout. simpl. apply Forall2_length in Hall.
    simpl in Hall. now rewrite <- Hall.
Defined.

Lemma query_carries_over_witness :
  exists srv',
    _handle_camera_video_stream_request Bench.get_rtsp_uri Bench.gcs
      MAV_CMD_REQUEST_VIDEO_STREAM_INFORMATION 0 1
      (Bench2.streams_server
         [Bench2.camera 1 Bench2.three_sizes
            (Some (Stream.mkFrameSize 640 480));
          Bench2.camera 2 [(320, 240)] None]) = Done srv' /\
    map (fun m => match m with
                  | VIDEO_STREAM_INFORMATION _ _ info => vs_uri info
                  | _ => ""
                  end) (outbound srv')
    = ["rtsp://0.0.0.0:8554/stream?width=640&height=480";
       "rtsp://0.0.0.0:8554/stream?width=640&height=480"].
Proof.
  destruct (query_carries_over Bench.get_rtsp_uri
              (Bench2.streams_server
                 [Bench2.camera 1 Bench2.three_sizes
                    (Some (Stream.mkFrameSize 640 480));
                  Bench2.camera 2 [(320, 240)] None])
              Bench.gcs MAV_CMD_REQUEST_VIDEO_STREAM_INFORMATION
              (s1 := Bench2.camera 1 Bench2.three_sizes
                       (Some (Stream.mkFrameSize 640 480)))
              (s2 := Bench2.camera 2 [(320, 240)] None)
              (sel := Stream.mkFrameSize 640 480)
              (q := "?width=640&height=480")
              (fs2 := Stream.mkFrameSize 320 240))
    as (srv' & Hrun & Hout); try reflexivity.
  exists srv'. split; [exact Hrun|]. rewrite Hout. reflexivity.
Defined.

Lemma select_then_request_witness :
  exists srv',
    _handle_camera_video_stream_request Bench.get_rtsp_uri Bench.gcs
      MAV_CMD_REQUEST_VIDEO_STREAM_INFORMATION 1 1
      (_handle_camera_set_video_stream_settings Bench.gcs
         (Bench2.select 1 1000 1000)
         (Bench2.streams_server [Bench2.camera 1 Bench2.three_sizes None]))
      = Done srv' /\
    outbound srv'
    = [stream_information Bench.get_rtsp_uri
         (Bench2.streams_server [Bench2.camera 1 Bench2.three_sizes None])
         (Bench2.camera 1 Bench2.three_sizes
            (Some (Stream.mkFrameSize 640 480)))
         (Stream.mkFrameSize 640 480) "?width=640&height=480"].
Proof.
  destruct (select_then_request Bench.get_rtsp_uri
              (Bench2.streams_server
                 [Bench2.camera 1 Bench2.three_sizes None])
              Bench.gcs MAV_CMD_REQUEST_VIDEO_STREAM_INFORMATION
              (Bench2.select 1 1000 1000)
              [] (Bench2.camera 1 Bench2.three_sizes None) [])
    as [Hselect _].
  - reflexivity.
  - reflexivity.
  - discriminate.
  - intros s' [].
  - reflexivity.
  - apply (Hselect (Stream.mkFrameSize 640 480) "?width=640&height=480");
      try reflexivity; discriminate.
Defined.

End HandlerFacts.

(** ** The constructor, [start] and [stop] *)

Module LifecycleFacts.
Import Mavlink MavlinkServer Lifecycle.

Section Facts.
Context {H L : Type} `{Mainloop L}.
Variable htons : Z -> Z.
Variable inet_addr : string -> Z.

Lemma start_running (p : process (H := H) (L := L)) :
  _is_running (server (start p)) = true.
Proof.
  unfold start. destruct (_is_running (server p)) eqn:E.
  - exact E.
  - destruct (add_timeout (mainloop p) 1000). reflexivity.
Qed.

Lemma stop_not_running (p : process (H := H) (L := L)) :
  _is_running (server (stop p)) = false.
Proof.
  unfold stop. destruct (_is_running (server p)) eqn:E; simpl.
  - reflexivity.
  - exact E.
Qed.

(** X21: the constructor takes a configured system id only when it lies
    strictly between 1 and 255 and otherwise falls back to
    [DEFAULT_SYSID]; the same for the component id with
    [MAV_COMP_ID_CAMERA].  So both ids of a new server are always in
    1..254, whatever the configuration says, and the new server is not
    running and has no camera component bound. *)
Theorem constructor_validates_ids (opt : options) (streams : list Stream.t)
    (udp : UDPSocket.t) (devs : H) :
  let srv := MavlinkServer_new htons inet_addr opt streams udp devs in
  (1 < sysid opt < 255 -> _system_id srv = sysid opt) /\
  (~ 1 < sysid opt < 255 -> _system_id srv = DEFAULT_SYSID) /\
  1 <= _system_id srv < 255 /\
  (1 < compid opt < 255 -> _comp_id srv = compid opt) /\
  (~ 1 < compid opt < 255 -> _comp_id srv = MAV_COMP_ID_CAMERA) /\
  1 <= _comp_id srv < 255 /\
  _is_running srv = false /\
  (forall compID, getCameraComponent srv compID = nullptr) /\
  outbound srv = map UDPSocket.payload (UDPSocket.written udp).
Proof.
  cbn [MavlinkServer_new _system_id _comp_id _is_running].
  unfold DEFAULT_SYSID, MAV_COMP_ID_CAMERA.
  assert (Hs : forall x d, 1 <= d < 255 ->
            let r := if x =? 0 then d
                     else if (x <=? 1) || (x >=? 255) then d else x in
            (1 < x < 255 -> r = x) /\ (~ 1 < x < 255 -> r = d) /\
            1 <= r < 255).
  { intros x d Hd. cbv zeta.
    destruct (Z.eqb_spec x 0); [repeat split; lia|].
    destruct (Z.leb_spec x 1); cbn [orb]; [repeat split; lia|].
    destruct (x >=? 255) eqn:E; [apply Z.geb_le in E; repeat split; lia|].
    assert (x < 255).
    { destruct (Z_lt_ge_dec x 255) as [|Hge]; [assumption|].
      apply Z.ge_le, Z.geb_le in Hge. congruence. }
    repeat split; lia. }
  destruct (Hs (sysid opt) 1 ltac:(lia)) as (S1 & S2 & S3).
  destruct (Hs (compid opt) 100 ltac:(lia)) as (C1 & C2 & C3).
  split; [exact S1|]. split; [exact S2|]. split; [exact S3|].
  split; [exact C1|]. split; [exact C2|]. split; [exact C3|].
  split; [reflexivity|]. split; [|reflexivity].
  intros compID. unfold getCameraComponent. cbn.
  now destruct ((compID <? MAV_COMP_ID_CAMERA)
                || (compID >? MAV_COMP_ID_CAMERA6)).
Qed.

(** X22: [start] and [stop] are idempotent: a second [start] registers
    no second heartbeat timer and a second [stop] deletes nothing more.
    [stop] after [start] on a server that was not running leaves it not
    running and deletes exactly the timer [start] registered, unless its
    handle is not positive, in which case the timer stays registered.
    Neither call touches the registry, the ids, the streams or what was
    sent, and [stop] does not close the socket. *)
Theorem start_stop_idempotent (p : process (H := H) (L := L)) :
  start (start p) = start p /\
  stop (stop p) = stop p /\
  (_is_running (server p) = false ->
   let (handle, loop) := add_timeout (mainloop p) 1000 in
   _is_running (server (stop (start p))) = false /\
   _timeout_handler (server (stop (start p))) = handle /\
   mainloop (stop (start p))
   = (if handle >? 0 then del_timeout loop handle else loop) /\
   udp_opened (stop (start p)) = true) /\
  (forall q, q = start p \/ q = stop p ->
     compIdToObj (server q) = compIdToObj (server p) /\
     _system_id (server q) = _system_id (server p) /\
     _comp_id (server q) = _comp_id (server p) /\
     _streams (server q) = _streams (server p) /\
     devices (server q) = devices (server p) /\
     outbound (server q) = outbound (server p)).
Proof.
  split; [|split; [|split]].
  - pose proof (start_running p) as Hr.
    unfold start at 1. now rewrite Hr.
  - pose proof (stop_not_running p) as Hr.
    unfold stop at 1. now rewrite Hr.
  - intros Hoff. unfold start. rewrite Hoff.
    destruct (add_timeout (mainloop p) 1000) as [handle loop].
    unfold stop. cbn. repeat split; reflexivity.
  - intros q [->| ->].
    + unfold start. destruct (_is_running (server p)).
      * repeat split; reflexivity.
      * destruct (add_timeout (mainloop p) 1000).
        repeat split; reflexivity.
    + unfold stop. destruct (_is_running (server p)); cbn;
        repeat split; reflexivity.
Qed.
End Facts.

Lemma constructor_validates_ids_witness :
  let srv :=
    MavlinkServer_new (fun x => x) (fun _ => 0) Bench2.options0 []
      (UDPSocket.mk [] []) Bench.fresh_devices in
  _system_id srv = 42 /\ _comp_id srv = MAV_COMP_ID_CAMERA.
Proof.
  destruct (constructor_validates_ids (fun x => x) (fun _ => 0)
              Bench2.options0 [] (UDPSocket.mk [] []) Bench.fresh_devices)
    as (Hsys & _ & _ & _ & Hcomp & _).
  split.
  - apply Hsys. simpl. lia.
  - apply Hcomp. simpl. lia.
Defined.

Lemma start_stop_idempotent_witness :
  mainloop (start Bench2.process0) = [1] /\
  mainloop (stop (start Bench2.process0)) = [] /\
  _is_running (server (stop (start Bench2.process0))) = false.
Proof.
  destruct (start_stop_idempotent Bench2.process0) as (_ & _ & Hround & _).
  specialize (Hround eq_refl). cbn in Hround.
  destruct Hround as (Hflag & _ & Hloop & _).
  split; [reflexivity|]. split; [exact Hloop|exact Hflag].
Defined.
End LifecycleFacts.
